(** * Log parsing of tools/test-upload/parse_and_upload.py

    A shallow embedding of the four parsers of [parse_and_upload.py]
    ([GoTestParser], [PytestParser], [GoogleTestParser], [GenericParser]),
    of [parse_log_file], [upload_test_results] and [main], together with
    the part of Python they run on: [str] methods, the backtracking
    semantics of [re] for the operators the patterns use, insertion-ordered
    [dict]s, [float]/[int] conversion on binary64, and [int] of a text with
    its limit on the number of digits.  Exceptions are values: a parser
    returns [Ok] or [Raise].

    Text is a list of characters; a character is a code point below 256
    (what the latin-1 fallback of [parse_log_file] yields, and all of ASCII). *)

From Stdlib Require Import Ascii String.
From Stdlib Require Import List ZArith Lia Bool Arith PeanoNat.
From Stdlib Require Import SpecFloat.
Import ListNotations.

Set Implicit Arguments.

(** ** Python [str] *)

Module Py.

Definition str := list ascii.

Definition lit (s : string) : str := list_ascii_of_string s.

Definition code (c : ascii) : nat := nat_of_ascii c.

Definition str_eqb (a b : str) : bool :=
  if list_eq_dec ascii_dec a b then true else false.

Definition nl : ascii := ascii_of_nat 10.

(** [str.isspace] on one character, which is also the class [\s] of [re]
    for [str] patterns: TAB LF VT FF CR, FS GS RS US, space, NEL, NBSP. *)
Definition isspace (c : ascii) : bool :=
  let n := code c in
  ((9 <=? n) && (n <=? 13)) || ((28 <=? n) && (n <=? 32))
  || (n =? 133) || (n =? 160).

(** The class [\d]: below 256 only the ASCII digits are decimal digits. *)
Definition isdigit (c : ascii) : bool :=
  let n := code c in (48 <=? n) && (n <=? 57).

Fixpoint lstrip (s : str) : str :=
  match s with
  | c :: t => if isspace c then lstrip t else s
  | [] => []
  end.

Definition rstrip (s : str) : str := rev (lstrip (rev s)).

Definition strip (s : str) : str := rstrip (lstrip s).

(** [s[a:b]] for non-negative [a], [b]: clamped at the end of [s], empty
    when [b <= a]. *)
Definition slice (s : str) (a b : nat) : str := firstn (b - a) (skipn a s).

Fixpoint startswith (p s : str) : bool :=
  match p, s with
  | [], _ => true
  | x :: p', y :: s' => if ascii_dec x y then startswith p' s' else false
  | _ :: _, [] => false
  end.

(** [s.split('\n')]: never empty, one more piece than there are newlines. *)
Fixpoint split_nl (s : str) : list str :=
  match s with
  | [] => [[]]
  | c :: t =>
      if ascii_dec c nl then [] :: split_nl t
      else match split_nl t with
           | l :: ls => (c :: l) :: ls
           | [] => [[c]]
           end
  end.

(** ['\n'.join(ls)] *)
Fixpoint join_nl (ls : list str) : str :=
  match ls with
  | [] => []
  | [l] => l
  | l :: ls' => l ++ nl :: join_nl ls'
  end.

(** [str.lower] on one character: A-Z and the upper-case letters of
    Latin-1 (0xC0-0xDE without the multiplication sign 0xD7). *)
Definition lower_char (c : ascii) : ascii :=
  let n := code c in
  if ((65 <=? n) && (n <=? 90))
     || ((192 <=? n) && (n <=? 222) && negb (n =? 215))
  then ascii_of_nat (n + 32) else c.

Definition lower (s : str) : str := map lower_char s.

(** Exceptions that escape the parsers. *)
Inductive exn : Type := ValueError | OverflowError.

Inductive result (A : Type) : Type :=
| Ok (a : A)
| Raise (e : exn).

Arguments Ok {A} a.
Arguments Raise {A} e.

Definition bind {A B} (r : result A) (f : A -> result B) : result B :=
  match r with
  | Ok a => f a
  | Raise e => Raise e
  end.

(** What a computation returned, seen through [f]. *)
Definition fmap {A B} (f : A -> B) (r : result A) : result B :=
  match r with
  | Ok a => Ok (f a)
  | Raise e => Raise e
  end.

(** The number a text of ASCII digits denotes. *)
Definition digit_val (c : ascii) : Z := Z.of_nat (code c) - 48.

Definition int_of_digits (s : str) : Z :=
  fold_left (fun acc c => 10 * acc + digit_val c)%Z s 0%Z.

(** [sys.get_int_max_str_digits()] as CPython 3.11 and later start with. *)
Definition int_max_str_digits : nat := 4300.

(** [int(s)] for a text of ASCII digits, the only texts the parsers pass:
    a text longer than the limit is refused with ValueError, leading zeros
    counted. *)
Definition int_of_str (s : str) : result Z :=
  if int_max_str_digits <? length s then Raise ValueError
  else Ok (int_of_digits s).

End Py.

Notation "x <- e ;; k" := (Py.bind e (fun x => k))
  (at level 61, e at next level, right associativity).

(** ** binary64 arithmetic behind [float(s)], [x * 1000] and [int(x)] *)

Module F64.

Definition prec : Z := 53.
Definition emax : Z := 1024.

Definition float := spec_float.

(** The binary64 number nearest to [n / 10^k] (ties to even), which is what
    [float] returns for a decimal numeral with digits [n] and [k] digits
    after the point. *)
Definition of_decimal (n : Z) (k : nat) : float :=
  match n with
  | Zpos _ =>
      let '(q, e, l) :=
        SFdiv_core_binary prec emax n 0 (Z.pow 10 (Z.of_nat k)) 0 in
      binary_round_aux prec emax false q e l
  | _ => S754_zero false
  end.

Definition of_Z (n : Z) : float := binary_normalize prec emax n 0 false.

Definition mul (x y : float) : float := SFmul prec emax x y.

(** [int(x)]: truncation toward zero; infinities and NaN raise. *)
Definition to_int (x : float) : Py.result Z :=
  match x with
  | S754_zero _ => Py.Ok 0%Z
  | S754_infinity _ => Py.Raise Py.OverflowError
  | S754_nan => Py.Raise Py.ValueError
  | S754_finite s m e =>
      let a := match e with
               | Zneg p => Z.shiftr (Zpos m) (Zpos p)
               | _ => Z.shiftl (Zpos m) e
               end in
      Py.Ok (if s then Z.opp a else a)
  end.

(** [float(s)] for a text made of digits and dots, the only texts the
    parsers pass: at most one dot and at least one digit, else ValueError. *)
Fixpoint scan (s : Py.str) (seen_dot : bool) (n : Z) (k digits : nat)
  : Py.result (Z * nat) :=
  match s with
  | [] => if (0 <? digits)%nat then Py.Ok (n, k) else Py.Raise Py.ValueError
  | c :: t =>
      if Py.isdigit c then
        scan t seen_dot (10 * n + Py.digit_val c)%Z
             (if seen_dot then S k else k) (S digits)
      else if ascii_dec c "."%char then
        if seen_dot then Py.Raise Py.ValueError
        else scan t true n k digits
      else Py.Raise Py.ValueError
  end.

Definition of_str (s : Py.str) : Py.result float :=
  nk <- scan s false 0%Z 0 0 ;;
  Py.Ok (of_decimal (fst nk) (snd nk)).

(** [int(float(s) * 1000)] *)
Definition millis (s : Py.str) : Py.result Z :=
  x <- of_str s ;;
  to_int (mul x (of_Z 1000)).

End F64.

(** ** Python [re]: backtracking matcher for the operators of the patterns *)

Module Re.

Import Py.

Inductive regex : Type :=
| Empty                                  (* the empty pattern *)
| Class (p : ascii -> bool)              (* one character of a class *)
| Cat (r1 r2 : regex)                    (* r1r2 *)
| Or (r1 r2 : regex)                     (* r1|r2, left alternative first *)
| Rep (greedy : bool) (r : regex)        (* r* and r*? *)
| Grp (n : nat) (r : regex)              (* capturing group number n *)
| Bol                                    (* ^ under MULTILINE *)
| Eol                                    (* $ under MULTILINE *)
| Eos                                    (* \Z *)
| Ahead (positive : bool) (r : regex).   (* (?=r) and (?!r) *)

(** Derived operators. *)
Definition Plus (greedy : bool) (r : regex) : regex := Cat r (Rep greedy r).
Definition Opt (r : regex) : regex := Or r Empty.
Definition Chr (c : ascii) : regex :=
  Class (fun x => if ascii_dec x c then true else false).
Definition Lit (s : str) : regex := fold_right (fun c r => Cat (Chr c) r) Empty s.
Definition Seq (rs : list regex) : regex := fold_right Cat Empty rs.

(** Character classes. *)
Definition ws : regex := Class isspace.                       (* \s *)
Definition nonws : regex := Class (fun c => negb (isspace c)). (* \S *)
Definition digit : regex := Class isdigit.                    (* \d *)
Definition digit_or_dot : regex :=                            (* [\d.] *)
  Class (fun c => isdigit c || (if ascii_dec c "."%char then true else false)).
Definition not_nl : regex :=                        (* . and [^\n] *)
  Class (fun c => if ascii_dec c nl then false else true).
Definition any : regex := Class (fun _ => true).    (* . under DOTALL *)

(** Group spans, most recent binding first. *)
Definition caps := list (nat * (nat * nat)).

Fixpoint span (c : caps) (n : nat) : option (nat * nat) :=
  match c with
  | [] => None
  | (k, v) :: c' => if Nat.eqb k n then Some v else span c' n
  end.

Section Matcher.

(** The subject, already cut at [endpos]. *)
Variable s : str.

Definition at_bol (i : nat) : bool :=
  match i with
  | 0 => true
  | S j => match nth_error s j with
           | Some c => if ascii_dec c nl then true else false
           | None => false
           end
  end.

Definition at_eol (i : nat) : bool :=
  match nth_error s i with
  | Some c => if ascii_dec c nl then true else false
  | None => Nat.eqb i (length s)
  end.

Definition cont := nat -> caps -> option (nat * caps).

(** The loop of a repetition whose body is matched by [body]: greedy, one
    more turn is tried before the rest of the pattern [k]; lazy, the rest
    is tried first.  A turn counts only if it consumes text, so [fuel]
    above the remaining length never runs out. *)
Fixpoint rep_loop (body : nat -> caps -> cont -> option (nat * caps))
  (greedy : bool) (k : cont) (fuel : nat) (i : nat) (c : caps) {struct fuel}
  : option (nat * caps) :=
  match fuel with
  | 0 => k i c
  | S fuel' =>
      if greedy then
        match body i c (fun j c' =>
                if i <? j then rep_loop body greedy k fuel' j c' else None) with
        | Some x => Some x
        | None => k i c
        end
      else
        match k i c with
        | Some x => Some x
        | None => body i c (fun j c' =>
                    if i <? j then rep_loop body greedy k fuel' j c' else None)
        end
  end.

(** [run r i c k]: match [r] at position [i] with the groups [c], then
    the rest of the pattern [k]; alternatives are tried in the order of
    the backtracking engine and the first complete match is returned. *)
Fixpoint run (r : regex) (i : nat) (c : caps) (k : cont) {struct r}
  : option (nat * caps) :=
  match r with
  | Empty => k i c
  | Class p =>
      match nth_error s i with
      | Some a => if p a then k (S i) c else None
      | None => None
      end
  | Cat r1 r2 => run r1 i c (fun j c' => run r2 j c' k)
  | Or r1 r2 =>
      match run r1 i c k with
      | Some x => Some x
      | None => run r2 i c k
      end
  | Rep greedy r1 => rep_loop (run r1) greedy k (S (length s - i)) i c
  | Grp n r1 => run r1 i c (fun j c' => k j ((n, (i, j)) :: c'))
  | Bol => if at_bol i then k i c else None
  | Eol => if at_eol i then k i c else None
  | Eos => if Nat.eqb i (length s) then k i c else None
  | Ahead positive r1 =>
      match run r1 i c (fun j c' => Some (j, c')) with
      | Some (_, c') => if positive then k i c' else None
      | None => if positive then None else k i c
      end
  end.

End Matcher.

(** A match object: [start()], [end()] and the spans of the groups. *)
Record mobj : Type := { m_start : nat; m_end : nat; m_caps : caps }.

Definition match_at (r : regex) (s : str) (i : nat) : option mobj :=
  match run s r i [] (fun j c => Some (j, c)) with
  | Some (j, c) => Some {| m_start := i; m_end := j; m_caps := c |}
  | None => None
  end.

(** Leftmost match starting at [i], [i+1], ..., [i+fuel]. *)
Fixpoint scan_from (fuel : nat) (r : regex) (s : str) (i : nat) : option mobj :=
  match match_at r s i with
  | Some m => Some m
  | None =>
      match fuel with
      | 0 => None
      | S fuel' => scan_from fuel' r s (S i)
      end
  end.

(** [pattern.search(content, pos, endpos)]: the subject is cut at [endpos];
    [^] still looks at the character before [pos]. *)
Definition search (r : regex) (content : str) (pos endpos : nat) : option mobj :=
  let s := firstn endpos content in
  if pos <=? length s then scan_from (length s - pos) r s pos else None.

(** [pattern.finditer(content)]: successive leftmost matches, each search
    resuming where the last match ended.  No pattern of this program
    matches the empty text; an empty match would resume one character on. *)
Fixpoint finditer_from (fuel : nat) (r : regex) (content : str) (pos : nat)
  : list mobj :=
  match fuel with
  | 0 => []
  | S fuel' =>
      match search r content pos (length content) with
      | None => []
      | Some m =>
          m :: finditer_from fuel' r content
                 (if m_start m <? m_end m then m_end m else S (m_end m))
      end
  end.

Definition finditer (r : regex) (content : str) : list mobj :=
  finditer_from (S (length content)) r content 0.

(** [match.group(n)], [None] when the group took no part in the match. *)
Definition group_opt (content : str) (m : mobj) (n : nat) : option str :=
  match span (m_caps m) n with
  | Some (a, b) => Some (slice content a b)
  | None => None
  end.

(** [match.group(n)] of a group that lies outside every alternative and
    repetition of its pattern, so that it takes part in every match. *)
Definition group (content : str) (m : mobj) (n : nat) : str :=
  match group_opt content m n with
  | Some t => t
  | None => []
  end.

End Re.

(** ** Python [dict]: insertion-ordered, a key assigned again keeps its place *)

Module Dict.

Section WithKey.
Variables (K V : Type) (eqb : K -> K -> bool).

Definition dict := list (K * V).

(** [d[k] = v] *)
Fixpoint set (d : dict) (k : K) (v : V) : dict :=
  match d with
  | [] => [(k, v)]
  | (k', v') :: d' =>
      if eqb k' k then (k', v) :: d' else (k', v') :: set d' k v
  end.

(** [d[k]] when [k in d] *)
Fixpoint get (d : dict) (k : K) : option V :=
  match d with
  | [] => None
  | (k', v') :: d' => if eqb k' k then Some v' else get d' k
  end.
End WithKey.

End Dict.

(** ** The records the parsers return *)

Inductive outcome : Type := passed | failed | skipped.

Record test_case : Type := {
  name : Py.str;
  status : outcome;
  duration_ms : Z;
  error_log : option Py.str   (* the key is absent when [None] *)
}.

Definition Text (s : string) : Re.regex := Re.Lit (Py.lit s).

(** Python's truth value of a text: non-empty. *)
Definition truthy (s : Py.str) : bool :=
  match s with [] => false | _ => true end.

(** ** GoTestParser *)

Module GoTestParser.

Import Py Re.

(** [^=== RUN\s+(.+)$] *)
Definition test_pattern : regex :=
  Seq [Bol; Text "=== RUN"; Plus true ws; Grp 1 (Plus true not_nl); Eol].

(** [^--- (PASS|FAIL|SKIP):\s+(.+?)\s+\(([\d.]+)s\)$] *)
Definition result_pattern : regex :=
  Seq [Bol; Text "--- ";
       Grp 1 (Or (Text "PASS") (Or (Text "FAIL") (Text "SKIP")));
       Text ":"; Plus true ws; Grp 2 (Plus false not_nl); Plus true ws;
       Text "("; Grp 3 (Plus true digit_or_dot); Text "s)"; Eol].

(** [--- FAIL:\s+(.+?)\s+\([\d.]+s\)\n(.*?)(?=---|===|\Z)] under DOTALL *)
Definition error_pattern : regex :=
  Seq [Text "--- FAIL:"; Plus true ws; Grp 1 (Plus false any); Plus true ws;
       Text "("; Plus true digit_or_dot; Text "s)"; Chr nl;
       Grp 2 (Rep false any);
       Ahead true (Or (Text "---") (Or (Text "===") Eos))].

(** [status_map.get(status, 'failed')] *)
Definition status_map_get (s : str) : outcome :=
  if str_eqb s (lit "pass") then passed
  else if str_eqb s (lit "fail") then failed
  else if str_eqb s (lit "skip") then skipped
  else failed.

Record result_entry : Type := { r_status : outcome; r_duration_ms : Z }.

Definition result_dict := Dict.dict str result_entry.

(** The loop over [result_matches]; [float] and [int] may raise. *)
Fixpoint fill_result_map (content : str) (ms : list mobj) (d : result_dict)
  : result result_dict :=
  match ms with
  | [] => Ok d
  | m :: ms' =>
      let st := lower (group content m 1) in
      let nm := strip (group content m 2) in
      ms_ <- F64.millis (group content m 3) ;;
      fill_result_map content ms'
        (Dict.set str_eqb d nm
           {| r_status := status_map_get st; r_duration_ms := ms_ |})
  end.

Definition result_map (content : str) : result result_dict :=
  fill_result_map content (finditer result_pattern content) [].

(** [re.findall] with two groups: the pairs of group texts. *)
Definition error_sections (content : str) : list (str * str) :=
  map (fun m => (group content m 1, group content m 2))
      (finditer error_pattern content).

Definition error_map (content : str) : Dict.dict str str :=
  fold_left (fun d ne =>
               Dict.set str_eqb d (strip (fst ne))
                        (firstn 2048 (strip (snd ne))))
            (error_sections content) [].

Definition mem (x : str) (l : list str) : bool := existsb (str_eqb x) l.

(** The loop over [test_matches] with the set [processed_names]. *)
Fixpoint build (content : str) (rm : result_dict) (em : Dict.dict str str)
  (ms : list mobj) (processed_names : list str) : list test_case :=
  match ms with
  | [] => []
  | m :: ms' =>
      let nm := strip (group content m 1) in
      if mem nm processed_names then build content rm em ms' processed_names
      else
        match Dict.get str_eqb rm nm with
        | Some r =>
            {| name := nm; status := r_status r;
               duration_ms := r_duration_ms r;
               error_log := Dict.get str_eqb em nm |}
            :: build content rm em ms' (nm :: processed_names)
        | None => build content rm em ms' (nm :: processed_names)
        end
  end.

Definition parse (content : str) : result (list test_case) :=
  let test_matches := finditer test_pattern content in
  rm <- result_map content ;;
  Ok (build content rm (error_map content) test_matches []).

End GoTestParser.

(** ** PytestParser *)

Module PytestParser.

Import Py Re.

(** [^(.+?)::(.+?)\s+(PASSED|FAILED|SKIPPED|ERROR)(?:\s+\[.*?\])?(?:\s+\[([\d.]+)s\])?$] *)
Definition pytest_pattern : regex :=
  Seq [Bol; Grp 1 (Plus false not_nl); Text "::"; Grp 2 (Plus false not_nl);
       Plus true ws;
       Grp 3 (Or (Text "PASSED") (Or (Text "FAILED")
                 (Or (Text "SKIPPED") (Text "ERROR"))));
       Opt (Seq [Plus true ws; Text "["; Rep false not_nl; Text "]"]);
       Opt (Seq [Plus true ws; Text "["; Grp 4 (Plus true digit_or_dot);
                 Text "s]"]);
       Eol].

(** [FAILED\s+{file_name}::{test_name}.*?\n(.*?)(?=\n\S|\Z)] under DOTALL,
    the two names escaped, that is, matched literally. *)
Definition error_pattern (file_name test_name : str) : regex :=
  Seq [Text "FAILED"; Plus true ws; Lit file_name; Text "::"; Lit test_name;
       Rep false any; Chr nl; Grp 1 (Rep false any);
       Ahead true (Or (Cat (Chr nl) nonws) Eos)].

Definition status_map_get (s : str) : outcome :=
  if str_eqb s (lit "passed") then passed
  else if str_eqb s (lit "failed") then failed
  else if str_eqb s (lit "skipped") then skipped
  else if str_eqb s (lit "error") then failed
  else failed.

(** [duration_ms]: 0 unless group 4 is there; ValueError is caught,
    OverflowError is not. *)
Definition duration_of (d : option str) : result Z :=
  match d with
  | Some t =>
      if truthy t then
        match F64.millis t with
        | Ok z => Ok z
        | Raise ValueError => Ok 0%Z
        | Raise e => Raise e
        end
      else Ok 0%Z
  | None => Ok 0%Z
  end.

Definition case_of (content : str) (m : mobj) : result test_case :=
  let file_name := group content m 1 in
  let test_name := group content m 2 in
  let st := status_map_get (lower (group content m 3)) in
  let full_name := file_name ++ lit "::" ++ test_name in
  d <- duration_of (group_opt content m 4) ;;
  let log :=
    match st with
    | failed =>
        match search (error_pattern file_name test_name) content
                     (m_end m) (length content) with
        | Some em => Some (firstn 2048 (strip (group content em 1)))
        | None => None
        end
    | _ => None
    end in
  Ok {| name := full_name; status := st; duration_ms := d; error_log := log |}.

Fixpoint cases (content : str) (ms : list mobj) : result (list test_case) :=
  match ms with
  | [] => Ok []
  | m :: ms' =>
      t <- case_of content m ;;
      ts <- cases content ms' ;;
      Ok (t :: ts)
  end.

Definition parse (content : str) : result (list test_case) :=
  cases content (finditer pytest_pattern content).

End PytestParser.

(** ** GoogleTestParser *)

Module GoogleTestParser.

Import Py Re.

(** [\[ RUN\s+\]\s+(\S+)] *)
Definition run_pattern : regex :=
  Seq [Text "[ RUN"; Plus true ws; Text "]"; Plus true ws;
       Grp 1 (Plus true nonws)].

(** [\[\s+OK\s+\]\s+(\S+)\s+\((\d+)\s+ms\)] *)
Definition ok_pattern : regex :=
  Seq [Text "["; Plus true ws; Text "OK"; Plus true ws; Text "]";
       Plus true ws; Grp 1 (Plus true nonws); Plus true ws; Text "(";
       Grp 2 (Plus true digit); Plus true ws; Text "ms)"].

(** [\[\s+FAILED\s+\]\s+(\S+)\s+\((\d+)\s+ms\)] *)
Definition failed_pattern : regex :=
  Seq [Text "["; Plus true ws; Text "FAILED"; Plus true ws; Text "]";
       Plus true ws; Grp 1 (Plus true nonws); Plus true ws; Text "(";
       Grp 2 (Plus true digit); Plus true ws; Text "ms)"].

(** One group around [test/], [[^\n:]+], [:], [\d+], [:], [[^\n]*] and the
    repeated continuation line [(?:\n(?!\[)[^\n]* )*]. *)
Definition test_error_pattern : regex :=
  Grp 1 (Seq [Text "test/";
              Plus true (Class (fun c =>
                if ascii_dec c nl then false
                else if ascii_dec c ":"%char then false else true));
              Text ":"; Plus true digit; Text ":"; Rep true not_nl;
              Rep true (Seq [Chr nl; Ahead false (Text "["); Rep true not_nl])]).

(** A value of [result_map]. *)
Record result_entry : Type := {
  r_name : str;
  r_status : outcome;
  r_duration_ms : Z;
  r_end_pos : nat
}.

Definition result_dict := Dict.dict nat result_entry.

(** The value stored for one OK or FAILED match; [int] may raise. *)
Definition entry_of (content : str) (st : outcome) (m : mobj)
  : result result_entry :=
  let name := strip (group content m 1) in
  duration_ms <- int_of_str (group content m 2) ;;
  Ok {| r_name := name;
        r_status := st;
        r_duration_ms := duration_ms;
        r_end_pos := m_end m |}.

(** One of the two loops that fill [result_map]. *)
Fixpoint add_results (content : str) (st : outcome) (ms : list mobj)
  (d : result_dict) : result result_dict :=
  match ms with
  | [] => Ok d
  | m :: ms' =>
      e <- entry_of content st m ;;
      add_results content st ms' (Dict.set Nat.eqb d (m_start m) e)
  end.

(** First the loop over the OK matches, then the loop over the FAILED ones. *)
Definition result_map (content : str) : result result_dict :=
  d <- add_results content passed (finditer ok_pattern content) [] ;;
  add_results content failed (finditer failed_pattern content) d.

(** The loop over [result_map.items()] with its [break]. *)
Definition find_result (rm : result_dict) (run_start : nat) (test_name : str)
  : option (nat * result_entry) :=
  find (fun pr => (run_start <? fst pr) && str_eqb (r_name (snd pr)) test_name)
       rm.

(** Start of the next RUN after [run_start], else [len(content)]. *)
Definition next_run_start (content : str) (run_matches : list mobj)
  (run_start : nat) : nat :=
  match find (fun m => run_start <? m_start m) run_matches with
  | Some m => m_start m
  | None => length content
  end.

(** [error_log] of a case whose result is a FAILED marker at [result_start]. *)
Definition failed_error_log (content : str) (run_end result_start : nat) : str :=
  let error_start := run_end in
  let error_end := result_start in
  let error_content := strip (slice content error_start error_end) in
  match search test_error_pattern content error_start error_end with
  | Some tm =>
      let match_start := m_start tm in
      let potential_end := m_end tm in
      if (Z.of_nat potential_end <? Z.of_nat error_end - 50)%Z
      then error_content
      else strip (slice content match_start (Nat.min potential_end error_end))
  | None => error_content
  end.

(** The lines kept when no result and no [test/] location was found. *)
Definition keep_line (line : str) : bool :=
  truthy line && negb (startswith (lit "[DEBUG]") line)
  && negb (startswith (lit "[INFO]") line).

Definition error_lines (error_content : str) : list str :=
  filter keep_line (map strip (split_nl error_content)).

(** [error_log] of a case with no result: [None] when the key is not set. *)
Definition missing_error_log (content : str) (run_matches : list mobj)
  (run_start run_end : nat) : option str :=
  let nrs := next_run_start content run_matches run_start in
  match search test_error_pattern content run_end nrs with
  | Some tm =>
      let error_log := strip (slice content (m_start tm) nrs) in
      if truthy error_log then Some (firstn 2048 error_log) else None
  | None =>
      let error_content := strip (slice content run_end nrs) in
      match error_lines error_content with
      | [] => None
      | ls => Some (firstn 2048 (join_nl (firstn 20 ls)))
      end
  end.

(** One turn of the loop over [run_matches]. *)
Definition case_of (content : str) (run_matches : list mobj)
  (rm : result_dict) (run_match : mobj) : test_case :=
  let test_name := strip (group content run_match 1) in
  let run_start := m_start run_match in
  let run_end := m_end run_match in
  match find_result rm run_start test_name with
  | Some (result_start, res) =>
      {| name := test_name;
         status := r_status res;
         duration_ms := r_duration_ms res;
         error_log :=
           match r_status res with
           | failed =>
               let error_log := failed_error_log content run_end result_start in
               if truthy error_log then Some (firstn 2048 error_log) else None
           | _ => None
           end |}
  | None =>
      {| name := test_name;
         status := failed;
         duration_ms := 0;
         error_log := missing_error_log content run_matches run_start run_end |}
  end.

Definition run_matches (content : str) : list mobj :=
  finditer run_pattern content.

Definition parse (content : str) : result (list test_case) :=
  let run_matches := run_matches content in
  rm <- result_map content ;;
  Ok (map (case_of content run_matches rm) run_matches).

End GoogleTestParser.

(** ** GenericParser *)

Module GenericParser.

Import Py.

Definition nonempty (l : list test_case) : bool :=
  match l with [] => false | _ => true end.

Definition parse (content : str) : result (list test_case) :=
  test_cases <- GoogleTestParser.parse content ;;
  if nonempty test_cases then Ok test_cases
  else
    test_cases <- GoTestParser.parse content ;;
    if nonempty test_cases then Ok test_cases
    else
      test_cases <- PytestParser.parse content ;;
      if nonempty test_cases then Ok test_cases
      else Ok [].

End GenericParser.

(** * Vocabulary of the properties *)

Import Py.


(** ** Concrete logs *)

Module Logs.

(** RUN A, RUN B, OK B (4 ms), FAILED A (9 ms): completions out of order. *)
Definition interleaved : str := lit "[ RUN      ] A
[ RUN      ] B
[       OK ] B (4 ms)
[  FAILED  ] A (9 ms)".

(** RUN A, FAILED A (9 ms), OK A (4 ms): a FAILED marker before an OK
    marker of the same name. *)
Definition failed_then_ok : str := lit "[ RUN      ] A
[  FAILED  ] A (9 ms)
[       OK ] A (4 ms)".

(** Two RUN markers of one name and a single completion. *)
Definition run_twice : str := lit "[ RUN      ] A
[ RUN      ] A
[       OK ] A (4 ms)".

(** A Go log with a start line and its terminal line. *)
Definition go_pass : str := lit "=== RUN   name
--- PASS: name (0.01s)".


(** A gtest case that fails with one line of output. *)
Definition gtest_fail : str := lit "[ RUN      ] T
boom
[  FAILED  ] T (4 ms)".

(** A gtest start marker and a completion marker of another name. *)
Definition stray_ok : str := lit "[ RUN      ] A
[       OK ] Z (4 ms)".

(** A Go start line and a terminal line of another name. *)
Definition go_stray_pass : str := lit "=== RUN   A
--- PASS: A (0.5s)
--- PASS: Z (0.5s)".

(** No marker of any dialect. *)
Definition no_markers : str := lit "booting
done".

(** A gtest case that never completes; its output has a line that starts
    with a log-level tag and goes on. *)
Definition info_line : str := lit "[ RUN      ] T
E1
[INFO] step 2 of 3
E2".



(** A gtest case T that never completes, followed by a case U that does;
    the output of T has a tagged line and an indented line. *)
Definition two_cases : str := lit "[ RUN      ] T
zeta
[INFO] step 2 of 3
alpha
  mid
beta
[ RUN      ] U
[       OK ] U (1 ms)".


(** A Go case that took 2.01 seconds. *)
Definition go_rounded : str := lit "=== RUN   name
--- PASS: name (2.01s)".

(** A Go terminal line whose seconds are no number. *)
Definition go_bad_seconds : str := lit "--- PASS: Z (1.2.3s)".

(** A gtest case whose OK marker states a duration of 4301 digits. *)
Definition long_duration : str :=
  lit "[ RUN      ] A
[       OK ] A (" ++ repeat "1"%char 4301 ++ lit " ms)".

End Logs.

Definition summary (t : test_case) : str * outcome * Z :=
  (name t, status t, duration_ms t).

(** The four parsers behind the one method [parse] of [TestCaseParser]. *)
Inductive TestCaseParser : Type := GoTest | Pytest | GoogleTest | Generic.

Definition parse (p : TestCaseParser) (content : str) : result (list test_case) :=
  match p with
  | GoTest => GoTestParser.parse content
  | Pytest => PytestParser.parse content
  | GoogleTest => GoogleTestParser.parse content
  | Generic => GenericParser.parse content
  end.

(** [t] is one of the records [p] returns on [content]. *)
Definition emits (p : TestCaseParser) (content : str) (t : test_case) : Prop :=
  exists l, parse p content = Ok l /\ In t l.

(** The names captured by the start markers of the two dialects. *)
Definition gtest_started (content : str) : list str :=
  map (fun m => strip (Re.group content m 1))
      (GoogleTestParser.run_matches content).

Definition go_started (content : str) : list str :=
  map (fun m => strip (Re.group content m 1))
      (Re.finditer GoTestParser.test_pattern content).

(** The OK and FAILED markers of a text. *)
Definition completions (content : str) : list Re.mobj :=
  Re.finditer GoogleTestParser.ok_pattern content
  ++ Re.finditer GoogleTestParser.failed_pattern content.

(** Some OK or FAILED marker that carries the name of the start marker [m]
    begins after the beginning of [m]. *)
Definition completed_after (content : str) (m : Re.mobj) : bool :=
  existsb (fun k => (Re.m_start m <? Re.m_start k)
                    && str_eqb (strip (Re.group content k 1))
                               (strip (Re.group content m 1)))
          (completions content).

(** Where the next start marker after the position [pos] begins: the least
    position above [pos] at which a start marker begins, and the end of the
    text when there is none. *)
Definition next_start (content : str) (pos : nat) : nat :=
  fold_right Nat.min (length content)
    (filter (fun p => pos <? p)
            (map Re.m_start (GoogleTestParser.run_matches content))).

(** The text between the end of the start marker [m] and the next start
    marker. *)
Definition open_window (content : str) (m : Re.mobj) : str :=
  slice content (Re.m_end m) (next_start content (Re.m_start m)).

(** The lines that remain of a window, in the order of the text: the
    window is stripped and cut at the newlines, every line is stripped, and
    the lines that are empty or begin with [DEBUG] or [INFO] are left out. *)
Definition remaining_lines (window : str) : list str :=
  filter (fun line => truthy line
                      && negb (startswith (lit "[DEBUG]") line)
                      && negb (startswith (lit "[INFO]") line))
         (map strip (split_nl (strip window))).

(** The start marker [m] is left without completion and its window holds
    no [test/] location. *)
Definition filtered_branch (content : str) (m : Re.mobj) : Prop :=
  completed_after content m = false
  /\ Re.search GoogleTestParser.test_error_pattern content (Re.m_end m)
       (next_start content (Re.m_start m)) = None.

(** The lines kept for such a start marker. *)
Definition kept_lines (content : str) (m : Re.mobj) : list str :=
  remaining_lines (open_window content m).


(** Decision of [substring]: [t] starts at some position of [s]. *)
Definition substringb (t s : str) : bool :=
  existsb (fun i => startswith t (skipn i s)) (seq 0 (S (length s))).

(** A line that is a log-level tag and nothing else. *)
Definition pure_tag (line : str) : bool :=
  str_eqb (strip line) (lit "[DEBUG]") || str_eqb (strip line) (lit "[INFO]").

(** The excerpt as the specification words it for a start marker without
    completion and without source location: the window as it is, without
    the lines that are only a tag, cut at 2048 characters.  It is compared
    with what [GoogleTestParser.missing_error_log] returns. *)
Definition spec_window_log (window : str) : str :=
  firstn 2048 (join_nl (filter (fun l => negb (pure_tag l)) (split_nl window))).

(** The text of [c] hundredths of a second as [go test] prints it: the
    seconds, a dot and two decimals. *)
Definition digit_char (d : Z) : ascii := ascii_of_nat (Z.to_nat (48 + d)).

Fixpoint digits_of (fuel : nat) (n : Z) (acc : str) : str :=
  match fuel with
  | 0 => acc
  | S fuel' =>
      let acc' := digit_char (n mod 10) :: acc in
      if (n <? 10)%Z then acc' else digits_of fuel' (n / 10) acc'
  end.

Definition seconds_text (c : Z) : str :=
  digits_of 20 (c / 100) []
  ++ "."%char :: [digit_char (c / 10 mod 10); digit_char (c mod 10)].

(** What a rounding location says about a remainder [T] of a division by
    [E]: exact when there is none, else below, at or above the half. *)
Definition loc_ok (l : location) (T E : Z) : Prop :=
  match l with
  | loc_Exact => T = 0%Z
  | loc_Inexact c => (0 < T)%Z /\ (2 * T ?= E)%Z = c
  end.

(** The least number of characters a match of [r] consumes, and the groups
    that take part in every match of [r]. *)
Fixpoint min_len (r : Re.regex) : nat :=
  match r with
  | Re.Class _ => 1
  | Re.Cat r1 r2 => min_len r1 + min_len r2
  | Re.Or r1 r2 => Nat.min (min_len r1) (min_len r2)
  | Re.Grp _ r1 => min_len r1
  | _ => 0
  end.

Fixpoint always_set (r : Re.regex) : list nat :=
  match r with
  | Re.Cat r1 r2 => always_set r1 ++ always_set r2
  | Re.Or r1 r2 =>
      filter (fun n => existsb (Nat.eqb n) (always_set r2)) (always_set r1)
  | Re.Grp n r1 => n :: always_set r1
  | Re.Ahead true r1 => always_set r1
  | _ => []
  end.

(** The groups of [c] stay set in [c']. *)
Definition keeps (c c' : Re.caps) : Prop :=
  forall n, Re.span c n <> None -> Re.span c' n <> None.

(** * The rest of parse_and_upload.py *)

(** [s.endswith(suffix)] *)
Definition endswith (suffix s : str) : bool := startswith (rev suffix) (rev s).

(** What can end a run of the tool early. *)
Inductive run_error : Type :=
| FileNotFound                 (* FileNotFoundError of [parse_log_file] *)
| FileUnreadable               (* the file cannot be read or decoded *)
| ParserRaised (e : exn)       (* an exception of a parser *)
| UploadFailed.                (* the exception of [upload_test_results] *)

Inductive attempt (A : Type) : Type :=
| Returned (a : A)
| Raised (e : run_error).

Arguments Returned {A} a.
Arguments Raised {A} e.

(** The log file as [parse_log_file] finds it. *)
Inductive file_state : Type :=
| Missing
| Unreadable
| Readable (content : str).

(** [parse_log_file], the warning it prints left out. *)
Definition parse_log_file (file : file_state) : attempt (list test_case) :=
  match file with
  | Missing => Raised FileNotFound
  | Unreadable => Raised FileUnreadable
  | Readable content =>
      if negb (truthy (strip content)) then Returned []
      else
        match GenericParser.parse content with
        | Ok test_cases => Returned test_cases
        | Raise e => Raised (ParserRaised e)
        end
  end.

(** The URL the results are posted to. *)
Definition test_runs_url (api_url : str) : str :=
  if negb (endswith (lit "/test-runs") api_url) then
    if endswith (lit "/") api_url then api_url ++ lit "test-runs"
    else api_url ++ lit "/test-runs"
  else api_url.

(** The loop that sets the status of the whole run, with its [break]. *)
Fixpoint overall_status (test_cases : list test_case) : outcome :=
  match test_cases with
  | [] => passed
  | tc :: rest =>
      match status tc with
      | failed => failed
      | _ => overall_status rest
      end
  end.

Record payload : Type := {
  p_branch_name : str;
  p_commit_id : str;
  p_test_type : str;
  p_status : outcome;
  p_test_cases : list test_case
}.

(** One call of [requests.post]: the URL, the Authorization header and the
    JSON body. *)
Record request : Type := {
  req_url : str;
  req_authorization : str;
  req_json : payload
}.

(** What [response.json()] returns: [None], a [bool], an [int], a [float],
    a [str], a [list] or a [dict] with text keys (the decoder keeps the
    last value of a repeated key, and refuses an integer beyond the limit
    of [int]). *)
#[local] Unset Elimination Schemes.

Inductive json : Type :=
| JNull
| JBool (b : bool)
| JInt (n : Z)
| JFloat (x : F64.float)
| JString (s : str)
| JArray (items : list json)
| JObject (members : Dict.dict str json).

#[local] Set Elimination Schemes.

(** What [requests.post], [raise_for_status] and [response.json] give: the
    decoded JSON answer, or any exception. *)
Inductive reply : Type :=
| Replied (answer : json)
| NoReply.

(** [value == 200] for a value of a JSON answer: an [int] or a [float]
    that is 200; [True] and [False] count as 1 and 0. *)
Definition equals_200 (value : json) : bool :=
  match value with
  | JInt n => Z.eqb n 200
  | JFloat x => SFeqb x (F64.of_Z 200)
  | _ => false
  end.

(** [upload_test_results]: the request it sends and what it returns. *)
Definition upload_test_results (post : request -> reply)
  (api_url api_key branch_name commit_id : str) (test_cases : list test_case)
  (test_type : str) : request * attempt json :=
  let req :=
    {| req_url := test_runs_url api_url;
       req_authorization := lit "Bearer " ++ api_key;
       req_json := {| p_branch_name := branch_name;
                      p_commit_id := commit_id;
                      p_test_type := test_type;
                      p_status := overall_status test_cases;
                      p_test_cases := test_cases |} |} in
  (req, match post req with
        | Replied answer => Returned answer
        | NoReply => Raised UploadFailed
        end).

(** The lines of [main] that read the answer: [result.get] and [data.get]
    raise AttributeError on anything but a [dict], and [main] turns every
    exception into exit code 1. *)
Definition exit_code_of_answer (result : json) : nat :=
  match result with
  | JObject members =>
      if match Dict.get str_eqb members (lit "code") with
         | Some code => equals_200 code
         | None => false
         end
      then
        match Dict.get str_eqb members (lit "data") with
        | None => 0               (* the default [{}] *)
        | Some (JObject _) => 0
        | Some _ => 1             (* [data.get] raises *)
        end
      else 1
  | _ => 1                        (* [result.get] raises *)
  end.

Definition outcome_eqb (a b : outcome) : bool :=
  match a, b with
  | passed, passed | failed, failed | skipped, skipped => true
  | _, _ => false
  end.

(** The loop of [main] that counts the records of each status. *)
Definition status_count (test_cases : list test_case) : Dict.dict outcome nat :=
  fold_left (fun d tc =>
               Dict.set outcome_eqb d (status tc)
                 (match Dict.get outcome_eqb d (status tc) with
                  | Some n => n
                  | None => 0
                  end + 1))
            test_cases [].

(** The namespace [parse_args] returns. *)
Record args : Type := {
  log_file : str;
  api_url : str;
  branch_name : str;
  commit_id : str;
  test_type : str;
  dry_run : bool
}.

(** What [parser.parse_args()] does with the command line: it ends the run
    with exit code 2 after a usage error (an argument is missing or
    unknown), with exit code 0 after printing the help, or returns the
    namespace. *)
Inductive command_line : Type :=
| UsageError
| HelpAsked
| Parsed (a : args).

(** [main] without what it prints, on a terminal that accepts every text:
    the exit code and the requests sent, given the command line, the
    environment variable API_KEY, the log file and the server. *)
Definition main (cl : command_line) (API_KEY : option str) (file : file_state)
  (post : request -> reply) : nat * list request :=
  match cl with
  | UsageError => (2, [])
  | HelpAsked => (0, [])
  | Parsed a =>
      let missing_key :=
        if negb (dry_run a) then
          match API_KEY with
          | Some k => negb (truthy k)
          | None => true
          end
        else false in
      if missing_key then (1, [])
      else if length (commit_id a) <? 8 then (1, [])
      else
        match parse_log_file file with
        | Raised _ => (1, [])
        | Returned test_cases =>
            if negb (GenericParser.nonempty test_cases) then (1, [])
            else if dry_run a then (0, [])
            else
              let api_key := match API_KEY with Some k => k | None => [] end in
              let '(req, result) :=
                upload_test_results post (api_url a) api_key (branch_name a)
                  (commit_id a) test_cases (test_type a) in
              match result with
              | Returned answer => (exit_code_of_answer answer, [req])
              | Raised _ => (1, [req])
              end
        end
  end.

(** ** Concrete runs of the tool *)

Module Runs.

Definition upload_args : args :=
  {| log_file := lit "serial_opt.txt";
     api_url := lit "http://localhost:8080/api/v1";
     branch_name := lit "main";
     commit_id := lit "abc123def456";
     test_type := lit "gvisor";
     dry_run := false |}.

Definition dry_args : args :=
  {| log_file := lit "serial_opt.txt";
     api_url := lit "http://localhost:8080/api/v1/";
     branch_name := lit "main";
     commit_id := lit "abc123def456";
     test_type := lit "gvisor";
     dry_run := true |}.

(** A server that answers every request with code 200 and the stored run. *)
Definition accepting (r : request) : reply :=
  Replied (JObject [(lit "code", JInt 200);
                    (lit "data", JObject [(lit "id", JInt 7)])]).

(** A server that answers every request with code 200 and no data. *)
Definition answering_null (r : request) : reply :=
  Replied (JObject [(lit "code", JInt 200); (lit "data", JNull)]).

(** A server that cannot be reached. *)
Definition unreachable (r : request) : reply := NoReply.

End Runs.

(** ** The logs of test_parse_and_upload.py *)

Module Tests.

Definition simple_pass : str := lit "[ RUN      ] TestName
[       OK ] TestName (4 ms)".

Definition simple_fail : str := lit "[ RUN      ] TestName
test/syscalls/linux/test.cc:42: Failure
Value of: x
Expected: is equal to 1
  Actual: 2
[  FAILED  ] TestName (4 ms)".

Definition fail_without_failed_marker : str := lit "[ RUN      ] TestName
test/syscalls/linux/test.cc:425: Failure
Value of: futex_wake_op(IsPrivate(), &a, &b, 1, 1, (((1 & 0xf) << 28) | ((0 & 0xf) << 24) | ((1 & 0xfff) << 12) | ((kInitialValue + 1) & 0xfff)))
Expected: is equal to 2
  Actual: 1 (of type int)
[ RUN      ] NextTest".

Definition multiple_tests : str := lit "[ RUN      ] Test1
[       OK ] Test1 (4 ms)
[ RUN      ] Test2
[       OK ] Test2 (8 ms)
[ RUN      ] Test3
[  FAILED  ] Test3 (12 ms)".

Definition run_not_at_line_start : str := lit "[DEBUG] some debug info
[ RUN      ] TestName
[       OK ] TestName (4 ms)".

Definition failed_not_at_line_start : str := lit "[ RUN      ] TestName
[DEBUG] some debug info
[  FAILED  ] TestName (4 ms)".

Definition complex_test_name : str := lit "[ RUN      ] Waiters/WaitAnyChildTest.Fork/0
[       OK ] Waiters/WaitAnyChildTest.Fork/0 (4 ms)".

Definition error_log_extraction : str := lit "[ RUN      ] LseekTest.SeekDataAndSeekHole
test/syscalls/linux/lseek.cc:208: Failure
Value of: lseek(fd.get(), mid, 3)
Expected: is equal to 4
  Actual: 8 (of type long)
[  FAILED  ] LseekTest.SeekDataAndSeekHole (4 ms)".

Definition futx_example : str := lit "[ RUN      ] SharedPrivate/PrivateAndSharedFutexTest.WakeOpCondSuccess/0
test/syscalls/linux/futex.cc:425: Failure
Value of: futex_wake_op(IsPrivate(), &a, &b, 1, 1, (((1 & 0xf) << 28) | ((0 & 0xf) << 24) | ((1 & 0xfff) << 12) | ((kInitialValue + 1) & 0xfff)))
Expected: is equal to 2
  Actual: 1 (of type int)".

Definition real_world_example : str := lit "[ RUN      ] Waiters/WaitAnyChildTest.Fork/0
[       OK ] Waiters/WaitAnyChildTest.Fork/0 (4 ms)
[ RUN      ] Waiters/WaitAnyChildTest.Fork/1
[       OK ] Waiters/WaitAnyChildTest.Fork/1 (4 ms)".

(** [assertIn(part, result[i]['error_log'])] *)
Definition log_has (part : string) (t : test_case) : bool :=
  match error_log t with
  | Some e => substringb (lit part) e
  | None => false
  end.

End Tests.

(** * Vocabulary of the further properties *)

(** All characters. *)
Definition all_ascii : list ascii := map ascii_of_nat (seq 0 256).

(** Every character of the class [p] is in the class [q]. *)
Definition class_within (p q : ascii -> bool) : bool :=
  forallb (fun c => implb (p c) (q c)) all_ascii.

(** Every character a match of [r] consumes is in [q]. *)
Fixpoint consumes (q : ascii -> bool) (r : Re.regex) : bool :=
  match r with
  | Re.Class p => class_within p q
  | Re.Cat r1 r2 | Re.Or r1 r2 => consumes q r1 && consumes q r2
  | Re.Rep _ r1 | Re.Grp _ r1 => consumes q r1
  | _ => true
  end.

(** Every group number [n] of [r] consumes characters of [q] only, and
    [lo] of them or more. *)
Fixpoint group_within (q : ascii -> bool) (lo n : nat) (r : Re.regex) : bool :=
  match r with
  | Re.Grp m r1 =>
      (if Nat.eqb m n then consumes q r1 && (lo <=? min_len r1) else true)
      && group_within q lo n r1
  | Re.Cat r1 r2 | Re.Or r1 r2 =>
      group_within q lo n r1 && group_within q lo n r2
  | Re.Rep _ r1 | Re.Ahead _ r1 => group_within q lo n r1
  | _ => true
  end.

(** Every match of [r] consumes a character of [q]. *)
Fixpoint must_hit (q : ascii -> bool) (r : Re.regex) : bool :=
  match r with
  | Re.Class p => class_within p q
  | Re.Cat r1 r2 => must_hit q r1 || must_hit q r2
  | Re.Or r1 r2 => must_hit q r1 && must_hit q r2
  | Re.Grp _ r1 => must_hit q r1
  | _ => false
  end.

(** The characters at the positions [a], ..., [b-1] of [s] are in [q]. *)
Definition range_in (q : ascii -> bool) (s : str) (a b : nat) : Prop :=
  forall idx, a <= idx -> idx < b ->
              exists ch, nth_error s idx = Some ch /\ q ch = true.

(** Group [n], when set, spans [lo] or more characters, all of [q]. *)
Definition group_in (q : ascii -> bool) (lo n : nat) (s : str) (c : Re.caps)
  : Prop :=
  forall a b, Re.span c n = Some (a, b) -> a + lo <= b /\ range_in q s a b.

(** An answer after which [main] reports success: a [dict] whose [code] is
    200 and whose [data] is absent or a [dict]. *)
Definition accepted (answer : json) : Prop :=
  exists members,
    answer = JObject members
    /\ (exists code, Dict.get str_eqb members (lit "code") = Some code
                     /\ equals_200 code = true)
    /\ (Dict.get str_eqb members (lit "data") = None
        \/ exists fields,
             Dict.get str_eqb members (lit "data") = Some (JObject fields)).

(** The count [status_count] holds for a status, 0 when the key is absent. *)
Definition count_of (d : Dict.dict outcome nat) (s : outcome) : nat :=
  match Dict.get outcome_eqb d s with
  | Some n => n
  | None => 0
  end.

(** The characters that begin a marker of some dialect. *)
Definition marker_char (c : ascii) : bool :=
  match c with
  | "["%char | "="%char | "-"%char | ":"%char => true
  | _ => false
  end.

(** The first occurrences of a list of names. *)
Fixpoint first_occurrences (seen ns : list str) : list str :=
  match ns with
  | [] => []
  | n :: ns' =>
      if GoTestParser.mem n seen then first_occurrences seen ns'
      else n :: first_occurrences (n :: seen) ns'
  end.

(** * Auxiliary facts *)

Unset Implicit Arguments.

(** ** Contiguous pieces of a text *)











(** ** Loops that fill a dictionary *)

Lemma fold_left_inv (A B : Type) (P : A -> Prop) (f : A -> B -> A)
  (l : list B) :
  forall a, P a -> (forall a b, P a -> In b l -> P (f a b)) ->
            P (fold_left f l a).
Proof.
  induction l as [|b l IH]; simpl; intros a Ha Hf; [exact Ha|].
  apply IH; [apply Hf; auto | intros; apply Hf; auto].
Qed.

Section DictFacts.
Variables (K V : Type) (eqb : K -> K -> bool).
Hypothesis eqb_eq : forall a b, eqb a b = true -> a = b.

Lemma dict_get_In (d : Dict.dict K V) (k : K) (v : V) :
  Dict.get eqb d k = Some v -> In (k, v) d.
Proof.
  induction d as [|[k' v'] d IH]; simpl; [discriminate|].
  destruct (eqb k' k) eqn:E.
  - intros [= ->]. left. now rewrite (eqb_eq _ _ E).
  - intro H. right. auto.
Qed.

Lemma dict_set_In (d : Dict.dict K V) (k : K) (v : V) (kv : K * V) :
  In kv (Dict.set eqb d k v) -> kv = (k, v) \/ In kv d.
Proof.
  induction d as [|[k' v'] d IH]; simpl.
  - intros [<- | []]. now left.
  - destruct (eqb k' k) eqn:E; simpl.
    + intros [<- | H]; [left; now rewrite (eqb_eq _ _ E) | right; now right].
    + intros [<- | H]; [right; now left|].
      destruct (IH H); [now left | right; now right].
Qed.

Lemma dict_set_Forall (Q : K * V -> Prop) (d : Dict.dict K V) (k : K) (v : V) :
  Forall Q d -> Q (k, v) -> Forall Q (Dict.set eqb d k v).
Proof.
  intros Hd Hkv. apply Forall_forall. intros kv H.
  destruct (dict_set_In _ _ _ _ H) as [-> | H']; [exact Hkv|].
  now apply (proj1 (Forall_forall Q d) Hd).
Qed.

Lemma dict_get_Forall (Q : K * V -> Prop) (d : Dict.dict K V) (k : K) (v : V) :
  Forall Q d -> Dict.get eqb d k = Some v -> Q (k, v).
Proof.
  intros Hd Hg. apply (proj1 (Forall_forall Q d) Hd). now apply dict_get_In.
Qed.

End DictFacts.

Lemma str_eqb_true (a b : str) : str_eqb a b = true -> a = b.
Proof. unfold str_eqb. destruct (list_eq_dec ascii_dec a b); congruence. Qed.

Section DictLookup.
Variables (K V : Type) (eqb : K -> K -> bool).
Hypothesis eqb_spec : forall a b, eqb a b = true <-> a = b.

Lemma eqb_same (k : K) : eqb k k = true.
Proof. now apply eqb_spec. Qed.

Lemma eqb_other (k k' : K) : k <> k' -> eqb k k' = false.
Proof.
  intro H. destruct (eqb k k') eqn:E; [|reflexivity].
  apply eqb_spec in E. contradiction.
Qed.

Lemma dict_get_set_same (d : Dict.dict K V) (k : K) (v : V) :
  Dict.get eqb (Dict.set eqb d k v) k = Some v.
Proof.
  induction d as [|[k0 v0] d IH]; simpl.
  - now rewrite eqb_same.
  - destruct (eqb k0 k) eqn:E; simpl; rewrite E; [reflexivity | exact IH].
Qed.

Lemma dict_get_set_other (d : Dict.dict K V) (k k' : K) (v : V) :
  k <> k' ->
  Dict.get eqb (Dict.set eqb d k v) k' = Dict.get eqb d k'.
Proof.
  intro Hk. induction d as [|[k0 v0] d IH]; simpl.
  - now rewrite (eqb_other _ _ Hk).
  - destruct (eqb k0 k) eqn:E; simpl.
    + apply eqb_spec in E. subst k0. now rewrite (eqb_other _ _ Hk).
    + destruct (eqb k0 k'); [reflexivity | exact IH].
Qed.

End DictLookup.

Lemma str_eqb_spec (a b : str) : str_eqb a b = true <-> a = b.
Proof. unfold str_eqb. destruct (list_eq_dec ascii_dec a b); split; congruence. Qed.

Lemma outcome_eqb_spec (a b : outcome) : outcome_eqb a b = true <-> a = b.
Proof. destruct a, b; simpl; split; congruence. Qed.

Lemma some_eq (A : Type) (a b : A) : Some a = Some b -> a = b.
Proof. congruence. Qed.

Lemma ok_eq (A : Type) (a b : A) : Ok a = Ok b -> a = b.
Proof. congruence. Qed.

(** ** Shape of the results *)

(** What [GoogleTestParser.parse] returns when it returns. *)
Lemma gtest_parse_ok (content : str) (l : list test_case) :
  GoogleTestParser.parse content = Ok l ->
  exists rm,
    GoogleTestParser.result_map content = Ok rm
    /\ l = map (GoogleTestParser.case_of content
                  (GoogleTestParser.run_matches content) rm)
               (GoogleTestParser.run_matches content).
Proof.
  unfold GoogleTestParser.parse.
  destruct (GoogleTestParser.result_map content) as [rm|e]; cbn [bind];
    [|discriminate].
  intro H. apply ok_eq in H. now exists rm.
Qed.

Lemma gtest_parse_In (content : str) (l : list test_case) (t : test_case) :
  GoogleTestParser.parse content = Ok l -> In t l ->
  exists rm m,
    GoogleTestParser.result_map content = Ok rm
    /\ In m (GoogleTestParser.run_matches content)
    /\ t = GoogleTestParser.case_of content
             (GoogleTestParser.run_matches content) rm m.
Proof.
  intros Hp H. destruct (gtest_parse_ok _ _ Hp) as (rm & Hrm & ->).
  apply in_map_iff in H. destruct H as (m & <- & Hm). now exists rm, m.
Qed.

Lemma gtest_case_name (content : str) (rms : list Re.mobj)
  (rm : GoogleTestParser.result_dict) (m : Re.mobj) :
  name (GoogleTestParser.case_of content rms rm m)
  = strip (Re.group content m 1).
Proof.
  unfold GoogleTestParser.case_of.
  destruct (GoogleTestParser.find_result _ _ _) as [[q r]|]; reflexivity.
Qed.

Lemma go_build_In (content : str) (rm : GoTestParser.result_dict)
  (em : Dict.dict str str) (ms : list Re.mobj) :
  forall (pn : list str) (t : test_case),
    In t (GoTestParser.build content rm em ms pn) ->
    exists m r, In m ms
      /\ name t = strip (Re.group content m 1)
      /\ Dict.get str_eqb rm (name t) = Some r
      /\ status t = GoTestParser.r_status r
      /\ duration_ms t = GoTestParser.r_duration_ms r
      /\ error_log t = Dict.get str_eqb em (name t).
Proof.
  induction ms as [|m ms IH]; simpl; intros pn t H; [contradiction|].
  destruct (GoTestParser.mem _ pn).
  - destruct (IH _ _ H) as (m' & r & Hm & Hrest).
    exists m', r. split; [now right | exact Hrest].
  - destruct (Dict.get str_eqb rm _) as [r|] eqn:E.
    + destruct H as [<- | H].
      * exists m, r. simpl. repeat split; auto.
      * destruct (IH _ _ H) as (m' & r' & Hm & Hrest).
        exists m', r'. split; [now right | exact Hrest].
    + destruct (IH _ _ H) as (m' & r' & Hm & Hrest).
      exists m', r'. split; [now right | exact Hrest].
Qed.

Lemma go_parse_In (content : str) (l : list test_case) (t : test_case) :
  GoTestParser.parse content = Ok l -> In t l ->
  exists rm m r,
    GoTestParser.result_map content = Ok rm
    /\ In m (Re.finditer GoTestParser.test_pattern content)
    /\ name t = strip (Re.group content m 1)
    /\ Dict.get str_eqb rm (name t) = Some r
    /\ status t = GoTestParser.r_status r
    /\ duration_ms t = GoTestParser.r_duration_ms r
    /\ error_log t = Dict.get str_eqb (GoTestParser.error_map content) (name t).
Proof.
  unfold GoTestParser.parse.
  destruct (GoTestParser.result_map content) as [rm|e]; simpl; [|discriminate].
  intros [= <-] H.
  destruct (go_build_In _ _ _ _ _ _ H) as (m & r & Hrest).
  exists rm, m, r. split; [reflexivity | exact Hrest].
Qed.

Lemma pytest_cases_In (content : str) (ms : list Re.mobj) :
  forall (l : list test_case) (t : test_case),
    PytestParser.cases content ms = Ok l -> In t l ->
    exists m, In m ms /\ PytestParser.case_of content m = Ok t.
Proof.
  induction ms as [|m ms IH]; simpl; intros l t H Ht.
  - injection H as <-. contradiction.
  - destruct (PytestParser.case_of content m) as [t0|] eqn:E0; simpl in H;
      [|discriminate].
    destruct (PytestParser.cases content ms) as [ts|]; simpl in H;
      [|discriminate].
    injection H as <-. destruct Ht as [<- | Ht].
    + exists m. split; [now left | exact E0].
    + destruct (IH _ _ eq_refl Ht) as (m' & Hm' & Hc).
      exists m'. split; [now right | exact Hc].
Qed.

Lemma pytest_case_log (content : str) (m : Re.mobj) (t : test_case) (e : str) :
  PytestParser.case_of content m = Ok t -> error_log t = Some e ->
  name t = Re.group content m 1 ++ lit "::" ++ Re.group content m 2
  /\ exists em,
       Re.search (PytestParser.error_pattern (Re.group content m 1)
                                             (Re.group content m 2))
                 content (Re.m_end m) (length content) = Some em
       /\ e = firstn 2048 (strip (Re.group content em 1)).
Proof.
  unfold PytestParser.case_of.
  destruct (PytestParser.duration_of _) as [d|]; simpl; [|discriminate].
  intros [= <-]. simpl.
  destruct (PytestParser.status_map_get _); try discriminate.
  destruct (Re.search _ content _ _) as [em|]; [|discriminate].
  intro He. apply some_eq in He. split; [reflexivity | now exists em].
Qed.

Lemma generic_parse_cases (content : str) (l : list test_case) :
  GenericParser.parse content = Ok l ->
  GoogleTestParser.parse content = Ok l
  \/ GoTestParser.parse content = Ok l
  \/ PytestParser.parse content = Ok l.
Proof.
  unfold GenericParser.parse.
  destruct (GoogleTestParser.parse content) as [[|g gs]|]; cbn [bind];
    [| | discriminate].
  - cbn [GenericParser.nonempty].
    destruct (GoTestParser.parse content) as [[|a l1]|]; simpl;
      [| intros [= <-]; now (right; left) | discriminate].
    destruct (PytestParser.parse content) as [[|b l2]|]; simpl;
      [| intros [= <-]; now (right; right) | discriminate].
    intros [= <-]. now (right; right).
  - cbn [GenericParser.nonempty]. intro H. left. exact H.
Qed.

(** ** Where an excerpt comes from *)

Lemma scan_from_start (r : Re.regex) (s : str) :
  forall (fuel i : nat) (m : Re.mobj),
    Re.scan_from fuel r s i = Some m -> i <= Re.m_start m.
Proof.
  induction fuel as [|fuel IH]; simpl; intros i m;
    unfold Re.match_at;
    destruct (Re.run s r i [] _) as [[j c]|].
  - intros [= <-]. simpl. lia.
  - discriminate.
  - intros [= <-]. simpl. lia.
  - intro H. apply IH in H. lia.
Qed.

Lemma search_start (r : Re.regex) (content : str) (pos endpos : nat)
  (m : Re.mobj) :
  Re.search r content pos endpos = Some m -> pos <= Re.m_start m.
Proof.
  unfold Re.search. destruct (pos <=? _); [|discriminate].
  apply scan_from_start.
Qed.


(** Every entry of the Go [error_map] comes from one FAIL section. *)
Lemma go_error_map_entries (content : str) :
  Forall (fun kv =>
            exists m, In m (Re.finditer GoTestParser.error_pattern content)
              /\ fst kv = strip (Re.group content m 1)
              /\ snd kv = firstn 2048 (strip (Re.group content m 2)))
         (GoTestParser.error_map content).
Proof.
  unfold GoTestParser.error_map, GoTestParser.error_sections.
  apply fold_left_inv; [constructor|].
  intros d ne Hd Hne. apply in_map_iff in Hne. destruct Hne as (m & <- & Hm).
  apply dict_set_Forall; [exact str_eqb_true | exact Hd |].
  exists m. simpl. auto.
Qed.

Lemma go_case_log (content : str) (l : list test_case) (t : test_case)
  (e : str) :
  GoTestParser.parse content = Ok l -> In t l -> error_log t = Some e ->
  exists m, In m (Re.finditer GoTestParser.error_pattern content)
    /\ name t = strip (Re.group content m 1)
    /\ e = firstn 2048 (strip (Re.group content m 2)).
Proof.
  intros Hp Ht He.
  destruct (go_parse_In _ _ _ Hp Ht) as (rm & m & r & _ & _ & _ & _ & _ & _ & Hl).
  rewrite He in Hl. symmetry in Hl.
  apply (dict_get_Forall _ _ _ str_eqb_true _ _ _ _ (go_error_map_entries content)) in Hl.
  exact Hl.
Qed.

Lemma pytest_parse_log (content : str) (l : list test_case) (t : test_case)
  (e : str) :
  PytestParser.parse content = Ok l -> In t l -> error_log t = Some e ->
  exists m em,
    In m (Re.finditer PytestParser.pytest_pattern content)
    /\ name t = Re.group content m 1 ++ lit "::" ++ Re.group content m 2
    /\ Re.search (PytestParser.error_pattern (Re.group content m 1)
                                             (Re.group content m 2))
                 content (Re.m_end m) (length content) = Some em
    /\ e = firstn 2048 (strip (Re.group content em 1)).
Proof.
  unfold PytestParser.parse. intros Hp Ht He.
  destruct (pytest_cases_In _ _ _ _ Hp Ht) as (m & Hm & Hc).
  destruct (pytest_case_log _ _ _ _ Hc He) as (Hn & em & Hs & ->).
  now exists m, em.
Qed.

(** Every entry of the Go [result_map] comes from one terminal line. *)
Lemma go_fill_entries (content : str) (all : list Re.mobj)
  (Q : str * GoTestParser.result_entry -> Prop) :
  (forall m ms_,
      In m all ->
      F64.millis (Re.group content m 3) = Ok ms_ ->
      Q (strip (Re.group content m 2),
         {| GoTestParser.r_status :=
              GoTestParser.status_map_get (lower (Re.group content m 1));
            GoTestParser.r_duration_ms := ms_ |})) ->
  forall (ms : list Re.mobj) (d rm : GoTestParser.result_dict),
    incl ms all ->
    Forall Q d ->
    GoTestParser.fill_result_map content ms d = Ok rm ->
    Forall Q rm.
Proof.
  intros HQ. induction ms as [|m ms IH]; simpl; intros d rm Hin Hd H.
  - now injection H as <-.
  - destruct (F64.millis (Re.group content m 3)) as [z|] eqn:Ez; simpl in H;
      [|discriminate].
    apply IH in H; [exact H | intros x Hx; apply Hin; now right |].
    apply dict_set_Forall; [exact str_eqb_true | exact Hd |].
    apply HQ; [apply Hin; now left | exact Ez].
Qed.

Lemma go_result_map_entries (content : str) (rm : GoTestParser.result_dict) :
  GoTestParser.result_map content = Ok rm ->
  Forall (fun kv =>
            exists m, In m (Re.finditer GoTestParser.result_pattern content)
              /\ fst kv = strip (Re.group content m 2)
              /\ GoTestParser.r_status (snd kv)
                 = GoTestParser.status_map_get (lower (Re.group content m 1))
              /\ F64.millis (Re.group content m 3)
                 = Ok (GoTestParser.r_duration_ms (snd kv)))
         rm.
Proof.
  unfold GoTestParser.result_map. intro H.
  eapply go_fill_entries; [| apply incl_refl | constructor | exact H].
  intros m z Hm Hz. exists m. simpl. auto.
Qed.

(** The terminal line behind a record of the Go parser. *)
Lemma go_record_terminal (content : str) (l : list test_case) (t : test_case) :
  GoTestParser.parse content = Ok l -> In t l ->
  exists m, In m (Re.finditer GoTestParser.result_pattern content)
    /\ name t = strip (Re.group content m 2)
    /\ status t = GoTestParser.status_map_get (lower (Re.group content m 1))
    /\ F64.millis (Re.group content m 3) = Ok (duration_ms t).
Proof.
  intros Hp Ht.
  destruct (go_parse_In _ _ _ Hp Ht)
    as (rm & m0 & r & Hrm & _ & _ & Hget & Hst & Hd & _).
  apply (dict_get_Forall _ _ _ str_eqb_true _ _ _ _
           (go_result_map_entries _ _ Hrm)) in Hget.
  destruct Hget as (m & Hm & Hn & Hs & Hz). simpl in *.
  exists m. repeat split; congruence.
Qed.

(** ** The loop over the gtest start markers *)

Lemma gtest_parse_nth (content : str) (l : list test_case) (i : nat)
  (m : Re.mobj) :
  GoogleTestParser.parse content = Ok l ->
  nth_error (GoogleTestParser.run_matches content) i = Some m ->
  exists rm,
    GoogleTestParser.result_map content = Ok rm
    /\ nth_error l i
       = Some (GoogleTestParser.case_of content
                 (GoogleTestParser.run_matches content) rm m).
Proof.
  intros Hp Hm. destruct (gtest_parse_ok _ _ Hp) as (rm & Hrm & ->).
  exists rm. split; [exact Hrm | now apply map_nth_error].
Qed.

Lemma find_ext (A : Type) (f g : A -> bool) (l : list A) :
  (forall x, In x l -> f x = g x) -> find f l = find g l.
Proof.
  induction l as [|a l IH]; simpl; intro H; [reflexivity|].
  rewrite <- (H a (or_introl eq_refl)).
  destruct (f a); [reflexivity|]. apply IH. intros x Hx. apply H. now right.
Qed.

(** ** Lines of a text *)

Lemma startswith_app (p q : str) : startswith p (p ++ q) = true.
Proof.
  induction p as [|c p IH]; simpl; [reflexivity|].
  destruct (ascii_dec c c); [exact IH | congruence].
Qed.





Lemma truthy_true (s : str) : truthy s = true <-> s <> [].
Proof. destruct s; simpl; split; congruence. Qed.

(** The lines the code keeps are the remaining lines, in their order. *)
Lemma error_lines_remaining (window : str) :
  GoogleTestParser.error_lines (strip window) = remaining_lines window.
Proof. reflexivity. Qed.

Lemma remaining_lines_In (w line : str) :
  In line (remaining_lines w) <->
  exists raw, In raw (split_nl (strip w)) /\ line = strip raw /\ line <> []
    /\ startswith (lit "[DEBUG]") line = false
    /\ startswith (lit "[INFO]") line = false.
Proof.
  unfold remaining_lines.
  rewrite filter_In, in_map_iff, !andb_true_iff, !negb_true_iff, truthy_true.
  split.
  - intros ((raw & <- & Hraw) & (Hne & Hd) & Hi). now exists raw.
  - intros (raw & Hraw & -> & Hne & Hd & Hi). split; [now exists raw | auto].
Qed.


(** ** The matcher: progress and groups *)

Section RunFacts.
Variable s : str.

Lemma keeps_refl (c : Re.caps) : keeps c c.
Proof. intros n H. exact H. Qed.

Lemma keeps_trans (c1 c2 c3 : Re.caps) : keeps c1 c2 -> keeps c2 c3 -> keeps c1 c3.
Proof. intros H1 H2 n H. apply H2, H1, H. Qed.

Lemma keeps_cons (c : Re.caps) (n a b : nat) : keeps c ((n, (a, b)) :: c).
Proof. intros x H. simpl. destruct (Nat.eqb n x); [discriminate | exact H]. Qed.

Lemma rep_loop_post (body : nat -> Re.caps -> Re.cont -> option (nat * Re.caps))
  (greedy : bool) (k : Re.cont) (res : nat * Re.caps) :
  (forall i c k', body i c k' = Some res ->
                  exists j c', k' j c' = Some res /\ keeps c c') ->
  forall fuel i c,
    Re.rep_loop body greedy k fuel i c = Some res ->
    exists j c', k j c' = Some res /\ i <= j /\ keeps c c'.
Proof.
  intros Hbody. induction fuel as [|fuel IH]; simpl; intros i c H.
  - exists i, c. auto using keeps_refl.
  - assert (Hturn : body i c (fun j c' =>
                      if i <? j then Re.rep_loop body greedy k fuel j c'
                      else None) = Some res ->
                    exists j c', k j c' = Some res /\ i <= j /\ keeps c c').
    { intro Hb. apply Hbody in Hb. destruct Hb as (j1 & c1 & Hk & Hc).
      destruct (Nat.ltb_spec i j1); [|discriminate].
      apply IH in Hk. destruct Hk as (j2 & c2 & Hk2 & Hle & Hc2).
      exists j2, c2. split; [exact Hk2|]. split; [lia|].
      eapply keeps_trans; eauto. }
    destruct greedy.
    + destruct (body i c _) as [x|] eqn:Eb.
      * injection H as ->. now apply Hturn.
      * exists i, c. auto using keeps_refl.
    + destruct (k i c) as [x|] eqn:Ek.
      * injection H as ->. exists i, c. auto using keeps_refl.
      * now apply Hturn.
Qed.

(** What a successful run hands to the rest of the pattern: a later
    position, the groups it had, and the groups of [always_set]. *)
Lemma run_post_holds (r : Re.regex) :
  forall i c k res,
    Re.run s r i c k = Some res ->
    exists j c', k j c' = Some res
      /\ i + min_len r <= j
      /\ keeps c c'
      /\ forall n, In n (always_set r) -> Re.span c' n <> None.
Proof.
  induction r as [|p|r1 IH1 r2 IH2|r1 IH1 r2 IH2|g r1 IH1|n r1 IH1| | | |b r1 IH1];
    simpl; intros i c k res H.
  - exists i, c. repeat split; [exact H | lia | apply keeps_refl | intros _ []].
  - destruct (nth_error s i) as [a|]; [|discriminate].
    destruct (p a); [|discriminate].
    exists (S i), c. repeat split; [exact H | lia | apply keeps_refl | intros _ []].
  - apply IH1 in H. destruct H as (j1 & c1 & H & Hl1 & Hk1 & Hs1).
    apply IH2 in H. destruct H as (j2 & c2 & H & Hl2 & Hk2 & Hs2).
    exists j2, c2. split; [exact H|]. split; [lia|].
    split; [eapply keeps_trans; eauto|].
    intros n Hn. apply in_app_or in Hn. destruct Hn; [apply Hk2|]; auto.
  - destruct (Re.run s r1 i c k) as [x|] eqn:E1.
    + injection H as ->. apply IH1 in E1.
      destruct E1 as (j & c' & H & Hl & Hk & Hs).
      exists j, c'. split; [exact H|]. split; [lia|]. split; [exact Hk|].
      intros n Hn. apply filter_In in Hn. apply Hs, Hn.
    + apply IH2 in H. destruct H as (j & c' & H & Hl & Hk & Hs).
      exists j, c'. split; [exact H|]. split; [lia|]. split; [exact Hk|].
      intros n Hn. apply filter_In in Hn. destruct Hn as [_ Hn].
      apply existsb_exists in Hn. destruct Hn as (x & Hx & Ex).
      apply Nat.eqb_eq in Ex. subst x. now apply Hs.
  - change (Re.rep_loop (Re.run s r1) g k (S (length s - i)) i c = Some res) in H.
    apply rep_loop_post in H.
    + destruct H as (j & c' & H & Hl & Hk).
      exists j, c'. repeat split; [exact H | lia | exact Hk | intros _ []].
    + intros i' c0 k' Hb. apply IH1 in Hb.
      destruct Hb as (j & c' & Hb & _ & Hk & _). now exists j, c'.
  - apply IH1 in H. destruct H as (j & c' & H & Hl & Hk & Hs).
    exists j, ((n, (i, j)) :: c'). split; [exact H|]. split; [exact Hl|].
    split; [eapply keeps_trans; [exact Hk | apply keeps_cons]|].
    intros x [<- | Hx].
    + simpl. rewrite Nat.eqb_refl. discriminate.
    + apply keeps_cons. now apply Hs.
  - destruct (Re.at_bol s i); [|discriminate].
    exists i, c. repeat split; [exact H | lia | apply keeps_refl | intros _ []].
  - destruct (Re.at_eol s i); [|discriminate].
    exists i, c. repeat split; [exact H | lia | apply keeps_refl | intros _ []].
  - destruct (Nat.eqb i (length s)); [|discriminate].
    exists i, c. repeat split; [exact H | lia | apply keeps_refl | intros _ []].
  - destruct (Re.run s r1 i c _) as [[j1 c1]|] eqn:E1.
    + destruct b; [|discriminate]. apply IH1 in E1.
      destruct E1 as (j & c' & [= -> ->] & _ & Hk & Hs).
      exists i, c1. repeat split; [exact H | lia | exact Hk | exact Hs].
    + destruct b; [discriminate|].
      exists i, c. repeat split; [exact H | lia | apply keeps_refl | intros _ []].
Qed.

(** A run looks at the rest of the pattern only at positions of the
    subject. *)
Lemma rep_loop_ext (body : nat -> Re.caps -> Re.cont -> option (nat * Re.caps))
  (greedy : bool) :
  (forall i c k k',
      i <= length s ->
      (forall j c', i <= j -> j <= length s -> k j c' = k' j c') ->
      body i c k = body i c k') ->
  forall fuel i c k k',
    i <= length s ->
    (forall j c', i <= j -> j <= length s -> k j c' = k' j c') ->
    Re.rep_loop body greedy k fuel i c = Re.rep_loop body greedy k' fuel i c.
Proof.
  intros Hbody. induction fuel as [|fuel IH]; simpl; intros i c k k' Hi Hk.
  - apply Hk; lia.
  - rewrite (Hk i c (le_n i) Hi).
    rewrite (Hbody i c
               (fun j c' => if i <? j then Re.rep_loop body greedy k fuel j c'
                            else None)
               (fun j c' => if i <? j then Re.rep_loop body greedy k' fuel j c'
                            else None) Hi).
    + reflexivity.
    + intros j c' Hij Hj. destruct (i <? j); [|reflexivity].
      apply IH; [exact Hj|]. intros j' c'' Hjj Hj'. apply Hk; lia.
Qed.

Lemma run_ext (r : Re.regex) :
  forall i c k k',
    i <= length s ->
    (forall j c', i <= j -> j <= length s -> k j c' = k' j c') ->
    Re.run s r i c k = Re.run s r i c k'.
Proof.
  induction r as [|p|r1 IH1 r2 IH2|r1 IH1 r2 IH2|g r1 IH1|n r1 IH1| | | |b r1 IH1];
    intros i c k k' Hi Hk.
  - simpl. apply Hk; lia.
  - simpl. destruct (nth_error s i) as [a|] eqn:E; [|reflexivity].
    destruct (p a); [|reflexivity].
    apply Hk; [lia|]. apply Nat.le_succ_l, nth_error_Some. congruence.
  - simpl. apply IH1; [exact Hi|]. intros j c' Hij Hj.
    apply IH2; [exact Hj|]. intros j' c'' Hjj Hj'. apply Hk; lia.
  - simpl. rewrite (IH1 i c k k' Hi Hk), (IH2 i c k k' Hi Hk). reflexivity.
  - change (Re.rep_loop (Re.run s r1) g k (S (length s - i)) i c
            = Re.rep_loop (Re.run s r1) g k' (S (length s - i)) i c).
    apply rep_loop_ext; [exact IH1 | exact Hi | exact Hk].
  - simpl. apply IH1; [exact Hi|]. intros j c' Hij Hj. apply Hk; lia.
  - simpl. destruct (Re.at_bol s i); [apply Hk; lia | reflexivity].
  - simpl. destruct (Re.at_eol s i); [apply Hk; lia | reflexivity].
  - simpl. destruct (Nat.eqb i (length s)); [apply Hk; lia | reflexivity].
  - simpl. destruct (Re.run s r1 i c _) as [[j1 c1]|];
      destruct b; try reflexivity; apply Hk; lia.
Qed.

(** A match never ends beyond the subject. *)
Lemma run_end_bound (r : Re.regex) (i : nat) (c : Re.caps) (k : Re.cont)
  (res : nat * Re.caps) :
  i <= length s -> Re.run s r i c k = Some res ->
  exists j c', k j c' = Some res /\ j <= length s.
Proof.
  intros Hi H.
  rewrite (run_ext r i c k
             (fun j c' => if j <=? length s then k j c' else None) Hi) in H.
  - apply run_post_holds in H. destruct H as (j & c' & H & _).
    destruct (Nat.leb_spec j (length s)); [|discriminate]. now exists j, c'.
  - intros j c' _ Hj. apply Nat.leb_le in Hj. now rewrite Hj.
Qed.

(** The fuel of a repetition is enough: more of it changes nothing. *)
Lemma rep_loop_fuel (r : Re.regex) (greedy : bool) (k : Re.cont) :
  forall n i c f1 f2,
    n = length s - i -> i <= length s -> n < f1 -> n < f2 ->
    Re.rep_loop (Re.run s r) greedy k f1 i c
    = Re.rep_loop (Re.run s r) greedy k f2 i c.
Proof.
  induction n as [n IH] using lt_wf_ind. intros i c f1 f2 Hn Hi H1 H2.
  destruct f1 as [|f1]; [lia|]. destruct f2 as [|f2]; [lia|]. simpl.
  rewrite (run_ext r i c
             (fun j c' => if i <? j
                          then Re.rep_loop (Re.run s r) greedy k f1 j c'
                          else None)
             (fun j c' => if i <? j
                          then Re.rep_loop (Re.run s r) greedy k f2 j c'
                          else None) Hi).
  - reflexivity.
  - intros j c' Hij Hj. destruct (Nat.ltb_spec i j); [|reflexivity].
    apply (IH (length s - j)); lia.
Qed.

Lemma rep_fuel_enough (r : Re.regex) (greedy : bool) (i : nat) (c : Re.caps)
  (k : Re.cont) (extra : nat) :
  i <= length s ->
  Re.rep_loop (Re.run s r) greedy k (S (length s - i) + extra) i c
  = Re.run s (Re.Rep greedy r) i c k.
Proof.
  intro Hi.
  change (Re.run s (Re.Rep greedy r) i c k)
    with (Re.rep_loop (Re.run s r) greedy k (S (length s - i)) i c).
  apply (rep_loop_fuel r greedy k (length s - i)); lia.
Qed.

Lemma match_at_end (r : Re.regex) (i : nat) (m : Re.mobj) :
  i <= length s -> Re.match_at r s i = Some m -> Re.m_end m <= length s.
Proof.
  unfold Re.match_at. intros Hi.
  destruct (Re.run s r i [] _) as [[j c]|] eqn:E; [|discriminate].
  intros [= <-]. simpl. apply run_end_bound in E; [|exact Hi].
  destruct E as (j' & c' & [= -> ->] & Hj). exact Hj.
Qed.

Lemma scan_from_end (r : Re.regex) :
  forall fuel i m,
    i + fuel <= length s -> Re.scan_from fuel r s i = Some m ->
    Re.m_end m <= length s.
Proof.
  induction fuel as [|fuel IH]; simpl; intros i m Hi;
    destruct (Re.match_at r s i) as [m0|] eqn:E.
  - intros [= <-]. apply (match_at_end r i); [lia | exact E].
  - discriminate.
  - intros [= <-]. apply (match_at_end r i); [lia | exact E].
  - apply IH. lia.
Qed.

Lemma match_at_facts (r : Re.regex) (i : nat) (m : Re.mobj) :
  Re.match_at r s i = Some m ->
  Re.m_start m = i
  /\ Re.m_start m + min_len r <= Re.m_end m
  /\ forall n, In n (always_set r) -> Re.span (Re.m_caps m) n <> None.
Proof.
  unfold Re.match_at.
  destruct (Re.run s r i [] _) as [[j c]|] eqn:E; [|discriminate].
  intros [= <-]. simpl. apply run_post_holds in E.
  destruct E as (j' & c' & [= -> ->] & Hl & _ & Hs). auto.
Qed.

Lemma scan_from_facts (r : Re.regex) :
  forall fuel i m,
    Re.scan_from fuel r s i = Some m ->
    Re.m_start m + min_len r <= Re.m_end m
    /\ forall n, In n (always_set r) -> Re.span (Re.m_caps m) n <> None.
Proof.
  induction fuel as [|fuel IH]; simpl; intros i m;
    destruct (Re.match_at r s i) as [m0|] eqn:E.
  - intros [= <-]. now apply match_at_facts in E.
  - discriminate.
  - intros [= <-]. now apply match_at_facts in E.
  - apply IH.
Qed.

End RunFacts.

Lemma search_facts (r : Re.regex) (content : str) (pos endpos : nat)
  (m : Re.mobj) :
  Re.search r content pos endpos = Some m ->
  Re.m_start m + min_len r <= Re.m_end m
  /\ forall n, In n (always_set r) -> Re.span (Re.m_caps m) n <> None.
Proof.
  unfold Re.search. destruct (pos <=? _); [|discriminate].
  apply scan_from_facts.
Qed.

Lemma finditer_from_facts (r : Re.regex) (content : str) :
  forall fuel pos m,
    In m (Re.finditer_from fuel r content pos) ->
    Re.m_start m + min_len r <= Re.m_end m
    /\ forall n, In n (always_set r) -> Re.span (Re.m_caps m) n <> None.
Proof.
  induction fuel as [|fuel IH]; simpl; intros pos m H; [contradiction|].
  destruct (Re.search r content pos (length content)) as [m0|] eqn:E;
    [|contradiction].
  destruct H as [<- | H]; [now apply search_facts in E | now apply IH in H].
Qed.

Lemma search_end (r : Re.regex) (content : str) (pos endpos : nat)
  (m : Re.mobj) :
  Re.search r content pos endpos = Some m -> Re.m_end m <= length content.
Proof.
  unfold Re.search. destruct (Nat.leb_spec pos (length (firstn endpos content)));
    [|discriminate].
  intro Hs. apply scan_from_end in Hs; [|lia].
  rewrite length_firstn in Hs. lia.
Qed.

(** The fuel of [finditer] is enough for a pattern that consumes text. *)
Lemma finditer_from_fuel (r : Re.regex) (content : str) :
  1 <= min_len r ->
  forall n pos f1 f2,
    n = length content - pos -> n < f1 -> n < f2 ->
    Re.finditer_from f1 r content pos = Re.finditer_from f2 r content pos.
Proof.
  intro Hr. induction n as [n IH] using lt_wf_ind. intros pos f1 f2 Hn H1 H2.
  destruct f1 as [|f1]; [lia|]. destruct f2 as [|f2]; [lia|]. simpl.
  destruct (Re.search r content pos (length content)) as [m|] eqn:E;
    [|reflexivity].
  f_equal.
  pose proof (search_start _ _ _ _ _ E) as Hs.
  pose proof (search_end _ _ _ _ _ E) as He.
  destruct (search_facts _ _ _ _ _ E) as [Hl _].
  destruct (Nat.ltb_spec (Re.m_start m) (Re.m_end m)); [|lia].
  apply (IH (length content - Re.m_end m)); lia.
Qed.

Lemma finditer_fuel_enough (r : Re.regex) (content : str) (extra : nat) :
  1 <= min_len r ->
  Re.finditer_from (S (length content) + extra) r content 0
  = Re.finditer r content.
Proof.
  intro Hr. unfold Re.finditer.
  apply (finditer_from_fuel r content Hr (length content - 0)); lia.
Qed.

(** A group outside every alternative and repetition is set in every match,
    so that [Re.group] is the text of [match.group(n)] and never a default. *)
Lemma group_defined (r : Re.regex) (content : str) (m : Re.mobj) (n : nat) :
  In m (Re.finditer r content) \/
  (exists pos endpos, Re.search r content pos endpos = Some m) ->
  In n (always_set r) ->
  Re.group_opt content m n = Some (Re.group content m n).
Proof.
  intros Hm Hn.
  assert (H : Re.span (Re.m_caps m) n <> None).
  { destruct Hm as [Hm | (pos & endpos & Hm)].
    - now apply (finditer_from_facts _ _ _ _ _ Hm).
    - now apply (search_facts _ _ _ _ _ Hm). }
  unfold Re.group, Re.group_opt.
  destruct (Re.span (Re.m_caps m) n) as [[a b]|]; [reflexivity | congruence].
Qed.

(** A pattern that consumes text never yields an empty match, so that
    [Re.finditer] always resumes at the end of the last match. *)
Lemma finditer_nonempty (r : Re.regex) (content : str) (m : Re.mobj) :
  1 <= min_len r -> In m (Re.finditer r content) ->
  Re.m_start m < Re.m_end m.
Proof.
  intros Hr Hm. apply finditer_from_facts in Hm. lia.
Qed.

(** The groups the parsers read, and the least length of a match, for the
    patterns given to [finditer]. *)
Lemma patterns_groups_and_length :
  (always_set GoTestParser.test_pattern = [1]
   /\ 1 <= min_len GoTestParser.test_pattern)
  /\ (always_set GoTestParser.result_pattern = [1; 2; 3]
      /\ 1 <= min_len GoTestParser.result_pattern)
  /\ (always_set GoTestParser.error_pattern = [1; 2]
      /\ 1 <= min_len GoTestParser.error_pattern)
  /\ (always_set PytestParser.pytest_pattern = [1; 2; 3]
      /\ 1 <= min_len PytestParser.pytest_pattern)
  /\ (always_set GoogleTestParser.run_pattern = [1]
      /\ 1 <= min_len GoogleTestParser.run_pattern)
  /\ (always_set GoogleTestParser.ok_pattern = [1; 2]
      /\ 1 <= min_len GoogleTestParser.ok_pattern)
  /\ (always_set GoogleTestParser.failed_pattern = [1; 2]
      /\ 1 <= min_len GoogleTestParser.failed_pattern).
Proof. vm_compute. repeat split; repeat constructor. Qed.

Lemma always_set_Lit (t : str) : always_set (Re.Lit t) = [].
Proof. induction t as [|c t IH]; simpl; [reflexivity | exact IH]. Qed.

Lemma pytest_error_pattern_group (file_name test_name : str) :
  In 1 (always_set (PytestParser.error_pattern file_name test_name)).
Proof.
  unfold PytestParser.error_pattern. simpl.
  rewrite !always_set_Lit. simpl. now left.
Qed.

(** ** The order of the matches of [finditer] *)

Lemma finditer_from_start (r : Re.regex) (content : str) :
  forall fuel pos m,
    In m (Re.finditer_from fuel r content pos) -> pos <= Re.m_start m.
Proof.
  induction fuel as [|fuel IH]; simpl; intros pos m H; [contradiction|].
  destruct (Re.search r content pos (length content)) as [m0|] eqn:E;
    [|contradiction].
  pose proof (search_start _ _ _ _ _ E) as Hs.
  destruct H as [<- | H]; [exact Hs|].
  apply IH in H. destruct (search_facts _ _ _ _ _ E) as [Hl _].
  destruct (Re.m_start m0 <? Re.m_end m0); lia.
Qed.

Lemma finditer_from_end (r : Re.regex) (content : str) :
  forall fuel pos m,
    In m (Re.finditer_from fuel r content pos) ->
    Re.m_end m <= length content.
Proof.
  induction fuel as [|fuel IH]; simpl; intros pos m H; [contradiction|].
  destruct (Re.search r content pos (length content)) as [m0|] eqn:E;
    [|contradiction].
  destruct H as [<- | H]; [now apply search_end in E | now apply IH in H].
Qed.

Lemma fold_min_lower (a n : nat) (l : list nat) :
  a <= n -> (forall x, In x l -> a <= x) -> a <= fold_right Nat.min n l.
Proof.
  intros Hn. induction l as [|x l IH]; simpl; intro Hl; [exact Hn|].
  apply Nat.min_glb; [apply Hl; now left | apply IH; intros; apply Hl; now right].
Qed.

(** The first match that begins after [p], in the order of [finditer], is the
    one that begins at the least position after [p]. *)
Lemma first_after_is_least (r : Re.regex) (content : str) (p : nat) :
  forall fuel pos,
    match find (fun m => p <? Re.m_start m)
               (Re.finditer_from fuel r content pos) with
    | Some m => Re.m_start m
    | None => length content
    end
    = fold_right Nat.min (length content)
        (filter (fun q => p <? q)
                (map Re.m_start (Re.finditer_from fuel r content pos))).
Proof.
  induction fuel as [|fuel IH]; intro pos; [reflexivity|].
  cbn [Re.finditer_from].
  destruct (Re.search r content pos (length content)) as [m|] eqn:E;
    [|reflexivity].
  cbn [find map filter].
  destruct (p <? Re.m_start m) eqn:Ep; [|apply IH].
  cbn [fold_right]. symmetry. apply Nat.min_l.
  destruct (search_facts _ _ _ _ _ E) as [Hl _].
  pose proof (search_end _ _ _ _ _ E) as He.
  apply fold_min_lower; [lia|].
  intros x Hx. apply filter_In in Hx. destruct Hx as [Hx _].
  apply in_map_iff in Hx. destruct Hx as (m' & <- & Hm').
  apply finditer_from_start in Hm'.
  destruct (Re.m_start m <? Re.m_end m); lia.
Qed.

(** The loop of the gtest parser that looks for the next start marker finds
    the least position after [pos] at which a start marker begins. *)
Lemma next_run_start_least (content : str) (pos : nat) :
  GoogleTestParser.next_run_start content
    (GoogleTestParser.run_matches content) pos
  = next_start content pos.
Proof.
  unfold GoogleTestParser.next_run_start, next_start,
    GoogleTestParser.run_matches, Re.finditer.
  apply first_after_is_least.
Qed.

Lemma fold_min_least (n : nat) (l : list nat) :
  l <> [] -> (forall x, In x l -> x <= n) ->
  In (fold_right Nat.min n l) l
  /\ forall x, In x l -> fold_right Nat.min n l <= x.
Proof.
  induction l as [|a l IH]; [congruence|]. intros _ Hb. cbn [fold_right].
  destruct l as [|b l].
  - cbn [fold_right]. rewrite Nat.min_l by (apply Hb; now left).
    split; [now left | intros x [<- | []]; lia].
  - destruct IH as [Hin Hle]; [discriminate | intros x Hx; apply Hb; now right |].
    destruct (Nat.le_ge_cases a (fold_right Nat.min n (b :: l))) as [H | H].
    + rewrite Nat.min_l by exact H. split; [now left|].
      intros x [<- | Hx]; [lia|]. specialize (Hle x Hx). lia.
    + rewrite Nat.min_r by exact H. split; [now right|].
      intros x [<- | Hx]; [lia | now apply Hle].
Qed.

(** [next_start] is the beginning of a start marker after [pos], the
    nearest one, or the end of the text when no start marker begins after
    [pos]. *)
Lemma next_start_nearest (content : str) (pos : nat) :
  (exists m,
      In m (GoogleTestParser.run_matches content)
      /\ Re.m_start m = next_start content pos
      /\ pos < Re.m_start m
      /\ forall m', In m' (GoogleTestParser.run_matches content) ->
                    pos < Re.m_start m' -> Re.m_start m <= Re.m_start m')
  \/ (next_start content pos = length content
      /\ forall m', In m' (GoogleTestParser.run_matches content) ->
                    Re.m_start m' <= pos).
Proof.
  unfold next_start.
  destruct (filter (fun p => pos <? p)
              (map Re.m_start (GoogleTestParser.run_matches content)))
    as [|a l] eqn:El.
  - right. split; [reflexivity|]. intros m' Hm'.
    destruct (Nat.ltb_spec pos (Re.m_start m')) as [Hlt|]; [|lia].
    assert (Hin : In (Re.m_start m')
                     (filter (fun p => pos <? p)
                        (map Re.m_start (GoogleTestParser.run_matches content)))).
    { apply filter_In. split; [now apply in_map | now apply Nat.ltb_lt]. }
    rewrite El in Hin. contradiction.
  - left. rewrite <- El.
    destruct (fold_min_least (length content)
                (filter (fun p => pos <? p)
                   (map Re.m_start (GoogleTestParser.run_matches content))))
      as [Hin Hle].
    + rewrite El. discriminate.
    + intros x Hx. apply filter_In in Hx. destruct Hx as [Hx _].
      apply in_map_iff in Hx. destruct Hx as (m & <- & Hm).
      unfold GoogleTestParser.run_matches, Re.finditer in Hm.
      pose proof (finditer_from_end _ _ _ _ _ Hm) as He.
      destruct (finditer_from_facts _ _ _ _ _ Hm) as [Hl _]. lia.
    + apply filter_In in Hin. destruct Hin as [Hin Hlt].
      apply in_map_iff in Hin. destruct Hin as (m & Hs & Hm).
      exists m. split; [exact Hm|]. split; [exact Hs|].
      split; [rewrite Hs; now apply Nat.ltb_lt|].
      intros m' Hm' Hlt'. rewrite Hs. apply Hle.
      apply filter_In. split; [now apply in_map | now apply Nat.ltb_lt].
Qed.

(** ** The result map of the gtest parser *)

Lemma int_of_str_ok (s : str) (z : Z) :
  int_of_str s = Ok z <-> z = int_of_digits s /\ length s <= int_max_str_digits.
Proof.
  unfold int_of_str.
  destruct (Nat.ltb_spec int_max_str_digits (length s)).
  - split; [discriminate | intros [_ H']; lia].
  - split; [intro Hz; apply ok_eq in Hz; split; [congruence | exact H]
           | intros [-> _]; reflexivity].
Qed.

Lemma gtest_add_entries (content : str) (st : outcome) (all : list Re.mobj)
  (Q : nat * GoogleTestParser.result_entry -> Prop) :
  (forall m,
      In m all ->
      length (Re.group content m 2) <= int_max_str_digits ->
      Q (Re.m_start m,
         {| GoogleTestParser.r_name := strip (Re.group content m 1);
            GoogleTestParser.r_status := st;
            GoogleTestParser.r_duration_ms
              := int_of_digits (Re.group content m 2);
            GoogleTestParser.r_end_pos := Re.m_end m |})) ->
  forall (ms : list Re.mobj) (d rm : GoogleTestParser.result_dict),
    incl ms all ->
    Forall Q d ->
    GoogleTestParser.add_results content st ms d = Ok rm ->
    Forall Q rm.
Proof.
  intros HQ. induction ms as [|m ms IH]; cbn [GoogleTestParser.add_results];
    intros d rm Hin Hd H.
  - apply ok_eq in H. now subst rm.
  - unfold GoogleTestParser.entry_of in H.
    destruct (int_of_str (Re.group content m 2)) as [z|] eqn:Ez;
      cbn [bind] in H; [|discriminate].
    apply int_of_str_ok in Ez. destruct Ez as [-> Hlen].
    apply IH in H; [exact H | intros x Hx; apply Hin; now right |].
    apply dict_set_Forall;
      [exact (fun a b => proj1 (Nat.eqb_eq a b)) | exact Hd |].
    apply HQ; [apply Hin; now left | exact Hlen].
Qed.

(** Every entry of the gtest [result_map] comes from one OK or FAILED
    marker and sits under the position of that marker. *)
Lemma gtest_result_map_entries (content : str)
  (rm : GoogleTestParser.result_dict) :
  GoogleTestParser.result_map content = Ok rm ->
  Forall (fun kv =>
            exists mk,
              ((In mk (Re.finditer GoogleTestParser.ok_pattern content)
                /\ GoogleTestParser.r_status (snd kv) = passed)
               \/ (In mk (Re.finditer GoogleTestParser.failed_pattern content)
                   /\ GoogleTestParser.r_status (snd kv) = failed))
              /\ fst kv = Re.m_start mk
              /\ GoogleTestParser.r_name (snd kv) = strip (Re.group content mk 1)
              /\ GoogleTestParser.r_duration_ms (snd kv)
                 = int_of_digits (Re.group content mk 2))
         rm.
Proof.
  unfold GoogleTestParser.result_map.
  destruct (GoogleTestParser.add_results content passed _ [])
    as [d|] eqn:Eok; cbn [bind]; [|discriminate].
  intro Hf.
  eapply gtest_add_entries; [| apply incl_refl | | exact Hf].
  - intros mk Hmk _. exists mk. cbn [fst snd GoogleTestParser.r_status
      GoogleTestParser.r_name GoogleTestParser.r_duration_ms].
    split; [right; auto | auto].
  - eapply gtest_add_entries; [| apply incl_refl | constructor | exact Eok].
    intros mk Hmk _. exists mk. cbn [fst snd GoogleTestParser.r_status
      GoogleTestParser.r_name GoogleTestParser.r_duration_ms].
    split; [left; auto | auto].
Qed.



(** A start marker after which no OK or FAILED marker of its name begins
    finds nothing in the result map. *)
Lemma find_result_none (content : str) (rm : GoogleTestParser.result_dict)
  (m : Re.mobj) :
  GoogleTestParser.result_map content = Ok rm ->
  completed_after content m = false ->
  GoogleTestParser.find_result rm (Re.m_start m) (strip (Re.group content m 1))
  = None.
Proof.
  intros Hrm Hc.
  destruct (GoogleTestParser.find_result _ _ _) as [[pos res]|] eqn:E;
    [|reflexivity].
  exfalso. unfold GoogleTestParser.find_result in E. apply find_some in E.
  destruct E as [Hin Hp]. cbn [fst snd] in Hp. apply andb_true_iff in Hp.
  destruct Hp as [Hlt Hn].
  pose proof (proj1 (Forall_forall _ _) (gtest_result_map_entries _ _ Hrm)
                _ Hin) as (mk & Hk & Hpos & Hname & _).
  cbn [fst snd] in Hpos, Hname.
  assert (Hmk : In mk (completions content)).
  { unfold completions. apply in_or_app.
    destruct Hk as [[Hk _] | [Hk _]]; [now left | now right]. }
  unfold completed_after in Hc.
  assert (Hex : existsb (fun k => (Re.m_start m <? Re.m_start k)
                                  && str_eqb (strip (Re.group content k 1))
                                             (strip (Re.group content m 1)))
                        (completions content) = true).
  { apply existsb_exists. exists mk. split; [exact Hmk|].
    rewrite <- Hpos, <- Hname. now rewrite Hlt, Hn. }
  congruence.
Qed.

(** ** The window of a gtest start marker *)

(** What the gtest parser stores as [error_log] for the start marker [m]. *)
Lemma gtest_case_log (content : str) (rm : GoogleTestParser.result_dict)
  (m : Re.mobj) (e : str) :
  GoogleTestParser.result_map content = Ok rm ->
  error_log (GoogleTestParser.case_of content
               (GoogleTestParser.run_matches content) rm m) = Some e ->
  (exists k a b,
      In k (Re.finditer GoogleTestParser.failed_pattern content)
      /\ strip (Re.group content k 1) = strip (Re.group content m 1)
      /\ Re.m_start m < Re.m_start k
      /\ Re.m_end m <= a /\ b <= Re.m_start k
      /\ e = firstn 2048 (strip (slice content a b)))
  \/ (exists a,
         Re.m_end m <= a
         /\ e = firstn 2048
                  (strip (slice content a (next_start content (Re.m_start m)))))
  \/ (Re.search GoogleTestParser.test_error_pattern content (Re.m_end m)
        (next_start content (Re.m_start m)) = None
      /\ kept_lines content m <> []
      /\ e = firstn 2048 (join_nl (firstn 20 (kept_lines content m)))).
Proof.
  intro Hrm. unfold GoogleTestParser.case_of.
  destruct (GoogleTestParser.find_result _ _ _) as [[q r]|] eqn:Ef;
    cbn [error_log].
  - unfold GoogleTestParser.find_result in Ef. apply find_some in Ef.
    destruct Ef as [Hin Hp]. cbn [fst snd] in Hp. apply andb_true_iff in Hp.
    destruct Hp as [Hlt Hn]. apply Nat.ltb_lt in Hlt. apply str_eqb_true in Hn.
    pose proof (proj1 (Forall_forall _ _) (gtest_result_map_entries _ _ Hrm)
                  _ Hin) as (k & Hk & Hpos & Hname & _).
    cbn [fst snd] in Hpos, Hname, Hk.
    destruct (GoogleTestParser.r_status r) eqn:Es; try discriminate.
    destruct Hk as [[_ Hk] | [Hk _]]; [discriminate Hk|].
    assert (Hwin : forall a b,
               Re.m_end m <= a -> b <= q ->
               e = firstn 2048 (strip (slice content a b)) ->
               exists k a b,
                 In k (Re.finditer GoogleTestParser.failed_pattern content)
                 /\ strip (Re.group content k 1) = strip (Re.group content m 1)
                 /\ Re.m_start m < Re.m_start k
                 /\ Re.m_end m <= a /\ b <= Re.m_start k
                 /\ e = firstn 2048 (strip (slice content a b))).
    { intros a b Ha Hb He. exists k, a, b.
      split; [exact Hk|]. split; [congruence|]. split; [lia|].
      split; [exact Ha|]. split; [lia | exact He]. }
    unfold GoogleTestParser.failed_error_log.
    destruct (Re.search _ content _ _) as [tm|] eqn:Es'.
    + destruct (Z.ltb _ _).
      * destruct (truthy _); [|discriminate]. intro He. apply some_eq in He.
        left. apply (Hwin (Re.m_end m) q); [lia | lia | now symmetry].
      * destruct (truthy _); [|discriminate]. intro He. apply some_eq in He.
        left. apply search_start in Es'.
        apply (Hwin (Re.m_start tm) (Nat.min (Re.m_end tm) q));
          [exact Es' | lia | now symmetry].
    + destruct (truthy _); [|discriminate]. intro He. apply some_eq in He.
      left. apply (Hwin (Re.m_end m) q); [lia | lia | now symmetry].
  - unfold GoogleTestParser.missing_error_log.
    rewrite next_run_start_least.
    destruct (Re.search _ content _ _) as [tm|] eqn:Es.
    + destruct (truthy _); [|discriminate]. intro He. apply some_eq in He.
      right. left. exists (Re.m_start tm).
      apply search_start in Es. split; [exact Es | now symmetry].
    + rewrite error_lines_remaining.
      fold (open_window content m). fold (kept_lines content m).
      destruct (kept_lines content m) as [|l0 ls] eqn:El; [discriminate|].
      intro He. apply some_eq in He.
      right. right. split; [reflexivity|]. split; [discriminate | now symmetry].
Qed.

Lemma gtest_log_bounded (content : str) (l : list test_case) (t : test_case)
  (e : str) :
  GoogleTestParser.parse content = Ok l -> In t l -> error_log t = Some e ->
  length e <= 2048.
Proof.
  intros Hp Ht He.
  destruct (gtest_parse_In _ _ _ Hp Ht) as (rm & m & Hrm & _ & ->).
  apply (gtest_case_log _ _ _ _ Hrm) in He.
  destruct He as [(k & a & b & _ & _ & _ & _ & _ & ->)
                 | [(a & _ & ->) | (_ & _ & ->)]];
    apply firstn_le_length.
Qed.

(** ** Names and terminal lines of the Go parser *)

Lemma mem_cons (x n : str) (seen : list str) :
  GoTestParser.mem x (n :: seen) = str_eqb x n || GoTestParser.mem x seen.
Proof. reflexivity. Qed.

Lemma first_occurrences_spec (ns : list str) :
  forall seen,
    NoDup (first_occurrences seen ns)
    /\ forall n, In n (first_occurrences seen ns) ->
                 GoTestParser.mem n seen = false /\ In n ns.
Proof.
  induction ns as [|n ns IH]; intro seen; simpl.
  - split; [constructor | intros n []].
  - destruct (GoTestParser.mem n seen) eqn:E.
    + destruct (IH seen) as [Hnd Hin]. split; [exact Hnd|].
      intros x Hx. destruct (Hin x Hx). auto.
    + destruct (IH (n :: seen)) as [Hnd Hin]. split.
      * constructor; [|exact Hnd]. intro Hn. destruct (Hin n Hn) as [Hm _].
        rewrite mem_cons in Hm.
        assert (str_eqb n n = true) by (now apply str_eqb_spec).
        rewrite H in Hm. discriminate.
      * intros x [<- | Hx]; [auto|].
        destruct (Hin x Hx) as [Hm Hx']. rewrite mem_cons in Hm.
        apply orb_false_iff in Hm. destruct Hm. auto.
Qed.

Lemma go_build_names (content : str) (rm : GoTestParser.result_dict)
  (em : Dict.dict str str) (ms : list Re.mobj) :
  forall pn,
    map name (GoTestParser.build content rm em ms pn)
    = filter (fun n => match Dict.get str_eqb rm n with
                       | Some _ => true
                       | None => false
                       end)
             (first_occurrences pn
                (map (fun m => strip (Re.group content m 1)) ms)).
Proof.
  induction ms as [|m ms IH]; intro pn; simpl; [reflexivity|].
  destruct (GoTestParser.mem _ pn); [apply IH|].
  simpl. destruct (Dict.get str_eqb rm _) as [r|]; simpl.
  - f_equal. apply IH.
  - apply IH.
Qed.

Lemma go_fill_last (content : str) :
  forall ms d rm,
    GoTestParser.fill_result_map content ms d = Ok rm ->
    forall n r,
      Dict.get str_eqb rm n = Some r ->
      (exists pre m post,
          ms = pre ++ m :: post
          /\ strip (Re.group content m 2) = n
          /\ (forall m', In m' post -> strip (Re.group content m' 2) <> n)
          /\ GoTestParser.r_status r
             = GoTestParser.status_map_get (lower (Re.group content m 1))
          /\ F64.millis (Re.group content m 3)
             = Ok (GoTestParser.r_duration_ms r))
      \/ (Dict.get str_eqb d n = Some r
          /\ forall m', In m' ms -> strip (Re.group content m' 2) <> n).
Proof.
  induction ms as [|m ms IH]; simpl; intros d rm H n r Hg.
  - injection H as <-. right. split; [exact Hg | intros m' []].
  - destruct (F64.millis (Re.group content m 3)) as [z|] eqn:Ez; simpl in H;
      [|discriminate].
    destruct (IH _ _ H n r Hg)
      as [(pre & m0 & post & -> & Hrest) | (Hd & Hnone)].
    + left. exists (m :: pre), m0, post. split; [reflexivity | exact Hrest].
    + destruct (list_eq_dec ascii_dec (strip (Re.group content m 2)) n)
        as [Hn | Hn].
      * left. exists [], m, ms. split; [reflexivity|].
        split; [exact Hn|]. split; [exact Hnone|].
        rewrite <- Hn in Hd.
        rewrite (dict_get_set_same _ _ _ str_eqb_spec) in Hd.
        injection Hd as <-. simpl. auto.
      * right.
        rewrite (dict_get_set_other _ _ _ str_eqb_spec _ _ _ _ Hn) in Hd.
        split; [exact Hd|]. intros m' [<- | Hm']; auto.
Qed.





(** ** Seconds to milliseconds on binary64 *)

(** [int] of a finite binary64 number cuts its value toward zero. *)
Lemma to_int_truncates (sign : bool) (mantissa : positive) (e : Z) :
  F64.to_int (S754_finite sign mantissa e)
  = Ok ((if sign then -1 else 1)
        * (if 0 <=? e then Z.pos mantissa * 2 ^ e
           else Z.pos mantissa / 2 ^ (- e)))%Z.
Proof.
  unfold F64.to_int. f_equal.
  assert (Ha : match e with
               | Z.neg p => Z.shiftr (Z.pos mantissa) (Z.pos p)
               | _ => Z.shiftl (Z.pos mantissa) e
               end
               = (if 0 <=? e then Z.pos mantissa * 2 ^ e
                  else Z.pos mantissa / 2 ^ (- e))%Z).
  { destruct e as [|p|p].
    - cbn [Z.leb Z.compare]. rewrite Z.shiftl_mul_pow2 by lia. reflexivity.
    - replace (0 <=? Z.pos p)%Z with true by (symmetry; apply Z.leb_le; lia).
      apply Z.shiftl_mul_pow2. lia.
    - replace (0 <=? Z.neg p)%Z with false by (symmetry; apply Z.leb_gt; lia).
      apply Z.shiftr_div_pow2. lia. }
  rewrite Ha. destruct sign; lia.
Qed.

(** *** Rounding to binary64

    [shr_fexp] shifts a mantissa to 53 bits and keeps track of what is
    shifted out; [round_nearest_even] then moves by at most half a unit. *)

Section Binary64.

Local Open Scope Z_scope.

Lemma iter_pos_nat (A : Type) (f : A -> A) (p : positive) :
  forall x, iter_pos f p x = Nat.iter (Pos.to_nat p) f x.
Proof.
  induction p as [p IH|p IH|]; intro x; cbn [iter_pos].
  - rewrite !IH, Pos2Nat.inj_xI.
    replace (S (2 * Pos.to_nat p))%nat with (Pos.to_nat p + S (Pos.to_nat p))%nat by lia.
    rewrite Nat.iter_add, Nat.iter_succ_r. reflexivity.
  - rewrite !IH, Pos2Nat.inj_xO.
    replace (2 * Pos.to_nat p)%nat with (Pos.to_nat p + Pos.to_nat p)%nat by lia.
    rewrite Nat.iter_add. reflexivity.
  - reflexivity.
Qed.

Lemma shr_1_div2 (m : Z) (r s : bool) :
  0 <= m ->
  shr_1 {| shr_m := m; shr_r := r; shr_s := s |}
  = {| shr_m := m / 2; shr_r := Z.odd m; shr_s := r || s |}.
Proof.
  intro Hm. rewrite <- Z.div2_div.
  destruct m as [|p|p]; [reflexivity | | lia].
  destruct p; reflexivity.
Qed.

Lemma shr_1_ok (mrs : shr_record) (T E : Z) :
  0 <= shr_m mrs -> 0 <= T < E ->
  loc_ok (loc_of_shr_record mrs) T E ->
  shr_m (shr_1 mrs) = shr_m mrs / 2
  /\ loc_ok (loc_of_shr_record (shr_1 mrs))
            (T + (shr_m mrs mod 2) * E) (2 * E).
Proof.
  destruct mrs as [m r s]. cbn [shr_m]. intros Hm HT Hl.
  rewrite (shr_1_div2 m r s Hm). cbn [shr_m]. split; [reflexivity|].
  rewrite Zmod_odd. unfold loc_of_shr_record, loc_ok in *.
  destruct (Z.odd m), r, s; cbn [orb]; cbn [orb] in Hl;
    try lia;
    (split; [lia|]);
    first [apply Z.compare_eq_iff; lia
          | apply Z.compare_lt_iff; lia
          | apply Z.compare_gt_iff; lia].
Qed.

Lemma shr_iter_ok (n : nat) :
  forall (mrs : shr_record) (T E : Z),
    0 <= shr_m mrs -> 0 <= T < E ->
    loc_ok (loc_of_shr_record mrs) T E ->
    shr_m (Nat.iter n shr_1 mrs) = shr_m mrs / 2 ^ Z.of_nat n
    /\ loc_ok (loc_of_shr_record (Nat.iter n shr_1 mrs))
              (T + (shr_m mrs mod 2 ^ Z.of_nat n) * E) (2 ^ Z.of_nat n * E).
Proof.
  induction n as [|n IH]; intros mrs T E Hm HT Hl.
  - cbn [Nat.iter]. change (2 ^ Z.of_nat 0) with 1.
    rewrite Z.div_1_r, Z.mod_1_r. split; [reflexivity|].
    replace (T + 0 * E) with T by lia. replace (1 * E) with E by lia. exact Hl.
  - rewrite Nat.iter_succ.
    destruct (IH mrs T E Hm HT Hl) as [IHm IHl].
    assert (Hp : 0 < 2 ^ Z.of_nat n) by (apply Z.pow_pos_nonneg; lia).
    assert (Hmod : 0 <= shr_m mrs mod 2 ^ Z.of_nat n < 2 ^ Z.of_nat n)
      by (apply Z.mod_pos_bound; lia).
    destruct (shr_1_ok (Nat.iter n shr_1 mrs)
                (T + (shr_m mrs mod 2 ^ Z.of_nat n) * E) (2 ^ Z.of_nat n * E))
      as [Hm1 Hl1].
    + rewrite IHm. apply Z.div_pos; lia.
    + nia.
    + exact IHl.
    + rewrite Nat2Z.inj_succ, Z.pow_succ_r by lia.
      split.
      * rewrite Hm1, IHm, Z.div_div by lia. f_equal. lia.
      * rewrite IHm in Hl1.
        replace (2 * 2 ^ Z.of_nat n) with (2 ^ Z.of_nat n * 2) by lia.
        rewrite Z.rem_mul_r by lia.
        replace (T + (shr_m mrs mod 2 ^ Z.of_nat n
                      + 2 ^ Z.of_nat n * ((shr_m mrs / 2 ^ Z.of_nat n) mod 2)) * E)
          with (T + shr_m mrs mod 2 ^ Z.of_nat n * E
                + (shr_m mrs / 2 ^ Z.of_nat n) mod 2 * (2 ^ Z.of_nat n * E))
          by lia.
        replace (2 ^ Z.of_nat n * 2 * E) with (2 * (2 ^ Z.of_nat n * E)) by lia.
        exact Hl1.
Qed.

Lemma round_nearest_even_ok (m T E : Z) (l : location) :
  0 <= T < E -> loc_ok l T E ->
  (round_nearest_even m l = m \/ round_nearest_even m l = m + 1)
  /\ 2 * Z.abs (round_nearest_even m l * E - (m * E + T)) <= E.
Proof.
  intros HT Hl. unfold round_nearest_even, loc_ok in *.
  destruct l as [|[| |]].
  - subst T. split; [now left | lia].
  - destruct Hl as [Hp Hc]. apply Z.compare_eq_iff in Hc.
    destruct (Z.even m); (split; [auto | lia]).
  - destruct Hl as [Hp Hc]. change (2 * T < E) in Hc. split; [now left | lia].
  - destruct Hl as [Hp Hc]. change (2 * T > E) in Hc. split; [now right | lia].
Qed.

Lemma digits2_pos_bounds (p : positive) :
  2 ^ (Z.pos (digits2_pos p) - 1) <= Z.pos p < 2 ^ Z.pos (digits2_pos p).
Proof.
  induction p as [p IH|p IH|]; cbn [digits2_pos].
  - rewrite Pos2Z.inj_succ.
    replace (Z.succ (Z.pos (digits2_pos p)) - 1) with (Z.succ (Z.pos (digits2_pos p) - 1)) by lia.
    rewrite !Z.pow_succ_r by lia. lia.
  - rewrite Pos2Z.inj_succ.
    replace (Z.succ (Z.pos (digits2_pos p)) - 1) with (Z.succ (Z.pos (digits2_pos p) - 1)) by lia.
    rewrite !Z.pow_succ_r by lia. lia.
  - simpl. lia.
Qed.

Lemma loc_of_record_of_loc (m : Z) (l : location) :
  loc_of_shr_record (shr_record_of_loc m l) = l /\ shr_m (shr_record_of_loc m l) = m.
Proof. destruct l as [|[| |]]; split; reflexivity. Qed.

Lemma shr_fexp_spec (mx ex T E : Z) (lx : location) :
  0 <= mx -> 0 <= T < E -> loc_ok lx T E ->
  let n := Z.max 0 (fexp 53 1024 (Zdigits2 mx + ex) - ex) in
  exists mrs,
    shr_fexp 53 1024 mx ex lx = (mrs, ex + n)
    /\ shr_m mrs = mx / 2 ^ n
    /\ loc_ok (loc_of_shr_record mrs) (T + (mx mod 2 ^ n) * E) (2 ^ n * E).
Proof.
  intros Hm HT Hl n. unfold shr_fexp, shr. subst n.
  destruct (loc_of_record_of_loc mx lx) as [Hloc Hshr].
  destruct (fexp 53 1024 (Zdigits2 mx + ex) - ex) as [|p|p] eqn:En.
  - exists (shr_record_of_loc mx lx). cbn [Z.max Z.compare].
    rewrite Z.add_0_r. change (2 ^ 0) with 1.
    rewrite Z.div_1_r, Z.mod_1_r, Hloc, Hshr.
    split; [reflexivity|]. split; [reflexivity|].
    replace (T + 0 * E) with T by lia. replace (1 * E) with E by lia. exact Hl.
  - exists (iter_pos shr_1 p (shr_record_of_loc mx lx)).
    replace (Z.max 0 (Z.pos p)) with (Z.pos p) by lia.
    split; [reflexivity|].
    rewrite iter_pos_nat.
    destruct (shr_iter_ok (Pos.to_nat p) (shr_record_of_loc mx lx) T E)
      as [H1 H2]; [rewrite Hshr; exact Hm | exact HT | rewrite Hloc; exact Hl |].
    rewrite positive_nat_Z, Hshr in H1, H2. split; assumption.
  - exists (shr_record_of_loc mx lx).
    replace (Z.max 0 (Z.neg p)) with 0 by lia.
    rewrite Z.add_0_r. change (2 ^ 0) with 1.
    rewrite Z.div_1_r, Z.mod_1_r, Hloc, Hshr.
    split; [reflexivity|]. split; [reflexivity|].
    replace (T + 0 * E) with T by lia. replace (1 * E) with E by lia. exact Hl.
Qed.

Lemma digits2_unique (p : positive) (k : Z) :
  2 ^ (k - 1) <= Z.pos p < 2 ^ k -> Z.pos (digits2_pos p) = k.
Proof.
  intros [Hlo Hhi]. pose proof (digits2_pos_bounds p) as [Dlo Dhi].
  assert (Hk : 0 < k).
  { destruct (Z_lt_le_dec 0 k); [assumption|].
    assert (2 ^ k <= 1).
    { destruct (Z.eq_dec k 0) as [->|]; [simpl; lia|].
      rewrite Z.pow_neg_r by lia. lia. }
    lia. }
  destruct (Z.lt_trichotomy (Z.pos (digits2_pos p)) k) as [H | [H | H]];
    [exfalso | exact H | exfalso].
  - assert (2 ^ Z.pos (digits2_pos p) <= 2 ^ (k - 1))
      by (apply Z.pow_le_mono_r; lia). lia.
  - assert (2 ^ k <= 2 ^ (Z.pos (digits2_pos p) - 1))
      by (apply Z.pow_le_mono_r; lia). lia.
Qed.

Lemma fexp_normal (e : Z) : -1074 <= e - 53 -> fexp 53 1024 e = e - 53.
Proof. intro H. unfold fexp, emin. lia. Qed.

(** Rounding of a value in the normal range: the result is a normal number
    with a mantissa of 53 bits, within half a unit of the last place. *)
Lemma binary_round_aux_normal (p : positive) (ex T E : Z) (lx : location) :
  0 <= T < E -> loc_ok lx T E ->
  let d := Z.pos (digits2_pos p) in
  53 <= d -> -1074 <= d + ex - 53 -> d + ex - 52 <= 971 ->
  exists m e,
    binary_round_aux 53 1024 false (Z.pos p) ex lx = S754_finite false m e
    /\ 2 ^ 52 <= Z.pos m < 2 ^ 53
    /\ d + ex - 53 <= e <= d + ex - 52
    /\ 2 * Z.abs (Z.pos m * 2 ^ (e - ex) * E - (Z.pos p * E + T))
       <= 2 ^ (e - ex) * E.
Proof.
  intros HT Hl d Hd Hlo Hhi.
  pose proof (digits2_pos_bounds p) as [Dlo Dhi]. fold d in Dlo, Dhi.
  unfold binary_round_aux.
  destruct (shr_fexp_spec (Z.pos p) ex T E lx) as (mrs & Hs & Hm & Hloc);
    [lia | exact HT | exact Hl |].
  cbn [Zdigits2] in Hs, Hm, Hloc. fold d in Hs, Hm, Hloc.
  rewrite (fexp_normal (d + ex)) in Hs, Hm, Hloc by lia.
  replace (Z.max 0 (d + ex - 53 - ex)) with (d - 53) in Hs, Hm, Hloc by lia.
  rewrite Hs. clear Hs.
  set (n := d - 53) in *.
  assert (Hn : 0 <= n) by (unfold n; lia).
  assert (Hpn : 0 < 2 ^ n) by (apply Z.pow_pos_nonneg; lia).
  assert (Hmod : 0 <= Z.pos p mod 2 ^ n < 2 ^ n) by (apply Z.mod_pos_bound; lia).
  assert (Hdiv : Z.pos p = 2 ^ n * (Z.pos p / 2 ^ n) + Z.pos p mod 2 ^ n)
    by (apply Z.div_mod; lia).
  assert (Hsplit : 2 ^ (d - 1) = 2 ^ 52 * 2 ^ n /\ 2 ^ d = 2 ^ 53 * 2 ^ n).
  { split; rewrite <- Z.pow_add_r by lia; f_equal; unfold n; lia. }
  destruct Hsplit as [Hs1 Hs2].
  set (m0 := shr_m mrs) in *.
  assert (Hm0 : 2 ^ 52 <= m0 < 2 ^ 53).
  { rewrite Hm. split.
    - apply Z.div_le_lower_bound; lia.
    - apply Z.div_lt_upper_bound; lia. }
  destruct (round_nearest_even_ok m0 (T + Z.pos p mod 2 ^ n * E) (2 ^ n * E)
              (loc_of_shr_record mrs)) as [Hr Herr]; [nia | exact Hloc |].
  set (m1 := round_nearest_even m0 (loc_of_shr_record mrs)) in *.
  assert (Herr' : 2 * Z.abs (m1 * 2 ^ n * E - (Z.pos p * E + T)) <= 2 ^ n * E).
  { replace (m1 * 2 ^ n * E - (Z.pos p * E + T))
      with (m1 * (2 ^ n * E) - (m0 * (2 ^ n * E) + (T + Z.pos p mod 2 ^ n * E)));
      [exact Herr|].
    rewrite Hdiv at 2. rewrite <- Hm. fold m0. ring. }
  assert (Hm1 : 2 ^ 52 <= m1 <= 2 ^ 53) by lia.
  destruct (Z_lt_le_dec m1 (2 ^ 53)) as [Hlt | Hge].
  - (* no carry *)
    assert (Hpos : exists q, m1 = Z.pos q).
    { destruct m1 as [|q|q]; [lia | now exists q | lia]. }
    destruct Hpos as [q Hq].
    assert (Hdq : Z.pos (digits2_pos q) = 53).
    { apply digits2_unique. rewrite <- Hq. change (53 - 1) with 52. lia. }
    unfold shr_fexp. rewrite Hq. cbn [Zdigits2]. rewrite Hdq.
    rewrite (fexp_normal (53 + (ex + n))) by (unfold n; lia).
    replace (53 + (ex + n) - 53 - (ex + n)) with 0 by lia.
    cbn [shr shr_record_of_loc shr_m].
    replace (ex + n <=? 1024 - 53) with true
      by (symmetry; apply Z.leb_le; unfold n; lia).
    exists q, (ex + n). split; [reflexivity|].
    split; [lia|]. split; [unfold n; lia|].
    replace (ex + n - ex) with n by lia. rewrite <- Hq. exact Herr'.
  - (* the mantissa is rounded up to 2^53 *)
    assert (Hq : m1 = 2 ^ 53) by lia.
    unfold shr_fexp. rewrite Hq.
    change (Zdigits2 (2 ^ 53)) with 54.
    rewrite (fexp_normal (54 + (ex + n))) by (unfold n; lia).
    replace (54 + (ex + n) - 53 - (ex + n)) with 1 by lia.
    cbn [shr iter_pos shr_record_of_loc].
    change (shr_m (shr_1 {| shr_m := 2 ^ 53; shr_r := false; shr_s := false |}))
      with (2 ^ 52).
    change (2 ^ 52) with (Z.pos 4503599627370496).
    cbv iota beta.
    replace (ex + n + 1 <=? 1024 - 53) with true
      by (symmetry; apply Z.leb_le; unfold n; lia).
    exists 4503599627370496%positive, (ex + n + 1).
    split; [reflexivity|]. split; [simpl; lia|]. split; [unfold n; lia|].
    replace (ex + n + 1 - ex) with (n + 1) by lia.
    rewrite Z.pow_add_r by lia. change (2 ^ 1) with 2.
    rewrite Hq in Herr'. change (Z.pos 4503599627370496) with (2 ^ 52).
    replace (2 ^ 52 * (2 ^ n * 2) * E) with (2 ^ 53 * 2 ^ n * E)
      by (change (2 ^ 53) with (2 ^ 52 * 2); ring).
    lia.
Qed.

Lemma new_location_ok (E r : Z) :
  0 <= r < E -> loc_ok (new_location E r) r E.
Proof.
  intros Hr. unfold new_location, new_location_even, new_location_odd.
  pose proof (Zmod_even E) as He.
  pose proof (Z.div_mod E 2 ltac:(lia)) as Hd.
  destruct (Z.even E).
  - destruct (Z.eqb_spec r 0) as [-> | Hne]; cbn [loc_ok]; [reflexivity|].
    split; [lia | reflexivity].
  - destruct (Z.eqb_spec r 0) as [-> | Hne]; cbn [loc_ok]; [reflexivity|].
    split; [lia|].
    destruct (Z.compare_spec (2 * r + 1) E);
      [apply Z.compare_lt_iff | apply Z.compare_lt_iff | apply Z.compare_gt_iff];
      lia.
Qed.

Lemma pow2_lt_inv (a b : Z) : 0 <= b -> 2 ^ a < 2 ^ b -> a < b.
Proof.
  intros Hb H. destruct (Z_lt_le_dec a b) as [|Hge]; [assumption|].
  assert (2 ^ b <= 2 ^ a) by (apply Z.pow_le_mono_r; lia). lia.
Qed.

Lemma Zdigits2_bounds (E : Z) :
  0 < E -> 0 < Zdigits2 E /\ 2 ^ (Zdigits2 E - 1) <= E < 2 ^ Zdigits2 E.
Proof.
  destruct E as [|p|p]; try lia. intros _. cbn [Zdigits2].
  split; [lia | apply digits2_pos_bounds].
Qed.

Lemma SFdiv_core_spec (p : positive) (E : Z) :
  0 < E ->
  let s := Z.max 0 (53 - (Z.pos (digits2_pos p) - Zdigits2 E)) in
  -1021 <= Z.pos (digits2_pos p) - Zdigits2 E ->
  SFdiv_core_binary 53 1024 (Z.pos p) 0 E 0
  = ((Z.pos p * 2 ^ s) / E, - s, new_location E ((Z.pos p * 2 ^ s) mod E)).
Proof.
  intros HE s Hlo. unfold SFdiv_core_binary. cbv zeta.
  rewrite !Z.add_0_r. change (0 - 0) with 0. cbn [Zdigits2].
  rewrite fexp_normal by lia.
  replace (Z.min (Z.pos (digits2_pos p) - Zdigits2 E - 53) 0) with (- s)
    by (unfold s; lia).
  replace (0 - - s) with s by lia.
  assert (Hm : match s with
               | 0 => Z.pos p
               | Z.pos _ => Z.shiftl (Z.pos p) s
               | Z.neg _ => 0
               end = Z.pos p * 2 ^ s).
  { assert (Hs : 0 <= s) by (unfold s; lia).
    destruct s as [|q|q]; [simpl; lia | apply Z.shiftl_mul_pow2; lia | lia]. }
  rewrite Hm. unfold Z.div, Z.modulo.
  destruct (Z.div_eucl (Z.pos p * 2 ^ s) E) as [q r]. reflexivity.
Qed.

(** [float] of a decimal numeral in the normal range: a mantissa of 53 bits
    within half a unit of the last place of [n / 10^k]. *)
Lemma of_decimal_spec (p : positive) (k : nat) :
  let E := 10 ^ Z.of_nat k in
  let dd := Z.pos (digits2_pos p) - Zdigits2 E in
  let s := Z.max 0 (53 - dd) in
  -1021 <= dd <= 1022 ->
  exists m e,
    F64.of_decimal (Z.pos p) k = S754_finite false m e
    /\ 2 ^ 52 <= Z.pos m < 2 ^ 53
    /\ dd - 53 <= e <= dd - 51
    /\ 0 <= e + s
    /\ 2 * Z.abs (Z.pos m * 2 ^ (e + s) * E - Z.pos p * 2 ^ s) <= 2 ^ (e + s) * E.
Proof.
  intros E dd s Hdd.
  assert (HE : 0 < E) by (apply Z.pow_pos_nonneg; lia).
  unfold F64.of_decimal, F64.prec, F64.emax. fold E.
  rewrite (SFdiv_core_spec p E HE) by (fold dd; lia).
  fold dd. fold s.
  destruct (Zdigits2_bounds E HE) as [Hd2 [Elo Ehi]].
  pose proof (digits2_pos_bounds p) as [Plo Phi].
  set (d1 := Z.pos (digits2_pos p)) in *.
  set (d2 := Zdigits2 E) in *.
  assert (Hs : 0 <= s) by (unfold s; lia).
  set (t := d1 + s - d2).
  assert (Ht : 53 <= t) by (unfold t, s, dd; lia).
  set (N := Z.pos p * 2 ^ s).
  assert (H2s : 0 < 2 ^ s) by (apply Z.pow_pos_nonneg; lia).
  assert (HNlo : 2 ^ (t - 1) * 2 ^ d2 <= N).
  { rewrite <- Z.pow_add_r by lia.
    replace (t - 1 + d2) with (d1 - 1 + s) by (unfold t; lia).
    rewrite Z.pow_add_r by lia. unfold N. nia. }
  assert (HNhi : N < 2 ^ (t + 1) * 2 ^ (d2 - 1)).
  { rewrite <- Z.pow_add_r by lia.
    replace (t + 1 + (d2 - 1)) with (d1 + s) by (unfold t; lia).
    rewrite Z.pow_add_r by lia. unfold N. nia. }
  assert (Ht1 : 0 < 2 ^ (t - 1)) by (apply Z.pow_pos_nonneg; lia).
  assert (Ht2 : 0 < 2 ^ (t + 1)) by (apply Z.pow_pos_nonneg; lia).
  assert (Hqlo : 2 ^ (t - 1) <= N / E) by (apply Z.div_le_lower_bound; nia).
  assert (Hqhi : N / E < 2 ^ (t + 1)) by (apply Z.div_lt_upper_bound; nia).
  assert (Hr : 0 <= N mod E < E) by (apply Z.mod_pos_bound; lia).
  assert (HN : N = E * (N / E) + N mod E) by (apply Z.div_mod; lia).
  destruct (N / E) as [|q|q] eqn:Eq; [lia | | lia].
  pose proof (digits2_pos_bounds q) as [Qlo Qhi].
  assert (Hdq : t <= Z.pos (digits2_pos q) <= t + 1).
  { split.
    - assert (t - 1 < Z.pos (digits2_pos q)); [|lia].
      apply pow2_lt_inv; lia.
    - assert (Z.pos (digits2_pos q) - 1 < t + 1); [|lia].
      apply pow2_lt_inv; lia. }
  destruct (binary_round_aux_normal q (- s) (N mod E) E (new_location E (N mod E)))
    as (m & e & Hbr & Hm & He & Herr);
    [exact Hr | apply new_location_ok; exact Hr
     | lia | unfold t, dd in *; lia | unfold t, dd in *; lia |].
  exists m, e. split; [exact Hbr|]. split; [exact Hm|].
  split; [unfold t, dd in *; lia|]. split; [lia|].
  replace (e - - s) with (e + s) in Herr by lia.
  replace (Z.pos q * E + N mod E) with N in Herr by lia.
  exact Herr.
Qed.

Lemma of_Z_1000 : F64.of_Z 1000 = S754_finite false 8796093022208000 (-43).
Proof. vm_compute. reflexivity. Qed.

(** The product with 1000, rounded once more. *)
Lemma mul_1000_spec (m : positive) (e : Z) :
  2 ^ 52 <= Z.pos m < 2 ^ 53 -> -1074 <= e <= 960 ->
  exists m' e' g,
    F64.mul (S754_finite false m e) (F64.of_Z 1000) = S754_finite false m' e'
    /\ 2 ^ 52 <= Z.pos m' < 2 ^ 53
    /\ 52 <= g <= 54
    /\ e' = e - 43 + g
    /\ 2 * Z.abs (Z.pos m' * 2 ^ g - Z.pos m * (1000 * 2 ^ 43)) <= 2 ^ g.
Proof.
  intros Hm He. rewrite of_Z_1000. unfold F64.mul, F64.prec, F64.emax.
  cbn [SFmul xorb].
  set (P := (m * 8796093022208000)%positive).
  assert (HP : Z.pos P = Z.pos m * (1000 * 2 ^ 43)) by (unfold P; lia).
  assert (HPlo : 2 ^ 104 <= Z.pos P) by (rewrite HP; lia).
  assert (HPhi : Z.pos P < 2 ^ 106) by (rewrite HP; lia).
  pose proof (digits2_pos_bounds P) as [Dlo Dhi].
  assert (Hd : 105 <= Z.pos (digits2_pos P) <= 106).
  { split.
    - assert (104 < Z.pos (digits2_pos P)); [|lia]. apply pow2_lt_inv; lia.
    - assert (Z.pos (digits2_pos P) - 1 < 106); [|lia]. apply pow2_lt_inv; lia. }
  destruct (binary_round_aux_normal P (e + -43) 0 1 loc_Exact)
    as (m' & e' & Hbr & Hm' & He' & Herr);
    [lia | reflexivity | lia | lia | lia |].
  exists m', e', (e' - (e + -43)).
  split; [exact Hbr|]. split; [exact Hm'|]. split; [lia|]. split; [lia|].
  rewrite <- HP. rewrite !Z.mul_1_r, Z.add_0_r in Herr. exact Herr.
Qed.

Lemma scale_abs (a X Y : Z) :
  0 < a -> 2 * Z.abs (a * X) <= a * Y -> 2 * Z.abs X <= Y.
Proof. intros Ha H. rewrite Z.abs_mul, (Z.abs_eq a) in H by lia. nia. Qed.

(** [int(float(n / 10^k) * 1000)] is within a millisecond and a half of the
    exact number of milliseconds. *)
Lemma millis_of_decimal (n : Z) (k : nat) :
  let E := 10 ^ Z.of_nat k in
  0 <= n -> E < 2 ^ 1000 -> n < 2 ^ 36 * E ->
  exists d,
    F64.to_int (F64.mul (F64.of_decimal n k) (F64.of_Z 1000)) = Ok d
    /\ 16 * (d * E - 1000 * n) < 3 * E
    /\ 16 * (1000 * n - d * E) < 19 * E.
Proof.
  intros E Hn HE Hlt.
  assert (HE0 : 0 < E) by (apply Z.pow_pos_nonneg; lia).
  destruct n as [|p|p]; [| | lia].
  { exists 0. split; [rewrite of_Z_1000; reflexivity | lia]. }
  destruct (Zdigits2_bounds E HE0) as [Hd2 [Elo Ehi]].
  pose proof (digits2_pos_bounds p) as [Plo Phi].
  assert (Hd2' : Zdigits2 E - 1 < 1000) by (apply pow2_lt_inv; lia).
  assert (Hd1 : Z.pos (digits2_pos p) - 1 < 36 + Zdigits2 E).
  { apply pow2_lt_inv; [lia|]. rewrite Z.pow_add_r by lia. nia. }
  destruct (of_decimal_spec p k) as (m & e & Hx & Hm & He & Hf & Herr);
    [fold E; lia|].
  fold E in He, Hf, Herr. rewrite Hx.
  set (s := Z.max 0 (53 - (Z.pos (digits2_pos p) - Zdigits2 E))) in *.
  destruct (mul_1000_spec m e Hm) as (m' & e' & g & Hy & Hm' & Hg & He' & Herr');
    [lia|].
  rewrite Hy, to_int_truncates.
  replace (0 <=? e') with false by (symmetry; apply Z.leb_gt; lia).
  exists (Z.pos m' / 2 ^ (- e')). split; [f_equal; lia|].
  set (h := - e') in *.
  set (f := e + s) in *.
  assert (Hh : 4 <= h) by (unfold h; lia).
  assert (Hs : s = h + f + (g - 43)) by (unfold h, f; lia).
  set (a := 2 ^ f) in *. set (b := 2 ^ (g - 43)). set (H := 2 ^ h).
  assert (Ha : 0 < a) by (apply Z.pow_pos_nonneg; lia).
  assert (Hb : 2 ^ 9 <= b) by (apply Z.pow_le_mono_r; lia).
  assert (HH : 2 ^ 4 <= H) by (apply Z.pow_le_mono_r; lia).
  assert (H2s : 2 ^ s = H * a * b).
  { rewrite Hs, !Z.pow_add_r by lia. reflexivity. }
  assert (H2g : 2 ^ g = 2 ^ 43 * b).
  { unfold b. rewrite <- Z.pow_add_r by lia. f_equal. lia. }
  rewrite H2s in Herr. rewrite H2g in Herr'.
  assert (E1 : 2 * Z.abs (Z.pos m * E - Z.pos p * H * b) <= E).
  { apply (scale_abs a); [exact Ha|].
    replace (a * (Z.pos m * E - Z.pos p * H * b))
      with (Z.pos m * a * E - Z.pos p * (H * a * b)) by ring.
    exact Herr. }
  assert (E2 : 2 * Z.abs (Z.pos m' * b - 1000 * Z.pos m) <= b).
  { apply (scale_abs (2 ^ 43)); [lia|].
    replace (2 ^ 43 * (Z.pos m' * b - 1000 * Z.pos m))
      with (Z.pos m' * (2 ^ 43 * b) - Z.pos m * (1000 * 2 ^ 43)) by ring.
    exact Herr'. }
  clear Herr Herr' H2s H2g.
  set (d := Z.pos m' / H).
  assert (Hrho : 0 <= Z.pos m' mod H < H) by (apply Z.mod_pos_bound; lia).
  assert (Hdm : Z.pos m' = H * d + Z.pos m' mod H) by (apply Z.div_mod; lia).
  set (rho := Z.pos m' mod H) in *.
  set (X := d * E - 1000 * Z.pos p).
  (* both errors together, in units of [b] *)
  assert (E3 : 2 * Z.abs (b * (H * X + rho * E)) < 3 * b * E).
  { replace (b * (H * X + rho * E))
      with ((Z.pos m' * b - 1000 * Z.pos m) * E
            + 1000 * (Z.pos m * E - Z.pos p * H * b))
      by (unfold X; rewrite Hdm; ring).
    assert (T1 : 2 * Z.abs ((Z.pos m' * b - 1000 * Z.pos m) * E) <= b * E).
    { rewrite Z.abs_mul, (Z.abs_eq E) by lia. nia. }
    assert (T2 : 2 * Z.abs (1000 * (Z.pos m * E - Z.pos p * H * b)) <= 1000 * E).
    { rewrite Z.abs_mul, (Z.abs_eq 1000) by lia. lia. }
    assert (T3 : 1000 * E < 2 * b * E) by nia.
    lia. }
  assert (E4 : 2 * Z.abs (H * X + rho * E) < 3 * E).
  { rewrite Z.abs_mul, (Z.abs_eq b) in E3 by lia. nia. }
  clear E1 E2 E3.
  assert (Hre : 0 <= rho * E <= (H - 1) * E) by nia.
  set (R := rho * E) in *.
  assert (Hup : 2 * (H * X) < 3 * E) by lia.
  assert (Hdn : - (2 * (H * (X + E))) < E) by lia.
  fold X. replace (1000 * Z.pos p - d * E) with (- X) by (unfold X; lia).
  split.
  - destruct (Z_lt_le_dec 0 X) as [Hpos|]; [nia | lia].
  - destruct (Z_lt_le_dec (X + E) 0) as [Hneg|]; [nia | lia].
Qed.

Lemma digit_char_ok (d : Z) :
  0 <= d < 10 ->
  Py.isdigit (digit_char d) = true /\ Py.digit_val (digit_char d) = d.
Proof.
  intro H.
  assert (Hc : d = 0 \/ d = 1 \/ d = 2 \/ d = 3 \/ d = 4 \/ d = 5 \/ d = 6
               \/ d = 7 \/ d = 8 \/ d = 9) by lia.
  repeat (destruct Hc as [-> | Hc]; [split; reflexivity|]).
  subst d. split; reflexivity.
Qed.

Lemma digits_of_spec :
  forall (fuel : nat) (n : Z) (acc : Py.str),
    0 <= n < 10 ^ Z.of_nat fuel -> (0 < fuel)%nat ->
    exists L,
      digits_of fuel n acc = L ++ acc
      /\ Forall (fun c => Py.isdigit c = true) L
      /\ fold_left (fun a c => 10 * a + Py.digit_val c) L 0 = n.
Proof.
  induction fuel as [|fuel IH]; intros n acc Hn Hf; [lia|].
  cbn [digits_of].
  assert (Hmod : 0 <= n mod 10 < 10) by (apply Z.mod_pos_bound; lia).
  destruct (digit_char_ok (n mod 10) Hmod) as [Hd Hv].
  destruct (Z.ltb_spec n 10) as [Hlt | Hge].
  - exists [digit_char (n mod 10)]. split; [reflexivity|].
    split; [constructor; [exact Hd | constructor]|].
    cbn [fold_left]. rewrite Hv, Z.mod_small by lia. lia.
  - assert (Hfuel : (0 < fuel)%nat).
    { destruct fuel; [simpl in Hn; lia | lia]. }
    rewrite Nat2Z.inj_succ, Z.pow_succ_r in Hn by lia.
    destruct (IH (n / 10) (digit_char (n mod 10) :: acc)) as (L & HL & HF & HV);
      [split; [apply Z.div_pos; lia | apply Z.div_lt_upper_bound; lia]
      | exact Hfuel |].
    exists (L ++ [digit_char (n mod 10)]).
    split; [rewrite HL, <- app_assoc; reflexivity|].
    split; [apply Forall_app; split; [exact HF | constructor; [exact Hd | constructor]]|].
    rewrite fold_left_app. cbn [fold_left]. rewrite HV, Hv.
    pose proof (Z.div_mod n 10 ltac:(lia)). lia.
Qed.

Lemma scan_digits :
  forall (L rest : Py.str) (seen_dot : bool) (N : Z) (K D : nat),
    Forall (fun c => Py.isdigit c = true) L ->
    F64.scan (L ++ rest) seen_dot N K D
    = F64.scan rest seen_dot
        (fold_left (fun a c => 10 * a + Py.digit_val c) L N)
        (if seen_dot then K + length L else K)%nat (D + length L)%nat.
Proof.
  induction L as [|c L IH]; intros rest sd N K D HF.
  - cbn [app fold_left length]. rewrite !Nat.add_0_r. destruct sd; reflexivity.
  - inversion HF as [|? ? Hc HL]; subst.
    cbn [app F64.scan]. rewrite Hc, (IH rest sd _ _ _ HL).
    cbn [fold_left length]. f_equal; [destruct sd; lia | lia].
Qed.

Lemma seconds_text_scan (c : Z) :
  0 <= c < 10 ^ 22 -> F64.scan (seconds_text c) false 0 0 0 = Ok (c, 2%nat).
Proof.
  intro Hc. unfold seconds_text.
  destruct (digits_of_spec 20 (c / 100) []) as (L & HL & HF & HV);
    [split; [apply Z.div_pos; lia | apply Z.div_lt_upper_bound; simpl; lia] | lia |].
  rewrite HL, app_nil_r, (scan_digits L _ false 0 0 0 HF), HV.
  assert (Ha : 0 <= c / 10 mod 10 < 10) by (apply Z.mod_pos_bound; lia).
  assert (Hb : 0 <= c mod 10 < 10) by (apply Z.mod_pos_bound; lia).
  destruct (digit_char_ok _ Ha) as [Ha1 Ha2].
  destruct (digit_char_ok _ Hb) as [Hb1 Hb2].
  cbn [F64.scan]. change (Py.isdigit "."%char) with false.
  cbv iota. destruct (ascii_dec "." ".") as [_|Hne]; [|now elim Hne].
  rewrite Ha1, Hb1, Ha2, Hb2.
  replace (0 <? S (S (0 + length L)))%nat with true
    by (symmetry; apply Nat.ltb_lt; lia).
  f_equal. f_equal.
  pose proof (Z.div_mod c 10 ltac:(lia)).
  pose proof (Z.div_mod (c / 10) 10 ltac:(lia)).
  rewrite Z.div_div in * by lia. change (10 * 10) with 100 in *. lia.
Qed.

Lemma millis_two_decimals (c : Z) :
  0 <= c < 10 ^ 12 ->
  exists d, F64.millis (seconds_text c) = Ok d
            /\ (d = 10 * c \/ d = 10 * c - 1).
Proof.
  intro Hc. unfold F64.millis, F64.of_str.
  rewrite seconds_text_scan by lia. cbn [Py.bind fst snd].
  destruct (millis_of_decimal c 2) as (d & Hd & Hup & Hdn);
    [lia | simpl; lia | simpl; lia |].
  change (10 ^ Z.of_nat 2) with 100 in Hup, Hdn.
  exists d. split; [exact Hd | lia].
Qed.

End Binary64.

(** [int(float(s) * 1000)] on some numerals: the product is rounded to
    binary64 before it is cut, so 1.001 s gives 1000 ms; a numeral with two
    dots is refused and one beyond the binary64 range overflows in [int]. *)
Lemma millis_examples :
  F64.millis (lit "0.01") = Ok 10%Z
  /\ F64.millis (lit "1.5") = Ok 1500%Z
  /\ F64.millis (lit "1.001") = Ok 1000%Z
  /\ F64.millis (lit "1.2.3") = Raise ValueError
  /\ F64.millis (repeat "9"%char 400) = Raise OverflowError.
Proof. vm_compute. repeat split; reflexivity. Qed.

(** * Properties *)

(** ** C1 *)

(** C1: on RUN A, FAILED A (9 ms), OK A (4 ms) the result map lists the
    OK marker (position 37) before the FAILED marker (position 15), and
    the record of A takes the OK marker: passed, 4 ms. *)
Theorem C1_later_ok_wins_over_failed :
  fmap (map fst) (GoogleTestParser.result_map Logs.failed_then_ok)
  = Ok [37; 15]
  /\ fmap (map summary) (GoogleTestParser.parse Logs.failed_then_ok)
     = Ok [(lit "A", passed, 4%Z)].
Proof. vm_compute. split; reflexivity. Qed.

(** ** C2 *)




(** ** C3 *)

(** C3, as the code has it: completion markers are not used up.  Two gtest
    start markers of one name, with no completion marker of that name
    placed after one of them and not after the other, get their status and
    duration from the same lookup. *)
Theorem C3_same_name_starts_share_completion (content : str)
  (l : list test_case) (rm : GoogleTestParser.result_dict) (i j : nat)
  (m1 m2 : Re.mobj) (t1 t2 : test_case) :
  GoogleTestParser.parse content = Ok l ->
  GoogleTestParser.result_map content = Ok rm ->
  nth_error (GoogleTestParser.run_matches content) i = Some m1 ->
  nth_error (GoogleTestParser.run_matches content) j = Some m2 ->
  nth_error l i = Some t1 ->
  nth_error l j = Some t2 ->
  strip (Re.group content m1 1) = strip (Re.group content m2 1) ->
  (forall pos res,
      In (pos, res) rm ->
      GoogleTestParser.r_name res = strip (Re.group content m1 1) ->
      (Re.m_start m1 < pos <-> Re.m_start m2 < pos)) ->
  status t1 = status t2 /\ duration_ms t1 = duration_ms t2.
Proof.
  intros Hp Hrm H1 H2 Ht1 Ht2 Hname Hpos.
  destruct (gtest_parse_nth _ _ _ _ Hp H1) as (rm1 & Hrm1 & E1).
  destruct (gtest_parse_nth _ _ _ _ Hp H2) as (rm2 & Hrm2 & E2).
  assert (rm1 = rm) by congruence. assert (rm2 = rm) by congruence.
  subst rm1 rm2.
  rewrite E1 in Ht1. apply some_eq in Ht1. subst t1.
  rewrite E2 in Ht2. apply some_eq in Ht2. subst t2.
  unfold GoogleTestParser.case_of. rewrite <- Hname.
  assert (E : GoogleTestParser.find_result rm
                (Re.m_start m1) (strip (Re.group content m1 1))
              = GoogleTestParser.find_result rm
                  (Re.m_start m2) (strip (Re.group content m1 1))).
  { unfold GoogleTestParser.find_result. apply find_ext.
    intros [pos res] Hin. simpl.
    destruct (str_eqb (GoogleTestParser.r_name res) _) eqn:En;
      [|now rewrite !andb_false_r].
    rewrite !andb_true_r. apply str_eqb_true in En.
    specialize (Hpos pos res Hin En).
    destruct (Nat.ltb_spec (Re.m_start m1) pos), (Nat.ltb_spec (Re.m_start m2) pos);
      try reflexivity; lia. }
  rewrite E. clear E.
  destruct (GoogleTestParser.find_result _ _ _) as [[q r]|]; now split.
Qed.

Lemma C3_witness :
  let m1 := {| Re.m_start := 0; Re.m_end := 14; Re.m_caps := [(1, (13, 14))] |} in
  let m2 := {| Re.m_start := 15; Re.m_end := 29; Re.m_caps := [(1, (28, 29))] |} in
  let t := {| name := lit "A"; status := passed; duration_ms := 4%Z;
              error_log := None |} in
  GoogleTestParser.run_matches Logs.run_twice = [m1; m2]
  /\ GoogleTestParser.parse Logs.run_twice = Ok [t; t]
  /\ fmap (map fst) (GoogleTestParser.result_map Logs.run_twice) = Ok [30]
  /\ status t = status t /\ duration_ms t = duration_ms t.
Proof.
  intros m1 m2 t.
  assert (Hr : GoogleTestParser.run_matches Logs.run_twice = [m1; m2])
    by (vm_compute; reflexivity).
  assert (Hp : GoogleTestParser.parse Logs.run_twice = Ok [t; t])
    by (vm_compute; reflexivity).
  assert (Hk : exists rm, GoogleTestParser.result_map Logs.run_twice = Ok rm
                          /\ map fst rm = [30])
    by (eexists; vm_compute; split; reflexivity).
  destruct Hk as (rm & Hrm & Hk).
  split; [exact Hr|]. split; [exact Hp|].
  split; [rewrite Hrm; cbn [fmap]; now rewrite Hk|].
  apply (C3_same_name_starts_share_completion Logs.run_twice [t; t] rm 0 1
           m1 m2 t t Hp Hrm).
  - rewrite Hr. reflexivity.
  - rewrite Hr. reflexivity.
  - reflexivity.
  - reflexivity.
  - vm_compute. reflexivity.
  - intros pos res Hin _.
    assert (Hpos : In pos (map fst rm))
      by (apply in_map_iff; now exists (pos, res)).
    rewrite Hk in Hpos. destruct Hpos as [<- | []]. simpl. lia.
Defined.

(** C3 fails as stated: with two start markers of A and one completion
    marker OK A (4 ms), both records are passed with 4 ms; none is left as
    not completed. *)
Lemma C3_single_completion_serves_both_starts :
  gtest_started Logs.run_twice = [lit "A"; lit "A"]
  /\ fmap (@length _) (GoogleTestParser.result_map Logs.run_twice) = Ok 1
  /\ fmap (map summary) (GoogleTestParser.parse Logs.run_twice)
     = Ok [(lit "A", passed, 4%Z); (lit "A", passed, 4%Z)].
Proof. vm_compute. repeat split; reflexivity. Qed.

(** ** C4 *)

(** C4: on RUN A, RUN B, OK B (4 ms), FAILED A (9 ms) the gtest parser
    returns exactly two records, A then B, with A failed in 9 ms and B
    passed in 4 ms. *)
Theorem C4_interleaved_by_name :
  fmap (map summary) (GoogleTestParser.parse Logs.interleaved)
  = Ok [(lit "A", failed, 9%Z); (lit "B", passed, 4%Z)].
Proof. vm_compute. reflexivity. Qed.

(** ** C5 *)

(** C5: whichever parser emits a record, an [error_log] it carries is at
    most 2048 characters long. *)
Theorem C5_error_log_at_most_2048 (p : TestCaseParser) (content : str)
  (t : test_case) (e : str) :
  emits p content t -> error_log t = Some e -> length e <= 2048.
Proof.
  assert (Hgo : forall l, GoTestParser.parse content = Ok l -> In t l ->
                          error_log t = Some e -> length e <= 2048).
  { intros l Hp Ht He.
    destruct (go_case_log _ _ _ _ Hp Ht He) as (m & _ & _ & ->).
    apply firstn_le_length. }
  assert (Hpy : forall l, PytestParser.parse content = Ok l -> In t l ->
                          error_log t = Some e -> length e <= 2048).
  { intros l Hp Ht He.
    destruct (pytest_parse_log _ _ _ _ Hp Ht He) as (m & em & _ & _ & _ & ->).
    apply firstn_le_length. }
  intros (l & Hp & Ht) He. destruct p; simpl in Hp.
  - eauto.
  - eauto.
  - eapply gtest_log_bounded; eauto.
  - destruct (generic_parse_cases _ _ Hp) as [H | [H | H]]; eauto.
    eapply gtest_log_bounded; eauto.
Qed.

Lemma C5_witness :
  let t := {| name := lit "T"; status := failed; duration_ms := 4%Z;
              error_log := Some (lit "boom") |} in
  emits Generic Logs.gtest_fail t
  /\ error_log t = Some (lit "boom")
  /\ length (lit "boom") <= 2048.
Proof.
  intro t.
  assert (H : emits Generic Logs.gtest_fail t).
  { exists [t]. split; [vm_compute; reflexivity | now left]. }
  split; [exact H|]. split; [reflexivity|].
  exact (C5_error_log_at_most_2048 Generic Logs.gtest_fail t (lit "boom")
           H eq_refl).
Defined.

(** ** C6 *)

(** C6, as the code has it: the dispatcher hands the text to the gtest
    parser, then to the Go parser, then to the pytest parser, and returns
    the first result that is not empty, or what the pytest parser returns
    when the first two results are empty; an exception raised by a parser
    on that way ends the dispatcher with that exception, and the parsers
    after it are not tried. *)
Theorem C6_first_result_or_exception (content : str) :
  (forall e, GoogleTestParser.parse content = Raise e ->
             GenericParser.parse content = Raise e)
  /\ (forall l, GoogleTestParser.parse content = Ok l -> l <> [] ->
                GenericParser.parse content = Ok l)
  /\ (GoogleTestParser.parse content = Ok [] ->
      (forall e, GoTestParser.parse content = Raise e ->
                 GenericParser.parse content = Raise e)
      /\ (forall l, GoTestParser.parse content = Ok l -> l <> [] ->
                    GenericParser.parse content = Ok l)
      /\ (GoTestParser.parse content = Ok [] ->
          GenericParser.parse content = PytestParser.parse content)).
Proof.
  unfold GenericParser.parse. split; [|split].
  - intros e ->. reflexivity.
  - intros l -> Hl. cbn [bind]. destruct l; [congruence | reflexivity].
  - intros ->. cbn [bind GenericParser.nonempty]. split; [|split].
    + intros e ->. reflexivity.
    + intros l -> Hl. cbn [bind]. destruct l; [congruence | reflexivity].
    + intros ->. cbn [bind GenericParser.nonempty].
      destruct (PytestParser.parse content) as [[|t l]|e]; reflexivity.
Qed.

Lemma C6_witness :
  let go_record := {| name := lit "name"; status := passed;
                      duration_ms := 10%Z; error_log := None |} in
  (exists l, GoogleTestParser.parse Logs.interleaved = Ok l /\ l <> []
             /\ GenericParser.parse Logs.interleaved = Ok l)
  /\ (GoogleTestParser.parse Logs.go_pass = Ok []
      /\ GoTestParser.parse Logs.go_pass = Ok [go_record]
      /\ GenericParser.parse Logs.go_pass = Ok [go_record])
  /\ (GoogleTestParser.parse Logs.no_markers = Ok []
      /\ GoTestParser.parse Logs.no_markers = Ok []
      /\ PytestParser.parse Logs.no_markers = Ok []
      /\ GenericParser.parse Logs.no_markers = Ok [])
  /\ (GoogleTestParser.parse Logs.go_bad_seconds = Ok []
      /\ GoTestParser.parse Logs.go_bad_seconds = Raise ValueError
      /\ GenericParser.parse Logs.go_bad_seconds = Raise ValueError)
  /\ (GoogleTestParser.parse Logs.long_duration = Raise ValueError
      /\ GenericParser.parse Logs.long_duration = Raise ValueError).
Proof.
  intro go_record.
  assert (H9 : GoogleTestParser.parse Logs.long_duration = Raise ValueError)
    by (vm_compute; reflexivity).
  assert (H1 : exists l, GoogleTestParser.parse Logs.interleaved = Ok l
                         /\ l <> [])
    by (eexists; vm_compute; split; [reflexivity | discriminate]).
  assert (H2 : GoogleTestParser.parse Logs.go_pass = Ok [])
    by (vm_compute; reflexivity).
  assert (H3 : GoTestParser.parse Logs.go_pass = Ok [go_record])
    by (vm_compute; reflexivity).
  assert (H4 : GoogleTestParser.parse Logs.no_markers = Ok [])
    by (vm_compute; reflexivity).
  assert (H5 : GoTestParser.parse Logs.no_markers = Ok [])
    by (vm_compute; reflexivity).
  assert (H6 : PytestParser.parse Logs.no_markers = Ok [])
    by (vm_compute; reflexivity).
  assert (H7 : GoogleTestParser.parse Logs.go_bad_seconds = Ok [])
    by (vm_compute; reflexivity).
  assert (H8 : GoTestParser.parse Logs.go_bad_seconds = Raise ValueError)
    by (vm_compute; reflexivity).
  split; [|split; [|split; [|split]]].
  - destruct H1 as (l & Hl & Hne). exists l.
    split; [exact Hl|]. split; [exact Hne|].
    exact (proj1 (proj2 (C6_first_result_or_exception Logs.interleaved))
             l Hl Hne).
  - split; [exact H2|]. split; [exact H3|].
    refine (proj1 (proj2 (proj2 (proj2
              (C6_first_result_or_exception Logs.go_pass)) H2)) _ H3 _).
    discriminate.
  - split; [exact H4|]. split; [exact H5|]. split; [exact H6|].
    rewrite <- H6.
    exact (proj2 (proj2 (proj2 (proj2
             (C6_first_result_or_exception Logs.no_markers)) H4)) H5).
  - split; [exact H7|]. split; [exact H8|].
    exact (proj1 (proj2 (proj2
             (C6_first_result_or_exception Logs.go_bad_seconds)) H7) _ H8).
  - split; [exact H9|].
    exact (proj1 (C6_first_result_or_exception Logs.long_duration) _ H9).
Defined.

(** C6 fails as stated: on a text that is one Go terminal line whose
    seconds are 1.2.3, no parser returns a record, yet the dispatcher does
    not return the empty list: [float] raises ValueError inside the Go
    parser, the exception leaves the dispatcher, and the pytest parser,
    which would return the empty list, is never tried. *)
Lemma C6_conversion_error_leaves_the_dispatcher :
  GoogleTestParser.parse Logs.go_bad_seconds = Ok []
  /\ GoTestParser.parse Logs.go_bad_seconds = Raise ValueError
  /\ PytestParser.parse Logs.go_bad_seconds = Ok []
  /\ GenericParser.parse Logs.go_bad_seconds = Raise ValueError
  /\ GenericParser.parse Logs.go_bad_seconds <> Ok [].
Proof. vm_compute. repeat split; try reflexivity. discriminate. Qed.

(** ** C7 *)




(** ** C8 *)

(** C8, as the code has it: the [duration_ms] of a record of the Go parser
    is [int(float(s) * 1000)] for the seconds [s] of a terminal line of
    that name, computed on binary64: the product is rounded to the nearest
    binary64 number and [int] cuts it toward zero.  For seconds written
    with two decimals and below 10^10 the result is the exact number of
    milliseconds or one less; 0.01 s gives 10 ms, 2.01 s gives 2009 ms
    and 1.005 s gives 1004 ms. *)
Theorem C8_go_seconds_to_milliseconds :
  (forall content l t,
      GoTestParser.parse content = Ok l -> In t l ->
      exists m,
        In m (Re.finditer GoTestParser.result_pattern content)
        /\ name t = strip (Re.group content m 2)
        /\ F64.millis (Re.group content m 3) = Ok (duration_ms t)
        /\ forall c,
             (0 <= c < 10 ^ 12)%Z ->
             Re.group content m 3 = seconds_text c ->
             duration_ms t = (10 * c)%Z \/ duration_ms t = (10 * c - 1)%Z)
  /\ (forall (sign : bool) (mantissa : positive) (e : Z),
         F64.to_int (S754_finite sign mantissa e)
         = Ok ((if sign then -1 else 1)
               * (if 0 <=? e then Z.pos mantissa * 2 ^ e
                  else Z.pos mantissa / 2 ^ (- e)))%Z)
  /\ GoTestParser.parse Logs.go_pass
     = Ok [{| name := lit "name"; status := passed; duration_ms := 10%Z;
              error_log := None |}]
  /\ GoTestParser.parse Logs.go_rounded
     = Ok [{| name := lit "name"; status := passed; duration_ms := 2009%Z;
              error_log := None |}]
  /\ F64.millis (lit "1.005") = Ok 1004%Z.
Proof.
  split; [|split; [exact to_int_truncates
                  | vm_compute; repeat split; reflexivity]].
  intros content l t Hp Ht.
  destruct (go_record_terminal _ _ _ Hp Ht) as (m & Hm & Hn & _ & Hz).
  exists m. split; [exact Hm|]. split; [exact Hn|]. split; [exact Hz|].
  intros c Hc Hg. rewrite Hg in Hz.
  destruct (millis_two_decimals c Hc) as (d & Hd & Hclose). congruence.
Qed.

Lemma C8_witness :
  let t := {| name := lit "name"; status := passed; duration_ms := 2009%Z;
              error_log := None |} in
  GoTestParser.parse Logs.go_rounded = Ok [t]
  /\ In t [t]
  /\ seconds_text 201 = lit "2.01"
  /\ exists m,
       In m (Re.finditer GoTestParser.result_pattern Logs.go_rounded)
       /\ name t = strip (Re.group Logs.go_rounded m 2)
       /\ Re.group Logs.go_rounded m 3 = seconds_text 201
       /\ F64.millis (Re.group Logs.go_rounded m 3) = Ok (duration_ms t)
       /\ (duration_ms t = (10 * 201)%Z \/ duration_ms t = (10 * 201 - 1)%Z).
Proof.
  intro t.
  assert (Hp : GoTestParser.parse Logs.go_rounded = Ok [t])
    by (vm_compute; reflexivity).
  split; [exact Hp|]. split; [now left|]. split; [vm_compute; reflexivity|].
  destruct (proj1 C8_go_seconds_to_milliseconds Logs.go_rounded [t] t Hp
              (or_introl eq_refl)) as (m & Hm & Hn & Hz & Hc).
  exists m. split; [exact Hm|]. split; [exact Hn|].
  assert (Hg : Re.group Logs.go_rounded m 3 = seconds_text 201).
  { vm_compute in Hm. destruct Hm as [<- | []]. vm_compute. reflexivity. }
  split; [exact Hg|]. split; [exact Hz|].
  apply Hc; [lia | exact Hg].
Defined.

(** C8 fails as stated: a terminal line with 2.01 seconds gives 2009 ms,
    while 2.01 times 1000, cut to an integer, is 2010. *)
Lemma C8_rounding_loses_a_millisecond :
  fmap (map duration_ms) (GoTestParser.parse Logs.go_rounded) = Ok [2009%Z]
  /\ (201 * 1000 / 100 = 2010)%Z
  /\ fmap (map duration_ms) (GoTestParser.parse Logs.go_rounded)
     <> Ok [(201 * 1000 / 100)%Z].
Proof. vm_compute. repeat split; try reflexivity. discriminate. Qed.

(** ** C9 *)

(** C9, as the code has it: for a gtest start marker after which no OK or
    FAILED marker of its name begins, and with no [test/] location in its
    window, the window runs from the end of the start marker to the
    beginning of the nearest start marker that begins after it (the end of
    the text when there is none); the window is stripped and cut into lines, every
    line is stripped, the lines that are empty or begin with [DEBUG] or
    [INFO] are left out, and the [error_log] is the first 2048 characters
    of the newline-join of the first 20 remaining lines, in the order of
    the text; it is absent when no line remains. *)
Theorem C9_log_of_unfinished_case (content : str) (l : list test_case)
  (i : nat) (m : Re.mobj) (t : test_case) :
  GoogleTestParser.parse content = Ok l ->
  nth_error (GoogleTestParser.run_matches content) i = Some m ->
  nth_error l i = Some t ->
  completed_after content m = false ->
  Re.search GoogleTestParser.test_error_pattern content (Re.m_end m)
    (next_start content (Re.m_start m)) = None ->
  error_log t
  = match remaining_lines (slice content (Re.m_end m)
                             (next_start content (Re.m_start m))) with
    | [] => None
    | l0 :: ls => Some (firstn 2048 (join_nl (firstn 20 (l0 :: ls))))
    end
  /\ ((exists m',
          In m' (GoogleTestParser.run_matches content)
          /\ Re.m_start m' = next_start content (Re.m_start m)
          /\ Re.m_start m < Re.m_start m'
          /\ forall m'', In m'' (GoogleTestParser.run_matches content) ->
                         Re.m_start m < Re.m_start m'' ->
                         Re.m_start m' <= Re.m_start m'')
      \/ (next_start content (Re.m_start m) = length content
          /\ forall m'', In m'' (GoogleTestParser.run_matches content) ->
                         Re.m_start m'' <= Re.m_start m)).
Proof.
  intros Hp Hm Ht Hc Hs. split; [|apply next_start_nearest].
  destruct (gtest_parse_nth _ _ _ _ Hp Hm) as (rm & Hrm & E).
  rewrite E in Ht. apply some_eq in Ht. subst t.
  unfold GoogleTestParser.case_of.
  rewrite (find_result_none _ _ _ Hrm Hc). cbn [error_log].
  unfold GoogleTestParser.missing_error_log.
  rewrite next_run_start_least, Hs, error_lines_remaining.
  reflexivity.
Qed.

Lemma C9_witness :
  let m := {| Re.m_start := 0; Re.m_end := 14; Re.m_caps := [(1, (13, 14))] |} in
  exists l t,
    GoogleTestParser.parse Logs.two_cases = Ok l
    /\ nth_error (GoogleTestParser.run_matches Logs.two_cases) 0 = Some m
    /\ nth_error l 0 = Some t
    /\ completed_after Logs.two_cases m = false
    /\ next_start Logs.two_cases (Re.m_start m) = 56
    /\ length Logs.two_cases = 92
    /\ remaining_lines (slice Logs.two_cases 14 56)
       = [lit "zeta"; lit "alpha"; lit "mid"; lit "beta"]
    /\ error_log t = Some (lit "zeta
alpha
mid
beta").
Proof.
  intro m.
  assert (Hp : exists l, GoogleTestParser.parse Logs.two_cases = Ok l)
    by (eexists; vm_compute; reflexivity).
  destruct Hp as [l Hp].
  assert (Hm : nth_error (GoogleTestParser.run_matches Logs.two_cases) 0
               = Some m) by (vm_compute; reflexivity).
  destruct (gtest_parse_nth _ _ _ _ Hp Hm) as (rm & _ & Ht).
  set (t := GoogleTestParser.case_of Logs.two_cases
              (GoogleTestParser.run_matches Logs.two_cases) rm m) in Ht.
  assert (Hc : completed_after Logs.two_cases m = false)
    by (vm_compute; reflexivity).
  assert (Hn : next_start Logs.two_cases (Re.m_start m) = 56)
    by (vm_compute; reflexivity).
  assert (Hs : Re.search GoogleTestParser.test_error_pattern Logs.two_cases
                 (Re.m_end m) (next_start Logs.two_cases (Re.m_start m)) = None)
    by (vm_compute; reflexivity).
  assert (Hr : remaining_lines (slice Logs.two_cases 14 56)
               = [lit "zeta"; lit "alpha"; lit "mid"; lit "beta"])
    by (vm_compute; reflexivity).
  exists l, t. split; [exact Hp|]. split; [exact Hm|]. split; [exact Ht|].
  split; [exact Hc|]. split; [exact Hn|]. split; [vm_compute; reflexivity|].
  split; [exact Hr|].
  rewrite (proj1 (C9_log_of_unfinished_case Logs.two_cases l 0 m t
                    Hp Hm Ht Hc Hs)).
  vm_compute. reflexivity.
Defined.

(** C9 fails as stated: the window after RUN T holds the line
    [INFO] step 2 of 3, which is more than a tag; the code drops it and
    stores E1, E2, while the window without its pure tag lines still holds
    that line, whether the window is stripped first or not. *)
Lemma C9_tagged_line_with_content_is_dropped :
  let m := {| Re.m_start := 0; Re.m_end := 14; Re.m_caps := [(1, (13, 14))] |} in
  let window := open_window Logs.info_line m in
  GoogleTestParser.run_matches Logs.info_line = [m]
  /\ filtered_branch Logs.info_line m
  /\ fmap (map error_log) (GoogleTestParser.parse Logs.info_line)
     = Ok [Some (lit "E1
E2")]
  /\ spec_window_log window = lit "
E1
[INFO] step 2 of 3
E2"
  /\ spec_window_log (strip window) = lit "E1
[INFO] step 2 of 3
E2"
  /\ fmap (map error_log) (GoogleTestParser.parse Logs.info_line)
     <> Ok [Some (spec_window_log window)]
  /\ fmap (map error_log) (GoogleTestParser.parse Logs.info_line)
     <> Ok [Some (spec_window_log (strip window))].
Proof.
  vm_compute. repeat split; try reflexivity; intro H; discriminate H.
Qed.

(** ** C10 *)

(** C10: a name that no start marker of the input captures is the name of
    no record, in the gtest parser and in the Go parser; so a completion
    or terminal marker of such a name produces no record. *)
Theorem C10_no_record_without_start_marker (content : str) (n : str) :
  (~ In n (gtest_started content) ->
   forall t, emits GoogleTest content t -> name t <> n)
  /\ (~ In n (go_started content) ->
      forall t, emits GoTest content t -> name t <> n).
Proof.
  split; intros Hn t (l & Hp & Ht) Hname; apply Hn; simpl in Hp.
  - destruct (gtest_parse_In _ _ _ Hp Ht) as (rm & m & _ & Hm & ->).
    rewrite gtest_case_name in Hname.
    unfold gtest_started. apply in_map_iff. now exists m.
  - destruct (go_parse_In _ _ _ Hp Ht) as (rm & m & r & _ & Hm & Hnm & _).
    unfold go_started. apply in_map_iff. exists m. split; congruence.
Qed.

Lemma C10_witness :
  (fmap (map (fun kv => GoogleTestParser.r_name (snd kv)))
        (GoogleTestParser.result_map Logs.stray_ok) = Ok [lit "Z"]
   /\ ~ In (lit "Z") (gtest_started Logs.stray_ok)
   /\ forall t, emits GoogleTest Logs.stray_ok t -> name t <> lit "Z")
  /\ (~ In (lit "Z") (go_started Logs.go_stray_pass)
      /\ forall t, emits GoTest Logs.go_stray_pass t -> name t <> lit "Z").
Proof.
  assert (H1 : ~ In (lit "Z") (gtest_started Logs.stray_ok))
    by (vm_compute; intros [H | []]; discriminate H).
  assert (H2 : ~ In (lit "Z") (go_started Logs.go_stray_pass))
    by (vm_compute; intros [H | []]; discriminate H).
  split; [split; [vm_compute; reflexivity | split; [exact H1|]]
         | split; [exact H2|]].
  - exact (proj1 (C10_no_record_without_start_marker Logs.stray_ok (lit "Z")) H1).
  - exact (proj2 (C10_no_record_without_start_marker Logs.go_stray_pass (lit "Z")) H2).
Defined.

(** * Further properties *)

(** ** The URL of the upload *)

Lemma startswith_iff (p s : str) :
  startswith p s = true <-> exists q, s = p ++ q.
Proof.
  split.
  - revert s. induction p as [|c p IH]; simpl; intros s H; [now exists s|].
    destruct s as [|d s]; [discriminate|].
    destruct (ascii_dec c d) as [->|]; [|discriminate].
    destruct (IH s H) as [q ->]. now exists q.
  - intros [q ->]. apply startswith_app.
Qed.

Lemma endswith_iff (suffix s : str) :
  endswith suffix s = true <-> exists pre, s = pre ++ suffix.
Proof.
  unfold endswith. rewrite startswith_iff. split.
  - intros [q H]. exists (rev q).
    rewrite <- (rev_involutive s), H, rev_app_distr, rev_involutive. reflexivity.
  - intros [pre ->]. exists (rev pre). apply rev_app_distr.
Qed.

(** X1: the URL of the upload always ends with /test-runs, only appends to
    the given API address (nothing, test-runs or /test-runs), and is left
    as it is by a second application. *)
Theorem X1_test_runs_url_shape (api_url : str) :
  endswith (lit "/test-runs") (test_runs_url api_url) = true
  /\ test_runs_url (test_runs_url api_url) = test_runs_url api_url
  /\ exists tail,
       test_runs_url api_url = api_url ++ tail
       /\ In tail [[]; lit "test-runs"; lit "/test-runs"].
Proof.
  assert (H1 : endswith (lit "/test-runs") (test_runs_url api_url) = true).
  { unfold test_runs_url.
    destruct (endswith (lit "/test-runs") api_url) eqn:E; cbn [negb]; [exact E|].
    destruct (endswith (lit "/") api_url) eqn:E2.
    - apply endswith_iff in E2. destruct E2 as [pre ->].
      apply endswith_iff. exists pre. rewrite <- app_assoc. reflexivity.
    - apply endswith_iff. now exists api_url. }
  split; [exact H1|]. split.
  - unfold test_runs_url at 1. now rewrite H1.
  - unfold test_runs_url.
    destruct (endswith (lit "/test-runs") api_url); cbn [negb].
    + exists []. split; [now rewrite app_nil_r | now left].
    + destruct (endswith (lit "/") api_url).
      * exists (lit "test-runs"). split; [reflexivity | right; now left].
      * exists (lit "/test-runs"). split; [reflexivity | right; right; now left].
Qed.

(** ** The status of the run and the counts *)

(** X2: the status of the whole run is failed exactly when some record is
    failed, and passed otherwise, so a run of skipped records is passed. *)
Theorem X2_overall_status_failed_iff (test_cases : list test_case) :
  (overall_status test_cases = failed <->
   exists tc, In tc test_cases /\ status tc = failed)
  /\ (overall_status test_cases = passed <->
      forall tc, In tc test_cases -> status tc <> failed)
  /\ overall_status test_cases <> skipped.
Proof.
  induction test_cases as [|tc l (IHf & IHp & IHs)]; simpl.
  - split; [split; [discriminate | intros (tc & [] & _)]|].
    split; [split; [intros _ tc [] | reflexivity] | discriminate].
  - destruct (status tc) eqn:E.
    + split; [rewrite IHf; split|split; [rewrite IHp; split|exact IHs]].
      * intros (t & Ht & Hs). exists t. auto.
      * intros (t & [<- | Ht] & Hs); [congruence | now exists t].
      * intros H t [<- | Ht]; [congruence | now apply H].
      * intros H t Ht. apply H. now right.
    + split; [split; [intros _; exists tc; auto | reflexivity]|].
      split; [|discriminate].
      split; [discriminate|]. intro H. exfalso. apply (H tc); auto.
    + split; [rewrite IHf; split|split; [rewrite IHp; split|exact IHs]].
      * intros (t & Ht & Hs). exists t. auto.
      * intros (t & [<- | Ht] & Hs); [congruence | now exists t].
      * intros H t [<- | Ht]; [congruence | now apply H].
      * intros H t Ht. apply H. now right.
Qed.

Lemma X2_witness :
  exists l,
    GoogleTestParser.parse Logs.interleaved = Ok l
    /\ (exists tc, In tc l /\ status tc = failed)
    /\ overall_status l = failed.
Proof.
  assert (H : exists l,
             GoogleTestParser.parse Logs.interleaved = Ok l
             /\ exists tc, In tc l /\ status tc = failed).
  { eexists. split; [vm_compute; reflexivity|].
    eexists. split; [left; reflexivity | reflexivity]. }
  destruct H as (l & Hp & Hf). exists l.
  split; [exact Hp|]. split; [exact Hf|].
  exact (proj2 (proj1 (X2_overall_status_failed_iff l)) Hf).
Defined.

Lemma status_count_step (d : Dict.dict outcome nat) (tc : test_case) (s : outcome) :
  let d' := Dict.set outcome_eqb d (status tc) (count_of d (status tc) + 1) in
  (status tc = s -> Dict.get outcome_eqb d' s = Some (count_of d s + 1))
  /\ (status tc <> s -> Dict.get outcome_eqb d' s = Dict.get outcome_eqb d s).
Proof.
  intro d'. split.
  - intros <-. apply (dict_get_set_same _ _ _ outcome_eqb_spec).
  - intro H. apply (dict_get_set_other _ _ _ outcome_eqb_spec). exact H.
Qed.

Lemma status_count_acc (l : list test_case) (s : outcome) :
  forall d,
    Dict.get outcome_eqb
      (fold_left (fun d tc =>
                    Dict.set outcome_eqb d (status tc)
                      (match Dict.get outcome_eqb d (status tc) with
                       | Some n => n
                       | None => 0
                       end + 1)) l d) s
    = let n := length (filter (fun tc => outcome_eqb (status tc) s) l) in
      if n =? 0 then Dict.get outcome_eqb d s else Some (count_of d s + n).
Proof.
  induction l as [|tc l IH]; intro d; [reflexivity|].
  cbn [fold_left filter]. rewrite IH. cbv zeta.
  change (match Dict.get outcome_eqb d (status tc) with
          | Some n => n
          | None => 0
          end) with (count_of d (status tc)).
  destruct (status_count_step d tc s) as [Hsame Hother].
  cbv zeta in Hsame, Hother.
  set (d' := Dict.set outcome_eqb d (status tc) (count_of d (status tc) + 1)) in *.
  destruct (outcome_eqb (status tc) s) eqn:E.
  - apply outcome_eqb_spec in E. specialize (Hsame E).
    assert (Hc : count_of d' s = count_of d s + 1)
      by (unfold count_of at 1; rewrite Hsame; reflexivity).
    rewrite Hc, Hsame. cbn [length].
    destruct (length (filter _ l)) as [|n]; cbn [Nat.eqb]; f_equal; lia.
  - assert (Hne : status tc <> s)
      by (intro H; apply outcome_eqb_spec in H; congruence).
    specialize (Hother Hne).
    assert (Hc : count_of d' s = count_of d s)
      by (unfold count_of; rewrite Hother; reflexivity).
    rewrite Hc, Hother. reflexivity.
Qed.

Lemma count_by_status (l : list test_case) :
  length (filter (fun tc => outcome_eqb (status tc) passed) l)
  + length (filter (fun tc => outcome_eqb (status tc) failed) l)
  + length (filter (fun tc => outcome_eqb (status tc) skipped) l)
  = length l.
Proof.
  induction l as [|tc l IH]; [reflexivity|].
  cbn [filter]. destruct (status tc); cbn [outcome_eqb length]; lia.
Qed.

(** X3: the count kept for a status is the number of records with that
    status, a status with no record has no entry, and the counts of the
    three statuses add up to the number of records. *)
Theorem X3_status_count_counts (test_cases : list test_case) :
  (forall s,
      Dict.get outcome_eqb (status_count test_cases) s
      = let n := length (filter (fun tc => outcome_eqb (status tc) s) test_cases) in
        if n =? 0 then None else Some n)
  /\ count_of (status_count test_cases) passed
     + count_of (status_count test_cases) failed
     + count_of (status_count test_cases) skipped
     = length test_cases.
Proof.
  assert (H : forall s,
             Dict.get outcome_eqb (status_count test_cases) s
             = let n := length (filter (fun tc => outcome_eqb (status tc) s)
                                       test_cases) in
               if n =? 0 then None else Some n).
  { intro s. unfold status_count. rewrite status_count_acc. reflexivity. }
  split; [exact H|].
  rewrite <- (count_by_status test_cases). unfold count_of. rewrite !H. cbv zeta.
  repeat match goal with
         | |- context [Nat.eqb ?n 0] => destruct n; cbn [Nat.eqb]
         end; reflexivity.
Qed.

(** ** main *)

Lemma nonempty_true (l : list test_case) :
  GenericParser.nonempty l = true <-> l <> [].
Proof. destruct l; simpl; split; congruence. Qed.

Lemma parse_log_file_nonempty (file : file_state) (l : list test_case) :
  parse_log_file file = Returned l -> l <> [] ->
  exists content, file = Readable content /\ GenericParser.parse content = Ok l.
Proof.
  destruct file as [| |content]; simpl; try discriminate.
  destruct (truthy (strip content)); simpl.
  - destruct (GenericParser.parse content) as [l0|e] eqn:E; [|discriminate].
    intros [= <-] _. now exists content.
  - intros [= <-] H. congruence.
Qed.

(** X4: [main] sends at most one request, and none in a dry run; a request
    it sends goes to the /test-runs URL of the API address with the
    non-empty API_KEY as bearer, after the commit id was found to have 8
    characters or more, and its body holds the non-empty list of records
    parsed from the log file with the status of the whole run. *)
Theorem X4_main_request (cl : command_line) (API_KEY : option str)
  (file : file_state) (post : request -> reply) (r : request) :
  In r (snd (main cl API_KEY file post)) ->
  snd (main cl API_KEY file post) = [r]
  /\ exists a,
       cl = Parsed a
       /\ dry_run a = false
       /\ 8 <= length (commit_id a)
       /\ (exists k, API_KEY = Some k /\ k <> []
                     /\ req_authorization r = lit "Bearer " ++ k)
       /\ req_url r = test_runs_url (api_url a)
       /\ exists content l,
            file = Readable content
            /\ GenericParser.parse content = Ok l
            /\ l <> []
            /\ req_json r = {| p_branch_name := branch_name a;
                               p_commit_id := commit_id a;
                               p_test_type := test_type a;
                               p_status := overall_status l;
                               p_test_cases := l |}.
Proof.
  unfold main. destruct cl as [| |a]; [intros [] | intros [] |].
  destruct (dry_run a) eqn:Ed; cbn [negb].
  - destruct (length (commit_id a) <? 8); [intros []|].
    destruct (parse_log_file file) as [l|e]; [|intros []].
    destruct (negb (GenericParser.nonempty l)); intros [].
  - destruct API_KEY as [k|]; [|intros []].
    destruct (truthy k) eqn:Ek; cbn [negb]; [|intros []].
    destruct (Nat.ltb_spec (length (commit_id a)) 8) as [|Hc]; [intros []|].
    destruct (parse_log_file file) as [l|e] eqn:Ep; [|intros []].
    destruct (GenericParser.nonempty l) eqn:En; cbn [negb]; [|intros []].
    apply nonempty_true in En. apply truthy_true in Ek.
    destruct (parse_log_file_nonempty _ _ Ep En) as (content & -> & Hg).
    unfold upload_test_results.
    set (req := {| req_url := _; req_authorization := _; req_json := _ |}).
    assert (Hr : forall x, In x [req] ->
                 [req] = [x]
                 /\ exists a0,
                      Parsed a = Parsed a0
                      /\ dry_run a0 = false /\ 8 <= length (commit_id a0)
                      /\ (exists k0, Some k = Some k0 /\ k0 <> []
                                     /\ req_authorization x = lit "Bearer " ++ k0)
                      /\ req_url x = test_runs_url (api_url a0)
                      /\ exists content0 l0,
                           Readable content = Readable content0
                           /\ GenericParser.parse content0 = Ok l0
                           /\ l0 <> []
                           /\ req_json x = {| p_branch_name := branch_name a0;
                                              p_commit_id := commit_id a0;
                                              p_test_type := test_type a0;
                                              p_status := overall_status l0;
                                              p_test_cases := l0 |}).
    { intros x [<- | []]. split; [reflexivity|]. exists a.
      repeat split; try assumption.
      - now exists k.
      - now exists content, l. }
    destruct (post req) as [answer|]; exact (Hr r).
Qed.

Lemma X4_witness :
  exists r,
    In r (snd (main (Parsed Runs.upload_args) (Some (lit "secret"))
                    (Readable Logs.interleaved) Runs.accepting))
    /\ snd (main (Parsed Runs.upload_args) (Some (lit "secret"))
                 (Readable Logs.interleaved) Runs.accepting) = [r]
    /\ req_url r = lit "http://localhost:8080/api/v1/test-runs"
    /\ req_authorization r = lit "Bearer secret"
    /\ p_status (req_json r) = failed.
Proof.
  assert (H : exists r,
             snd (main (Parsed Runs.upload_args) (Some (lit "secret"))
                       (Readable Logs.interleaved) Runs.accepting) = [r]
             /\ req_url r = lit "http://localhost:8080/api/v1/test-runs"
             /\ req_authorization r = lit "Bearer secret"
             /\ p_status (req_json r) = failed).
  { eexists. vm_compute. repeat split; reflexivity. }
  destruct H as (r & Hs & Hu & Ha & Hp).
  assert (Hin : In r (snd (main (Parsed Runs.upload_args) (Some (lit "secret"))
                                (Readable Logs.interleaved) Runs.accepting)))
    by (rewrite Hs; now left).
  exists r. split; [exact Hin|].
  split; [exact (proj1 (X4_main_request _ _ _ _ r Hin))|].
  auto.
Defined.

Lemma exit_code_of_answer_cases (answer : json) :
  (exit_code_of_answer answer = 0 <-> accepted answer)
  /\ (exit_code_of_answer answer = 0 \/ exit_code_of_answer answer = 1).
Proof.
  assert (Hno : forall a, (forall members, a <> JObject members) ->
                          ~ accepted a).
  { intros a Ha (members & Hm & _). exact (Ha members Hm). }
  destruct answer as [|b|n|x|t|items|members]; cbn [exit_code_of_answer];
    try (split; [split; [discriminate | intro H; exfalso; revert H; apply Hno;
                                        intros members; discriminate]
                | now right]).
  destruct (Dict.get str_eqb members (lit "code")) as [code|] eqn:Ec.
  - destruct (equals_200 code) eqn:E200.
    + destruct (Dict.get str_eqb members (lit "data")) as [data|] eqn:Ed.
      * assert (Hbad : (forall fields, data <> JObject fields) ->
                       ~ accepted (JObject members)).
        { intros Hd (mb & Hm & _ & [Hnone | (fields & Hf)]);
            injection Hm as <-; [congruence|].
          rewrite Ed in Hf. injection Hf as ->. exact (Hd fields eq_refl). }
        destruct data as [|b|n|x|t|items|fields];
          try (split; [split; [discriminate | intro H; exfalso; revert H;
                                              apply Hbad; intros fields;
                                              discriminate]
                      | now right]).
        split; [|now left]. split; [|reflexivity]. intros _.
        exists members. split; [reflexivity|].
        split; [now exists code | right; now exists fields].
      * split; [|now left]. split; [|reflexivity]. intros _.
        exists members. split; [reflexivity|].
        split; [now exists code | now left].
    + split; [|now right]. split; [discriminate|].
      intros (mb & Hm & (c & Hc & H200) & _). injection Hm as <-.
      rewrite Ec in Hc. injection Hc as <-. congruence.
  - split; [|now right]. split; [discriminate|].
    intros (mb & Hm & (c & Hc & _) & _). injection Hm as <-. congruence.
Qed.

(** X5: [main] ends with exit code 0, 1 or 2; with 2 exactly when the
    command line is refused; with 0 exactly when the help was asked for, or
    the commit id has 8 characters or more, the log file gives a non-empty
    list of records, and either the run is a dry run or API_KEY is set, not
    empty, and the server's answer is a JSON object with code 200 whose
    data is absent or an object. *)
Theorem X5_main_exit_code (cl : command_line) (API_KEY : option str)
  (file : file_state) (post : request -> reply) :
  (fst (main cl API_KEY file post) = 0 \/ fst (main cl API_KEY file post) = 1
   \/ fst (main cl API_KEY file post) = 2)
  /\ (fst (main cl API_KEY file post) = 2 <-> cl = UsageError)
  /\ (fst (main cl API_KEY file post) = 0 <->
      cl = HelpAsked
      \/ exists a,
           cl = Parsed a
           /\ 8 <= length (commit_id a)
           /\ exists l,
                parse_log_file file = Returned l /\ l <> []
                /\ (dry_run a = true
                    \/ (dry_run a = false
                        /\ exists k answer,
                             API_KEY = Some k /\ k <> []
                             /\ post (fst (upload_test_results post (api_url a)
                                             k (branch_name a) (commit_id a) l
                                             (test_type a)))
                                = Replied answer
                             /\ accepted answer))).
Proof.
  destruct cl as [| |a].
  - cbn [main fst]. split; [auto|]. split; [split; reflexivity|].
    split; [discriminate|].
    intros [H | (a & H & _)]; discriminate.
  - cbn [main fst]. split; [auto|]. split; [split; discriminate|].
    split; [intros _; now left | reflexivity].
  - assert (Hone : forall (x : nat * list request) (Q : Prop),
               fst x = 1 -> ~ Q ->
               (fst x = 0 \/ fst x = 1 \/ fst x = 2)
               /\ (fst x = 2 <-> Parsed a = UsageError)
               /\ (fst x = 0 <->
                   Parsed a = HelpAsked \/ Q)).
    { intros x Q Hx HQ. rewrite Hx. split; [auto|].
      split; [split; discriminate|].
      split; [discriminate | intros [H | H]; [discriminate | contradiction]]. }
    assert (Hzero : forall (x : nat * list request) (Q : Prop),
               fst x = 0 -> Q ->
               (fst x = 0 \/ fst x = 1 \/ fst x = 2)
               /\ (fst x = 2 <-> Parsed a = UsageError)
               /\ (fst x = 0 <->
                   Parsed a = HelpAsked \/ Q)).
    { intros x Q Hx HQ. rewrite Hx. split; [auto|].
      split; [split; discriminate|].
      split; [intros _; now right | reflexivity]. }
    cbn [main].
    destruct (dry_run a) eqn:Ed; cbn [negb].
    + destruct (Nat.ltb_spec (length (commit_id a)) 8) as [Hc|Hc].
      { apply Hone; [reflexivity|].
        intros (a0 & [= <-] & H & _). lia. }
      destruct (parse_log_file file) as [l|e] eqn:Ep.
      * destruct (GenericParser.nonempty l) eqn:En; cbn [negb].
        -- apply Hzero; [reflexivity|]. exists a. split; [reflexivity|].
           split; [exact Hc|]. exists l. split; [reflexivity|].
           split; [now apply nonempty_true | left; exact Ed].
        -- apply Hone; [reflexivity|].
           intros (a0 & [= <-] & _ & l' & [= <-] & Hne & _).
           apply nonempty_true in Hne. congruence.
      * apply Hone; [reflexivity|].
        intros (a0 & [= <-] & _ & l' & H & _). discriminate.
    + destruct API_KEY as [k|].
      2:{ apply Hone; [reflexivity|].
          intros (a0 & [= <-] & _ & l & _ & _
                  & [H | (_ & k & answer & H & _)]); congruence. }
      destruct (truthy k) eqn:Ek; cbn [negb].
      2:{ apply Hone; [reflexivity|].
          intros (a0 & [= <-] & _ & l & _ & _
                  & [H | (_ & k' & answer & [= <-] & Hk & _)]);
            [congruence|].
          apply truthy_true in Hk. congruence. }
      destruct (Nat.ltb_spec (length (commit_id a)) 8) as [Hc|Hc].
      { apply Hone; [reflexivity|].
        intros (a0 & [= <-] & H & _). lia. }
      destruct (parse_log_file file) as [l|e] eqn:Ep.
      2:{ apply Hone; [reflexivity|].
          intros (a0 & [= <-] & _ & l' & H & _). discriminate. }
      destruct (GenericParser.nonempty l) eqn:En; cbn [negb].
      2:{ apply Hone; [reflexivity|].
          intros (a0 & [= <-] & _ & l' & [= <-] & Hne & _).
          apply nonempty_true in Hne. congruence. }
      unfold upload_test_results. cbn [fst].
      set (req := {| req_url := _; req_authorization := _; req_json := _ |}).
      destruct (post req) as [answer|] eqn:Er.
      * destruct (exit_code_of_answer_cases answer) as [Hacc [H0 | H1]].
        -- apply Hzero; [exact H0|]. exists a. split; [reflexivity|].
           split; [exact Hc|]. exists l. split; [reflexivity|].
           split; [now apply nonempty_true|].
           right. split; [exact Ed|]. exists k, answer.
           split; [reflexivity|]. split; [now apply truthy_true|].
           split; [exact Er | now apply Hacc].
        -- apply Hone; [exact H1|].
           intros (a0 & [= <-] & _ & l' & [= <-] & _
                   & [H | (_ & k' & answer' & [= <-] & _ & Hr & Ha)]);
             [congruence|].
           fold req in Hr. rewrite Er in Hr. injection Hr as <-.
           apply Hacc in Ha. congruence.
      * apply Hone; [reflexivity|].
        intros (a0 & [= <-] & _ & l' & [= <-] & _
                & [H | (_ & k' & answer' & [= <-] & _ & Hr & _)]);
          [congruence|].
        fold req in Hr. congruence.
Qed.

Lemma X5_witness :
  (8 <= length (commit_id Runs.dry_args)
   /\ exists l,
        parse_log_file (Readable Logs.go_pass) = Returned l /\ l <> []
        /\ dry_run Runs.dry_args = true)
  /\ fst (main (Parsed Runs.dry_args) None (Readable Logs.go_pass)
               Runs.unreachable) = 0
  /\ fst (main (Parsed Runs.upload_args) (Some (lit "secret"))
               (Readable Logs.go_pass) Runs.answering_null) = 1
  /\ fst (main (Parsed Runs.dry_args) None (Readable Logs.long_duration)
               Runs.unreachable) = 1.
Proof.
  assert (Hc : 8 <= length (commit_id Runs.dry_args)) by (vm_compute; lia).
  assert (Hl : exists l,
             parse_log_file (Readable Logs.go_pass) = Returned l /\ l <> []
             /\ dry_run Runs.dry_args = true).
  { eexists. split; [vm_compute; reflexivity|].
    split; [discriminate | reflexivity]. }
  split; [split; [exact Hc | exact Hl]|].
  split; [|split; vm_compute; reflexivity].
  apply (proj2 (proj2 (X5_main_exit_code (Parsed Runs.dry_args) None
                         (Readable Logs.go_pass) Runs.unreachable))).
  right. exists Runs.dry_args. split; [reflexivity|]. split; [exact Hc|].
  destruct Hl as (l & Hp & Hne & Hd). exists l.
  split; [exact Hp|]. split; [exact Hne|]. left. exact Hd.
Defined.

(** ** The matcher: which characters a match consumes *)

Lemma all_ascii_complete (c : ascii) : In c all_ascii.
Proof.
  unfold all_ascii. apply in_map_iff. exists (nat_of_ascii c).
  split; [apply ascii_nat_embedding|].
  apply in_seq. pose proof (nat_ascii_bounded c). lia.
Qed.

Lemma class_within_spec (p q : ascii -> bool) :
  class_within p q = true -> forall c, p c = true -> q c = true.
Proof.
  unfold class_within. intros H c Hp.
  pose proof (proj1 (forallb_forall _ _) H c (all_ascii_complete c)) as Hc.
  cbv beta in Hc. now rewrite Hp in Hc.
Qed.

Lemma range_in_empty (q : ascii -> bool) (s : str) (i : nat) : range_in q s i i.
Proof. intros idx H1 H2. lia. Qed.

Lemma range_in_join (q : ascii -> bool) (s : str) (i j l : nat) :
  range_in q s i j -> range_in q s j l -> range_in q s i l.
Proof.
  intros H1 H2 idx Ha Hb.
  destruct (Nat.lt_ge_cases idx j); [apply H1 | apply H2]; lia.
Qed.

Section ConsumedFacts.
Variable s : str.

(** A loop of a repetition keeps every relation between where a turn
    starts and where it ends that is reflexive and transitive. *)
Lemma rep_loop_rel (T : nat -> Re.caps -> nat -> Re.caps -> Prop)
  (body : nat -> Re.caps -> Re.cont -> option (nat * Re.caps))
  (greedy : bool) (k : Re.cont) (res : nat * Re.caps) :
  (forall i c, T i c i c) ->
  (forall i c j c' l c'', T i c j c' -> T j c' l c'' -> T i c l c'') ->
  (forall i c k', body i c k' = Some res ->
                  exists j c', k' j c' = Some res /\ T i c j c') ->
  forall fuel i c,
    Re.rep_loop body greedy k fuel i c = Some res ->
    exists j c', k j c' = Some res /\ T i c j c'.
Proof.
  intros Trefl Ttrans Hbody. induction fuel as [|fuel IH]; simpl; intros i c H.
  - exists i, c. auto.
  - assert (Hturn : body i c (fun j c' =>
                      if i <? j then Re.rep_loop body greedy k fuel j c'
                      else None) = Some res ->
                    exists j c', k j c' = Some res /\ T i c j c').
    { intro Hb. apply Hbody in Hb. destruct Hb as (j1 & c1 & Hk & HT).
      destruct (i <? j1); [|discriminate].
      apply IH in Hk. destruct Hk as (j2 & c2 & Hk2 & HT2).
      exists j2, c2. split; [exact Hk2 | eapply Ttrans; eauto]. }
    destruct greedy.
    + destruct (body i c _) as [x|] eqn:Eb.
      * injection H as ->. now apply Hturn.
      * exists i, c. auto.
    + destruct (k i c) as [x|] eqn:Ek.
      * injection H as ->. exists i, c. auto.
      * now apply Hturn.
Qed.

(** The case of a pattern that consumes nothing and sets no group. *)
Ltac stay_put H :=
  split; [exact H | split; [lia | split; [auto | intros _; apply range_in_empty]]].

(** A group whose body consumes characters of [q] only spans such
    characters, and so does a whole pattern that consumes them only. *)
Lemma run_group_class (q : ascii -> bool) (lo n : nat) (r : Re.regex) :
  group_within q lo n r = true ->
  forall i c k res,
    Re.run s r i c k = Some res ->
    exists j c', k j c' = Some res
      /\ i + min_len r <= j
      /\ (group_in q lo n s c -> group_in q lo n s c')
      /\ (consumes q r = true -> range_in q s i j).
Proof.
  induction r as [|p|r1 IH1 r2 IH2|r1 IH1 r2 IH2|g r1 IH1|m r1 IH1| | | |b r1 IH1];
    simpl; intros Hg i c k res H.
  - exists i, c. stay_put H.
  - destruct (nth_error s i) as [a|] eqn:Ea; [|discriminate].
    destruct (p a) eqn:Ep; [|discriminate].
    exists (S i), c. split; [exact H|]. split; [lia|]. split; [auto|].
    intros Hc idx H1 H2. assert (idx = i) as -> by lia.
    exists a. split; [exact Ea | now apply (class_within_spec p q)].
  - apply andb_true_iff in Hg. destruct Hg as [Hg1 Hg2].
    apply (IH1 Hg1) in H. destruct H as (j1 & c1 & H & Hl1 & Hk1 & Hr1).
    apply (IH2 Hg2) in H. destruct H as (j2 & c2 & H & Hl2 & Hk2 & Hr2).
    exists j2, c2. split; [exact H|]. split; [lia|]. split; [auto|].
    intro Hc. apply andb_true_iff in Hc. destruct Hc as [Hc1 Hc2].
    eapply range_in_join; eauto.
  - apply andb_true_iff in Hg. destruct Hg as [Hg1 Hg2].
    destruct (Re.run s r1 i c k) as [x|] eqn:E1.
    + injection H as ->. apply (IH1 Hg1) in E1.
      destruct E1 as (j & c' & H & Hl & Hk & Hr).
      exists j, c'. split; [exact H|]. split; [lia|]. split; [exact Hk|].
      intro Hc. apply andb_true_iff in Hc. now apply Hr.
    + apply (IH2 Hg2) in H. destruct H as (j & c' & H & Hl & Hk & Hr).
      exists j, c'. split; [exact H|]. split; [lia|]. split; [exact Hk|].
      intro Hc. apply andb_true_iff in Hc. now apply Hr.
  - change (Re.rep_loop (Re.run s r1) g k (S (length s - i)) i c = Some res) in H.
    apply (rep_loop_rel
             (fun i c j c' =>
                i <= j /\ (group_in q lo n s c -> group_in q lo n s c')
                /\ (consumes q r1 = true -> range_in q s i j))) in H.
    + destruct H as (j & c' & H & Hl & Hk & Hr).
      exists j, c'. split; [exact H|]. split; [lia|]. auto.
    + intros i0 c0. split; [lia|]. split; [auto | intros _; apply range_in_empty].
    + intros i0 c0 j0 c1 l0 c2 (Ha & Hb & Hc) (Ha' & Hb' & Hc').
      split; [lia|]. split; [auto|].
      intro Hq. eapply range_in_join; eauto.
    + intros i0 c0 k' Hb. apply (IH1 Hg) in Hb.
      destruct Hb as (j & c' & Hb & Hl & Hk & Hr).
      exists j, c'. split; [exact Hb|]. split; [lia|]. auto.
  - apply andb_true_iff in Hg. destruct Hg as [Hm Hg].
    apply (IH1 Hg) in H. destruct H as (j & c' & H & Hl & Hk & Hr).
    exists j, ((m, (i, j)) :: c'). split; [exact H|]. split; [exact Hl|].
    split; [|exact Hr].
    intros Hc a b0. simpl. destruct (Nat.eqb m n).
    + apply andb_true_iff in Hm. destruct Hm as [Hm Hlo].
      apply Nat.leb_le in Hlo.
      intros [= <- <-]. split; [lia | now apply Hr].
    + now apply Hk.
  - destruct (Re.at_bol s i); [|discriminate].
    exists i, c. stay_put H.
  - destruct (Re.at_eol s i); [|discriminate].
    exists i, c. stay_put H.
  - destruct (Nat.eqb i (length s)); [|discriminate].
    exists i, c. stay_put H.
  - destruct (Re.run s r1 i c _) as [[j1 c1]|] eqn:E1.
    + destruct b; [|discriminate]. apply (IH1 Hg) in E1.
      destruct E1 as (j & c' & [= -> ->] & _ & Hk & _).
      exists i, c1. split; [exact H | split; [lia | split; [exact Hk | intros _; apply range_in_empty]]].
    + destruct b; [discriminate|].
      exists i, c. stay_put H.
Qed.

(** A pattern that must consume a character of [q] matches nowhere in a
    subject without such a character. *)
Lemma run_must_hit (q : ascii -> bool) (r : Re.regex) :
  must_hit q r = true ->
  forall i c k res,
    Re.run s r i c k = Some res ->
    exists ch, In ch s /\ q ch = true.
Proof.
  induction r as [|p|r1 IH1 r2 IH2|r1 IH1 r2 IH2|g r1 IH1|m r1 IH1| | | |b r1 IH1];
    simpl; intros Hm i c k res H; try discriminate.
  - destruct (nth_error s i) as [a|] eqn:Ea; [|discriminate].
    destruct (p a) eqn:Ep; [|discriminate].
    exists a. split; [eapply nth_error_In; eauto | now apply (class_within_spec p q)].
  - apply orb_true_iff in Hm. destruct Hm as [Hm | Hm].
    + eapply IH1; eauto.
    + apply run_post_holds in H. destruct H as (j & c' & H & _).
      eapply IH2; eauto.
  - apply andb_true_iff in Hm. destruct Hm as [Hm1 Hm2].
    destruct (Re.run s r1 i c k) as [x|] eqn:E1.
    + eapply IH1; eauto.
    + eapply IH2; eauto.
  - eapply IH1; eauto.
Qed.

Lemma match_at_group (q : ascii -> bool) (lo n : nat) (r : Re.regex) (i : nat)
  (m : Re.mobj) :
  group_within q lo n r = true -> Re.match_at r s i = Some m ->
  group_in q lo n s (Re.m_caps m).
Proof.
  unfold Re.match_at. intros Hg.
  destruct (Re.run s r i [] _) as [[j c]|] eqn:E; [|discriminate].
  intros [= <-]. simpl. apply (run_group_class q lo n r Hg) in E.
  destruct E as (j' & c' & [= -> ->] & _ & Hk & _).
  apply Hk. intros a b0. discriminate.
Qed.

Lemma scan_from_group (q : ascii -> bool) (lo n : nat) (r : Re.regex) :
  group_within q lo n r = true ->
  forall fuel i m,
    Re.scan_from fuel r s i = Some m -> group_in q lo n s (Re.m_caps m).
Proof.
  intro Hg. induction fuel as [|fuel IH]; simpl; intros i m;
    destruct (Re.match_at r s i) as [m0|] eqn:E.
  - intros [= <-]. eapply match_at_group; eauto.
  - discriminate.
  - intros [= <-]. eapply match_at_group; eauto.
  - apply IH.
Qed.

Lemma scan_from_none (q : ascii -> bool) (r : Re.regex) :
  must_hit q r = true ->
  (forall ch, In ch s -> q ch = false) ->
  forall fuel i, Re.scan_from fuel r s i = None.
Proof.
  intros Hm Hs.
  assert (Hat : forall i, Re.match_at r s i = None).
  { intro i. unfold Re.match_at.
    destruct (Re.run s r i [] _) as [[j c]|] eqn:E; [|reflexivity].
    apply (run_must_hit q r Hm) in E. destruct E as (ch & Hin & Hq).
    rewrite (Hs ch Hin) in Hq. discriminate. }
  induction fuel as [|fuel IH]; simpl; intro i; rewrite Hat; auto.
Qed.

End ConsumedFacts.

Lemma range_in_firstn (q : ascii -> bool) (content : str) (endpos a b : nat) :
  range_in q (firstn endpos content) a b -> range_in q content a b.
Proof.
  intros H idx Ha Hb. destruct (H idx Ha Hb) as (ch & Hn & Hq).
  exists ch. split; [|exact Hq].
  rewrite nth_error_firstn in Hn. destruct (idx <? endpos); congruence.
Qed.

Lemma search_group (q : ascii -> bool) (lo n : nat) (r : Re.regex)
  (content : str) (pos endpos : nat) (m : Re.mobj) :
  group_within q lo n r = true ->
  Re.search r content pos endpos = Some m ->
  group_in q lo n content (Re.m_caps m).
Proof.
  unfold Re.search. intros Hg. destruct (pos <=? _); [|discriminate].
  intros H a b Hs.
  destruct (scan_from_group _ q lo n r Hg _ _ _ H a b Hs) as [Hl Hr].
  split; [exact Hl | eapply range_in_firstn; eauto].
Qed.

Lemma finditer_group (q : ascii -> bool) (lo n : nat) (r : Re.regex)
  (content : str) (m : Re.mobj) :
  group_within q lo n r = true ->
  In m (Re.finditer r content) ->
  group_in q lo n content (Re.m_caps m).
Proof.
  intro Hg. unfold Re.finditer. generalize 0 as pos.
  induction (S (length content)) as [|fuel IH]; simpl; intros pos H;
    [contradiction|].
  destruct (Re.search r content pos (length content)) as [m0|] eqn:E;
    [|contradiction].
  destruct H as [<- | H]; [eapply search_group; eauto | eapply IH; eauto].
Qed.

(** The text of a group that is set: its length and its characters. *)
Lemma group_text (q : ascii -> bool) (lo n : nat) (content : str) (m : Re.mobj) :
  group_in q lo n content (Re.m_caps m) ->
  Re.span (Re.m_caps m) n <> None ->
  lo <= length (Re.group content m n)
  /\ Forall (fun ch => q ch = true) (Re.group content m n).
Proof.
  intros Hg Hs. unfold Re.group, Re.group_opt.
  destruct (Re.span (Re.m_caps m) n) as [[a b]|] eqn:E; [|congruence].
  destruct (Hg a b E) as [Hl Hr]. unfold slice.
  split.
  - rewrite length_firstn, length_skipn.
    destruct (Nat.eq_dec a b) as [->|Hne]; [lia|].
    destruct (Hr (b - 1)) as (ch & Hn & _); [lia | lia |].
    assert (b - 1 < length content) by (apply nth_error_Some; congruence).
    lia.
  - apply Forall_forall. intros ch Hin.
    apply In_nth_error in Hin. destruct Hin as [k Hk].
    rewrite nth_error_firstn, nth_error_skipn in Hk.
    destruct (Nat.ltb_spec k (b - a)); [|discriminate].
    destruct (Hr (a + k)) as (ch' & Hn & Hq); [lia | lia |].
    congruence.
Qed.

(** ** Names and durations of the gtest records *)

Lemma lstrip_head (s : str) :
  match s with c :: _ => isspace c = false | [] => True end -> lstrip s = s.
Proof. destruct s as [|c s]; simpl; [auto | intros ->; reflexivity]. Qed.

Lemma strip_no_space (s : str) :
  Forall (fun ch => negb (isspace ch) = true) s -> strip s = s.
Proof.
  intro H.
  assert (Hhead : forall l, Forall (fun ch => negb (isspace ch) = true) l ->
                            lstrip l = l).
  { intros l Hl. apply lstrip_head. destruct l as [|c l]; [exact I|].
    inversion Hl as [|? ? Hc _]. now apply negb_true_iff in Hc. }
  unfold strip, rstrip. rewrite (Hhead s H).
  rewrite (Hhead (rev s)); [apply rev_involutive|].
  apply Forall_forall. intros ch Hin. apply in_rev in Hin.
  exact (proj1 (Forall_forall _ _) H ch Hin).
Qed.

Lemma run_match_name (content : str) (m : Re.mobj) :
  In m (GoogleTestParser.run_matches content) ->
  strip (Re.group content m 1) = Re.group content m 1
  /\ 1 <= length (Re.group content m 1)
  /\ Forall (fun ch => isspace ch = false) (Re.group content m 1).
Proof.
  intro Hm. unfold GoogleTestParser.run_matches in Hm.
  assert (Hg : group_within (fun c => negb (isspace c)) 1 1
                 GoogleTestParser.run_pattern = true)
    by (vm_compute; reflexivity).
  assert (Hs : Re.span (Re.m_caps m) 1 <> None).
  { apply (finditer_from_facts _ _ _ _ _ Hm). vm_compute. now left. }
  destruct (group_text _ 1 1 content m (finditer_group _ 1 1 _ _ _ Hg Hm) Hs)
    as [Hl Hf].
  split; [now apply strip_no_space|]. split; [exact Hl|].
  apply Forall_forall. intros ch Hin.
  apply negb_true_iff. exact (proj1 (Forall_forall _ _) Hf ch Hin).
Qed.

(** X6: the name of a gtest record is the text captured after a start
    marker as it is: not empty and free of white space. *)
Theorem X6_gtest_name_shape (content : str) (t : test_case) :
  emits GoogleTest content t ->
  name t <> []
  /\ Forall (fun ch => isspace ch = false) (name t)
  /\ exists m, In m (GoogleTestParser.run_matches content)
               /\ name t = Re.group content m 1.
Proof.
  intros (l & Hp & Ht). simpl in Hp.
  destruct (gtest_parse_In _ _ _ Hp Ht) as (rm & m & _ & Hm & ->).
  rewrite gtest_case_name.
  destruct (run_match_name content m Hm) as (Hs & Hl & Hf).
  rewrite Hs. split; [|split; [exact Hf | now exists m]].
  destruct (Re.group content m 1); [simpl in Hl; lia | discriminate].
Qed.

Lemma X6_witness :
  let t := {| name := lit "T"; status := failed; duration_ms := 4%Z;
              error_log := Some (lit "boom") |} in
  emits GoogleTest Logs.gtest_fail t
  /\ name t <> []
  /\ Forall (fun ch => isspace ch = false) (name t).
Proof.
  intro t.
  assert (H : emits GoogleTest Logs.gtest_fail t).
  { exists [t]. split; [vm_compute; reflexivity | now left]. }
  split; [exact H|].
  destruct (X6_gtest_name_shape Logs.gtest_fail t H) as (H1 & H2 & _).
  split; assumption.
Defined.

Lemma int_of_digits_nonneg (s : str) :
  Forall (fun ch => isdigit ch = true) s -> (0 <= int_of_digits s)%Z.
Proof.
  assert (H : forall l acc, (0 <= acc)%Z ->
                Forall (fun ch => isdigit ch = true) l ->
                (0 <= fold_left (fun a c => 10 * a + digit_val c) l acc)%Z).
  { induction l as [|c l IH]; cbn [fold_left]; intros acc Ha Hl; [exact Ha|].
    inversion Hl as [|? ? Hc Hl']. subst. apply IH; [|exact Hl'].
    unfold isdigit in Hc. apply andb_true_iff in Hc. destruct Hc as [Hc _].
    apply Nat.leb_le in Hc. unfold digit_val. lia. }
  intro Hs. unfold int_of_digits. apply H; [lia | exact Hs].
Qed.

Lemma gtest_marker_duration (content : str) (mk : Re.mobj) :
  In mk (Re.finditer GoogleTestParser.ok_pattern content)
  \/ In mk (Re.finditer GoogleTestParser.failed_pattern content) ->
  (0 <= int_of_digits (Re.group content mk 2))%Z.
Proof.
  assert (Hok : group_within isdigit 1 2 GoogleTestParser.ok_pattern = true)
    by (vm_compute; reflexivity).
  assert (Hfl : group_within isdigit 1 2 GoogleTestParser.failed_pattern = true)
    by (vm_compute; reflexivity).
  intros [Hm | Hm]; apply int_of_digits_nonneg.
  - refine (proj2 (group_text _ 1 2 content mk
                     (finditer_group _ 1 2 _ _ _ Hok Hm) _)).
    apply (finditer_from_facts _ _ _ _ _ Hm). vm_compute. right. now left.
  - refine (proj2 (group_text _ 1 2 content mk
                     (finditer_group _ 1 2 _ _ _ Hfl Hm) _)).
    apply (finditer_from_facts _ _ _ _ _ Hm). vm_compute. right. now left.
Qed.

(** Where the status and the duration of a gtest record come from. *)
Lemma gtest_case_marker (content : str) (rm : GoogleTestParser.result_dict)
  (m : Re.mobj) (t : test_case) :
  GoogleTestParser.result_map content = Ok rm ->
  t = GoogleTestParser.case_of content (GoogleTestParser.run_matches content)
        rm m ->
  (GoogleTestParser.find_result rm (Re.m_start m) (name t) = None
   /\ status t = failed /\ duration_ms t = 0%Z)
  \/ exists mk,
       ((In mk (Re.finditer GoogleTestParser.ok_pattern content)
         /\ status t = passed)
        \/ (In mk (Re.finditer GoogleTestParser.failed_pattern content)
            /\ status t = failed))
       /\ Re.m_start m < Re.m_start mk
       /\ strip (Re.group content mk 1) = name t
       /\ duration_ms t = int_of_digits (Re.group content mk 2).
Proof.
  intros Hrm ->. rewrite gtest_case_name. unfold GoogleTestParser.case_of.
  destruct (GoogleTestParser.find_result _ _ _) as [[pos res]|] eqn:E.
  - right. unfold GoogleTestParser.find_result in E. apply find_some in E.
    destruct E as [Hin Hp]. simpl in Hp. apply andb_true_iff in Hp.
    destruct Hp as [Hlt Hn]. apply Nat.ltb_lt in Hlt. apply str_eqb_true in Hn.
    pose proof (proj1 (Forall_forall _ _) (gtest_result_map_entries _ _ Hrm)
                  _ Hin) as (mk & Hk & Hpos & Hname & Hd).
    simpl in *. exists mk. split; [exact Hk|].
    split; [lia|]. split; [congruence | exact Hd].
  - left. auto.
Qed.

(** X9: the status and the duration of a gtest record are either failed
    and 0, when the lookup finds nothing, or those of an OK or FAILED
    marker of the record's name that starts after the start marker: passed
    only from an OK marker, with the milliseconds that marker states. *)
Theorem X9_gtest_result_backed_by_marker (content : str)
  (l : list test_case) (rm : GoogleTestParser.result_dict) (i : nat)
  (m : Re.mobj) (t : test_case) :
  GoogleTestParser.parse content = Ok l ->
  GoogleTestParser.result_map content = Ok rm ->
  nth_error (GoogleTestParser.run_matches content) i = Some m ->
  nth_error l i = Some t ->
  (GoogleTestParser.find_result rm (Re.m_start m) (name t) = None
   /\ status t = failed /\ duration_ms t = 0%Z)
  \/ exists mk,
       ((In mk (Re.finditer GoogleTestParser.ok_pattern content)
         /\ status t = passed)
        \/ (In mk (Re.finditer GoogleTestParser.failed_pattern content)
            /\ status t = failed))
       /\ Re.m_start m < Re.m_start mk
       /\ strip (Re.group content mk 1) = name t
       /\ duration_ms t = int_of_digits (Re.group content mk 2).
Proof.
  intros Hp Hrm Hm Ht.
  destruct (gtest_parse_nth _ _ _ _ Hp Hm) as (rm' & Hrm' & E).
  assert (rm' = rm) by congruence. subst rm'.
  rewrite E in Ht. apply some_eq in Ht.
  apply (gtest_case_marker content rm m t Hrm). now symmetry.
Qed.

Lemma X9_witness :
  let m := {| Re.m_start := 0; Re.m_end := 14; Re.m_caps := [(1, (13, 14))] |} in
  let t := {| name := lit "A"; status := failed; duration_ms := 9%Z;
              error_log := Some (lit "[ RUN      ] B
[       OK ] B (4 ms)") |} in
  nth_error (GoogleTestParser.run_matches Logs.interleaved) 0 = Some m
  /\ fmap (fun l => nth_error l 0) (GoogleTestParser.parse Logs.interleaved)
     = Ok (Some t)
  /\ exists mk,
       In mk (Re.finditer GoogleTestParser.failed_pattern Logs.interleaved)
       /\ Re.m_start m < Re.m_start mk
       /\ strip (Re.group Logs.interleaved mk 1) = name t
       /\ duration_ms t = int_of_digits (Re.group Logs.interleaved mk 2).
Proof.
  intros m t.
  assert (Hm : nth_error (GoogleTestParser.run_matches Logs.interleaved) 0
               = Some m) by (vm_compute; reflexivity).
  assert (Hp : exists l, GoogleTestParser.parse Logs.interleaved = Ok l
                         /\ nth_error l 0 = Some t)
    by (eexists; vm_compute; split; reflexivity).
  destruct Hp as (l & Hp & Ht).
  assert (Hrm : exists rm, GoogleTestParser.result_map Logs.interleaved = Ok rm)
    by (eexists; vm_compute; reflexivity).
  destruct Hrm as (rm & Hrm).
  split; [exact Hm|]. split; [rewrite Hp; cbn [fmap]; now rewrite Ht|].
  destruct (X9_gtest_result_backed_by_marker Logs.interleaved l rm 0 m t
              Hp Hrm Hm Ht)
    as [(_ & _ & Hd) | (mk & [[_ Hs] | [Hin _]] & Hrest)].
  - discriminate Hd.
  - discriminate Hs.
  - exists mk. split; [exact Hin | exact Hrest].
Defined.

(** ** Durations are not negative *)

Lemma binary_round_aux_sign (m e : Z) (l : location) (sg : bool) (mm : positive)
  (ee : Z) :
  binary_round_aux F64.prec F64.emax false m e l = S754_finite sg mm ee ->
  sg = false.
Proof.
  unfold binary_round_aux.
  destruct (shr_fexp F64.prec F64.emax m e l) as [mrs e'].
  destruct (shr_fexp F64.prec F64.emax _ e' loc_Exact) as [mrs'' e''].
  destruct (shr_m mrs''); try discriminate.
  destruct (Z.leb e'' _); [|discriminate]. now intros [= <- _ _].
Qed.

Lemma of_str_sign (s : str) (sg : bool) (mm : positive) (ee : Z) :
  F64.of_str s = Ok (S754_finite sg mm ee) -> sg = false.
Proof.
  unfold F64.of_str.
  destruct (F64.scan s false 0 0 0) as [[n k]|]; simpl; [|discriminate].
  unfold F64.of_decimal. destruct n as [|p|p]; try discriminate.
  destruct (SFdiv_core_binary F64.prec F64.emax (Z.pos p) 0 _ 0) as [[q e] l].
  intros [= H]. now apply binary_round_aux_sign in H.
Qed.

Lemma millis_nonneg (s : str) (z : Z) : F64.millis s = Ok z -> (0 <= z)%Z.
Proof.
  unfold F64.millis.
  destruct (F64.of_str s) as [x|] eqn:Ex; cbn [bind]; [|discriminate].
  replace (F64.of_Z 1000) with (S754_finite false 8796093022208000 (-43))
    by (vm_compute; reflexivity).
  destruct x as [sx|sx| |sx mx ex]; unfold F64.mul, SFmul, F64.to_int;
    try discriminate; try (intros [= <-]; lia).
  apply of_str_sign in Ex. subst sx. cbn [xorb].
  destruct (binary_round_aux _ _ false _ _ _) as [s0|s0| |s0 m0 e0] eqn:Er;
    try discriminate; try (intros [= <-]; lia).
  apply binary_round_aux_sign in Er. subst s0.
  intros [= <-].
  destruct e0; [apply Z.shiftl_nonneg | apply Z.shiftl_nonneg
               | apply Z.shiftr_nonneg]; lia.
Qed.

Lemma pytest_case_duration (content : str) (m : Re.mobj) (t : test_case) :
  PytestParser.case_of content m = Ok t -> (0 <= duration_ms t)%Z.
Proof.
  unfold PytestParser.case_of.
  destruct (PytestParser.duration_of _) as [d|] eqn:Ed; simpl; [|discriminate].
  intros [= <-]. simpl. unfold PytestParser.duration_of in Ed.
  destruct (Re.group_opt content m 4) as [g|]; [|injection Ed as <-; lia].
  destruct (truthy g); [|injection Ed as <-; lia].
  destruct (F64.millis g) as [z|[|]] eqn:Ez.
  - injection Ed as <-. now apply millis_nonneg in Ez.
  - injection Ed as <-. lia.
  - discriminate.
Qed.

(** X7: whichever parser returns a record, its [duration_ms] is not
    negative. *)
Theorem X7_duration_not_negative (p : TestCaseParser) (content : str)
  (t : test_case) :
  emits p content t -> (0 <= duration_ms t)%Z.
Proof.
  assert (Hgt : forall l, GoogleTestParser.parse content = Ok l -> In t l ->
                          (0 <= duration_ms t)%Z).
  { intros l Hp Ht.
    destruct (gtest_parse_In _ _ _ Hp Ht) as (rm & m & Hrm & _ & Hc).
    destruct (gtest_case_marker content rm m t Hrm Hc)
      as [(_ & _ & ->) | (mk & Hk & _ & _ & ->)]; [lia|].
    apply gtest_marker_duration. destruct Hk as [[H _] | [H _]]; auto. }
  assert (Hgo : forall l, GoTestParser.parse content = Ok l -> In t l ->
                          (0 <= duration_ms t)%Z).
  { intros l Hp Ht.
    destruct (go_record_terminal _ _ _ Hp Ht) as (m & _ & _ & _ & Hz).
    now apply millis_nonneg in Hz. }
  assert (Hpy : forall l, PytestParser.parse content = Ok l -> In t l ->
                          (0 <= duration_ms t)%Z).
  { unfold PytestParser.parse. intros l Hp Ht.
    destruct (pytest_cases_In _ _ _ _ Hp Ht) as (m & _ & Hc).
    now apply pytest_case_duration in Hc. }
  intros (l & Hp & Ht). destruct p; simpl in Hp.
  - eauto.
  - eauto.
  - eauto.
  - destruct (generic_parse_cases _ _ Hp) as [H | [H | H]]; eauto.
Qed.

Lemma X7_witness :
  let t := {| name := lit "name"; status := passed; duration_ms := 10%Z;
              error_log := None |} in
  emits GoTest Logs.go_pass t /\ (0 <= duration_ms t)%Z.
Proof.
  intro t.
  assert (H : emits GoTest Logs.go_pass t).
  { exists [t]. split; [vm_compute; reflexivity | now left]. }
  split; [exact H | exact (X7_duration_not_negative GoTest Logs.go_pass t H)].
Defined.

(** ** When a record carries an error log *)

Lemma firstn_not_nil (A : Type) (n : nat) (l : list A) :
  0 < n -> l <> [] -> firstn n l <> [].
Proof. destruct n, l; simpl; intros; try lia; congruence. Qed.

Lemma join_nl_not_nil (l0 : str) (ls : list str) :
  l0 <> [] -> join_nl (l0 :: ls) <> [].
Proof.
  intro H. destruct l0 as [|c l0]; [congruence|].
  destruct ls; simpl; discriminate.
Qed.

Lemma gtest_case_log_status (content : str)
  (rm : GoogleTestParser.result_dict) (m : Re.mobj) (e : str) :
  error_log (GoogleTestParser.case_of content
               (GoogleTestParser.run_matches content) rm m) = Some e ->
  status (GoogleTestParser.case_of content
            (GoogleTestParser.run_matches content) rm m) = failed
  /\ e <> [].
Proof.
  unfold GoogleTestParser.case_of.
  destruct (GoogleTestParser.find_result _ _ _) as [[q r]|];
    cbn [error_log status].
  - destruct (GoogleTestParser.r_status r); try discriminate.
    destruct (truthy _) eqn:Et; [|discriminate]. intro He; apply some_eq in He; subst e.
    split; [reflexivity|]. apply truthy_true in Et.
    apply firstn_not_nil; [lia | exact Et].
  - unfold GoogleTestParser.missing_error_log.
    destruct (Re.search _ content _ _) as [tm|].
    + destruct (truthy _) eqn:Et; [|discriminate]. intro He; apply some_eq in He; subst e.
      split; [reflexivity|]. apply truthy_true in Et.
      apply firstn_not_nil; [lia | exact Et].
    + destruct (GoogleTestParser.error_lines _) as [|l0 ls] eqn:El;
        [discriminate|].
      intro He; apply some_eq in He; subst e. split; [reflexivity|].
      apply firstn_not_nil; [lia|].
      change (firstn 20 (l0 :: ls)) with (l0 :: firstn 19 ls).
      apply join_nl_not_nil.
      assert (Hin : In l0 (GoogleTestParser.error_lines
                             (strip (slice content (Re.m_end m)
                                (GoogleTestParser.next_run_start content
                                   (GoogleTestParser.run_matches content)
                                   (Re.m_start m))))))
        by (rewrite El; now left).
      rewrite error_lines_remaining in Hin.
      apply remaining_lines_In in Hin. destruct Hin as (raw & _ & _ & Hne & _).
      exact Hne.
Qed.

(** X8: a gtest record is passed or failed, never skipped; a gtest record
    that carries an error log is failed and the log is not empty; a pytest
    record that carries an error log is failed. *)
Theorem X8_error_log_only_when_failed (content : str) (t : test_case) :
  (emits GoogleTest content t ->
   status t <> skipped
   /\ forall e, error_log t = Some e -> status t = failed /\ e <> [])
  /\ (emits Pytest content t ->
      forall e, error_log t = Some e -> status t = failed).
Proof.
  split.
  - intros (l & Hp & Ht). simpl in Hp.
    destruct (gtest_parse_In _ _ _ Hp Ht) as (rm & m & Hrm & _ & Hc). split.
    + destruct (gtest_case_marker content rm m t Hrm Hc)
        as [(_ & -> & _) | (mk & [[_ ->] | [_ ->]] & _)]; discriminate.
    + subst t. intros e. apply gtest_case_log_status.
  - intros (l & Hp & Ht) e He. simpl in Hp. unfold PytestParser.parse in Hp.
    destruct (pytest_cases_In _ _ _ _ Hp Ht) as (m & _ & Hc).
    unfold PytestParser.case_of in Hc.
    destruct (PytestParser.duration_of _) as [d|]; simpl in Hc; [|discriminate].
    injection Hc as <-. simpl in *.
    destruct (PytestParser.status_map_get _); [discriminate | reflexivity
                                               | discriminate].
Qed.

Lemma X8_witness :
  let t := {| name := lit "T"; status := failed; duration_ms := 4%Z;
              error_log := Some (lit "boom") |} in
  emits GoogleTest Logs.gtest_fail t
  /\ error_log t = Some (lit "boom")
  /\ status t = failed /\ lit "boom" <> [].
Proof.
  intro t.
  assert (H : emits GoogleTest Logs.gtest_fail t).
  { exists [t]. split; [vm_compute; reflexivity | now left]. }
  split; [exact H|]. split; [reflexivity|].
  exact (proj2 (proj1 (X8_error_log_only_when_failed Logs.gtest_fail t) H)
           (lit "boom") eq_refl).
Defined.

(** ** The Go parser: one record per name, the last terminal line wins *)

(** X10: the Go parser returns each name at most once; the names of its
    records are, in order, the first occurrences of the names of the start
    lines, without the names that no terminal line carries. *)
Theorem X10_go_one_record_per_name (content : str) (l : list test_case) :
  GoTestParser.parse content = Ok l ->
  NoDup (map name l)
  /\ exists rm,
       GoTestParser.result_map content = Ok rm
       /\ map name l
          = filter (fun n => match Dict.get str_eqb rm n with
                             | Some _ => true
                             | None => false
                             end)
                   (first_occurrences [] (go_started content)).
Proof.
  unfold GoTestParser.parse.
  destruct (GoTestParser.result_map content) as [rm|e]; simpl; [|discriminate].
  intros [= <-]. rewrite go_build_names. split.
  - apply NoDup_filter. apply first_occurrences_spec.
  - exists rm. split; reflexivity.
Qed.

Lemma X10_witness :
  let log := lit "=== RUN   A
=== RUN   B
=== RUN   A
--- PASS: A (0.5s)" in
  exists l,
    GoTestParser.parse log = Ok l
    /\ go_started log = [lit "A"; lit "B"; lit "A"]
    /\ map name l = [lit "A"]
    /\ NoDup (map name l).
Proof.
  intro log.
  assert (H : exists l, GoTestParser.parse log = Ok l
                        /\ go_started log = [lit "A"; lit "B"; lit "A"]
                        /\ map name l = [lit "A"]).
  { eexists. vm_compute. repeat split; reflexivity. }
  destruct H as (l & Hp & Hs & Hn). exists l.
  split; [exact Hp|]. split; [exact Hs|]. split; [exact Hn|].
  exact (proj1 (X10_go_one_record_per_name log l Hp)).
Defined.

(** X11: when several terminal lines carry the name of a Go record, the
    record has the status and the milliseconds of the last of them. *)
Theorem X11_go_last_terminal_line_wins (content : str) (l : list test_case)
  (t : test_case) :
  GoTestParser.parse content = Ok l -> In t l ->
  exists pre m post,
    Re.finditer GoTestParser.result_pattern content = pre ++ m :: post
    /\ strip (Re.group content m 2) = name t
    /\ (forall m', In m' post -> strip (Re.group content m' 2) <> name t)
    /\ status t = GoTestParser.status_map_get (lower (Re.group content m 1))
    /\ F64.millis (Re.group content m 3) = Ok (duration_ms t).
Proof.
  intros Hp Ht.
  destruct (go_parse_In _ _ _ Hp Ht)
    as (rm & m0 & r & Hrm & _ & _ & Hget & Hst & Hd & _).
  unfold GoTestParser.result_map in Hrm.
  destruct (go_fill_last content _ _ _ Hrm _ _ Hget)
    as [(pre & m & post & Hms & Hn & Hlast & Hs & Hz) | (Hd0 & _)].
  - exists pre, m, post. rewrite Hst, Hd. auto.
  - discriminate Hd0.
Qed.

Lemma X11_witness :
  let log := lit "=== RUN   A
--- FAIL: A (0.25s)
--- PASS: A (0.5s)" in
  let t := {| name := lit "A"; status := passed; duration_ms := 500%Z;
              error_log := Some [] |} in
  GoTestParser.parse log = Ok [t]
  /\ length (Re.finditer GoTestParser.result_pattern log) = 2
  /\ exists pre m post,
       Re.finditer GoTestParser.result_pattern log = pre ++ m :: post
       /\ strip (Re.group log m 2) = name t
       /\ (forall m', In m' post -> strip (Re.group log m' 2) <> name t)
       /\ status t = GoTestParser.status_map_get (lower (Re.group log m 1))
       /\ F64.millis (Re.group log m 3) = Ok (duration_ms t).
Proof.
  intros log t.
  assert (Hp : GoTestParser.parse log = Ok [t]) by (vm_compute; reflexivity).
  split; [exact Hp|]. split; [vm_compute; reflexivity|].
  exact (X11_go_last_terminal_line_wins log [t] t Hp (or_introl eq_refl)).
Defined.

Lemma go_fill_ok (content : str) :
  forall ms d,
    (exists rm, GoTestParser.fill_result_map content ms d = Ok rm)
    <-> forall m, In m ms -> exists z, F64.millis (Re.group content m 3) = Ok z.
Proof.
  induction ms as [|m ms IH]; simpl; intro d.
  - split; [intros _ m [] | intros _; now exists d].
  - destruct (F64.millis (Re.group content m 3)) as [z|e] eqn:Ez; simpl.
    + rewrite IH. split.
      * intros H m' [<- | Hm']; [now exists z | auto].
      * intros H m' Hm'. apply H. now right.
    + split; [intros [rm H]; discriminate|].
      intro H. destruct (H m (or_introl eq_refl)) as [z Hz]. congruence.
Qed.

(** X12: the Go parser returns a list exactly when the seconds of every
    terminal line of the text convert, whether or not a start line names
    that terminal line; otherwise the exception of the conversion escapes. *)
Theorem X12_go_parse_returns_iff (content : str) :
  (exists l, GoTestParser.parse content = Ok l)
  <-> forall m, In m (Re.finditer GoTestParser.result_pattern content) ->
                exists z, F64.millis (Re.group content m 3) = Ok z.
Proof.
  rewrite <- (go_fill_ok content _ []). unfold GoTestParser.parse.
  fold (GoTestParser.result_map content).
  destruct (GoTestParser.result_map content) as [rm|e]; simpl.
  - split; [intros _; now exists rm | intros _; eexists; reflexivity].
  - split; intros [x H]; discriminate.
Qed.

Lemma X12_witness :
  (forall m, In m (Re.finditer GoTestParser.result_pattern Logs.go_pass) ->
             exists z, F64.millis (Re.group Logs.go_pass m 3) = Ok z)
  /\ exists l, GoTestParser.parse Logs.go_pass = Ok l.
Proof.
  assert (H : exists l, GoTestParser.parse Logs.go_pass = Ok l)
    by (eexists; vm_compute; reflexivity).
  split; [|exact H].
  exact (proj1 (X12_go_parse_returns_iff Logs.go_pass) H).
Defined.

(** ** The pytest parser: one record per result line *)

Lemma pytest_case_fields (content : str) (m : Re.mobj) (t : test_case) :
  PytestParser.case_of content m = Ok t ->
  name t = Re.group content m 1 ++ lit "::" ++ Re.group content m 2
  /\ status t = PytestParser.status_map_get (lower (Re.group content m 3)).
Proof.
  unfold PytestParser.case_of.
  destruct (PytestParser.duration_of _) as [d|]; cbn [bind]; [|discriminate].
  intro H. apply (f_equal (fun r => match r with Ok x => Some x | _ => None end))
    in H. apply some_eq in H. subst t. split; reflexivity.
Qed.

Lemma pytest_cases_fields (content : str) (ms : list Re.mobj) :
  forall l,
    PytestParser.cases content ms = Ok l ->
    map name l
    = map (fun m => Re.group content m 1 ++ lit "::" ++ Re.group content m 2) ms
    /\ map status l
       = map (fun m => PytestParser.status_map_get
                         (lower (Re.group content m 3))) ms.
Proof.
  induction ms as [|m ms IH]; cbn [PytestParser.cases]; intros l H.
  - injection H as <-. split; reflexivity.
  - destruct (PytestParser.case_of content m) as [t|] eqn:Ec; cbn [bind] in H;
      [|discriminate].
    destruct (PytestParser.cases content ms) as [ts|]; cbn [bind] in H;
      [|discriminate].
    injection H as <-. destruct (IH ts eq_refl) as [Hn Hs].
    destruct (pytest_case_fields _ _ _ Ec) as [Hn0 Hs0].
    cbn [map]. rewrite Hn, Hs, Hn0, Hs0. split; reflexivity.
Qed.

Lemma pytest_duration_no_value_error (d : option str) :
  PytestParser.duration_of d <> Raise ValueError.
Proof.
  unfold PytestParser.duration_of. destruct d as [g|]; [|discriminate].
  destruct (truthy g); [|discriminate].
  destruct (F64.millis g) as [z|[|]]; discriminate.
Qed.

Lemma pytest_cases_no_value_error (content : str) (ms : list Re.mobj) :
  PytestParser.cases content ms <> Raise ValueError.
Proof.
  induction ms as [|m ms IH]; cbn [PytestParser.cases]; [discriminate|].
  destruct (PytestParser.case_of content m) as [t|e] eqn:Ec; cbn [bind].
  - destruct (PytestParser.cases content ms) as [ts|e]; cbn [bind];
      [discriminate | exact IH].
  - unfold PytestParser.case_of in Ec.
    pose proof (pytest_duration_no_value_error (Re.group_opt content m 4)) as Hd.
    destruct (PytestParser.duration_of _) as [d|e']; cbn [bind] in Ec;
      [discriminate|].
    injection Ec as <-. intro Heq. apply Hd. injection Heq as ->. reflexivity.
Qed.

(** X13: the pytest parser returns one record per result line, in order and
    with repeated names kept; the name is the file name, two colons and the
    case name, the status is read off the outcome word; ValueError never
    escapes it. *)
Theorem X13_pytest_one_record_per_line (content : str) :
  (forall l,
      PytestParser.parse content = Ok l ->
      map name l
      = map (fun m => Re.group content m 1 ++ lit "::" ++ Re.group content m 2)
            (Re.finditer PytestParser.pytest_pattern content)
      /\ map status l
         = map (fun m => PytestParser.status_map_get
                           (lower (Re.group content m 3)))
               (Re.finditer PytestParser.pytest_pattern content))
  /\ PytestParser.parse content <> Raise ValueError.
Proof.
  split.
  - intros l H. now apply pytest_cases_fields.
  - apply pytest_cases_no_value_error.
Qed.

Lemma X13_witness :
  let log := lit "a.py::t PASSED
a.py::t ERROR [ 50%] [1.2.3s]" in
  exists l,
    PytestParser.parse log = Ok l
    /\ map name l = [lit "a.py::t"; lit "a.py::t"]
    /\ map status l = [passed; failed]
    /\ map duration_ms l = [0%Z; 0%Z].
Proof.
  intro log.
  assert (H : exists l, PytestParser.parse log = Ok l
                        /\ map duration_ms l = [0%Z; 0%Z]).
  { eexists. vm_compute. split; reflexivity. }
  destruct H as (l & Hp & Hd). exists l. split; [exact Hp|].
  destruct (proj1 (X13_pytest_one_record_per_line log) l Hp) as [Hn Hs].
  split; [rewrite Hn; vm_compute; reflexivity|].
  split; [rewrite Hs; vm_compute; reflexivity | exact Hd].
Defined.

(** ** A text without markers *)

Lemma finditer_none (q : ascii -> bool) (r : Re.regex) (content : str) :
  must_hit q r = true ->
  (forall ch, In ch content -> q ch = false) ->
  Re.finditer r content = [].
Proof.
  intros Hm Hc. unfold Re.finditer. cbn [Re.finditer_from].
  unfold Re.search. destruct (0 <=? _); [|reflexivity].
  rewrite (scan_from_none _ q r Hm); [reflexivity|].
  intros ch Hin. apply Hc.
  rewrite <- (firstn_skipn (length content) content). apply in_or_app. now left.
Qed.

Lemma no_markers_no_matches (content : str) :
  (forall ch, In ch content -> marker_char ch = false) ->
  GoogleTestParser.run_matches content = []
  /\ Re.finditer GoogleTestParser.ok_pattern content = []
  /\ Re.finditer GoogleTestParser.failed_pattern content = []
  /\ Re.finditer GoTestParser.test_pattern content = []
  /\ Re.finditer GoTestParser.result_pattern content = []
  /\ Re.finditer PytestParser.pytest_pattern content = [].
Proof.
  intro Hc. unfold GoogleTestParser.run_matches.
  repeat split; apply (finditer_none marker_char); try exact Hc;
    vm_compute; reflexivity.
Qed.

(** X14: a text without the characters [, =, - and : holds no marker of any
    dialect: each parser returns the empty list and none raises. *)
Theorem X14_no_marker_characters_no_records (content : str) :
  (forall ch, In ch content -> marker_char ch = false) ->
  GoogleTestParser.parse content = Ok []
  /\ GoTestParser.parse content = Ok []
  /\ PytestParser.parse content = Ok []
  /\ GenericParser.parse content = Ok [].
Proof.
  intro Hc.
  destruct (no_markers_no_matches content Hc)
    as (Hr & Hok & Hfl & Ht & Hres & Hpy).
  assert (H1 : GoogleTestParser.parse content = Ok []).
  { unfold GoogleTestParser.parse, GoogleTestParser.result_map.
    rewrite Hr, Hok, Hfl. reflexivity. }
  assert (H2 : GoTestParser.parse content = Ok []).
  { unfold GoTestParser.parse, GoTestParser.result_map.
    rewrite Ht, Hres. reflexivity. }
  assert (H3 : PytestParser.parse content = Ok []).
  { unfold PytestParser.parse. rewrite Hpy. reflexivity. }
  split; [exact H1|]. split; [exact H2|]. split; [exact H3|].
  unfold GenericParser.parse. rewrite H1, H2, H3. reflexivity.
Qed.

Lemma X14_witness :
  (forall ch, In ch Logs.no_markers -> marker_char ch = false)
  /\ GenericParser.parse Logs.no_markers = Ok [].
Proof.
  assert (H : forall ch, In ch Logs.no_markers -> marker_char ch = false).
  { intros ch Hin. vm_compute in Hin.
    repeat (destruct Hin as [<- | Hin]; [reflexivity|]). contradiction. }
  split; [exact H|].
  exact (proj2 (proj2 (proj2 (X14_no_marker_characters_no_records
                                Logs.no_markers H)))).
Defined.

(** ** parse_log_file *)

Lemma lstrip_nil (s : str) :
  lstrip s = [] -> forall ch, In ch s -> isspace ch = true.
Proof.
  induction s as [|c s IH]; simpl; [intros _ ch []|].
  destruct (isspace c) eqn:E; [|discriminate].
  intros H ch [<- | Hin]; auto.
Qed.

Lemma lstrip_starts_with_text (s : str) (c : ascii) (rest : str) :
  lstrip s = c :: rest -> isspace c = false.
Proof.
  induction s as [|d s IH]; simpl; [discriminate|].
  destruct (isspace d) eqn:E; [exact IH | now intros [= <- _]].
Qed.

Lemma strip_nil (s : str) :
  strip s = [] -> forall ch, In ch s -> isspace ch = true.
Proof.
  unfold strip, rstrip. intro H.
  assert (H1 : lstrip (rev (lstrip s)) = []).
  { destruct (lstrip (rev (lstrip s))) as [|c l]; [reflexivity|].
    simpl in H. destruct (rev l); discriminate. }
  assert (H2 : lstrip s = []).
  { destruct (lstrip s) as [|c rest] eqn:E; [reflexivity|].
    apply lstrip_starts_with_text in E.
    rewrite (lstrip_nil _ H1 c) in E; [discriminate|].
    apply in_rev. rewrite rev_involutive. now left. }
  now apply lstrip_nil.
Qed.

Lemma space_is_no_marker (ch : ascii) : isspace ch = true -> marker_char ch = false.
Proof.
  intro H. apply negb_true_iff.
  apply (class_within_spec isspace (fun c => negb (marker_char c)));
    [vm_compute; reflexivity | exact H].
Qed.

(** X15: for a readable log file [parse_log_file] returns what
    [GenericParser.parse] returns on its text, also when the text is empty
    or white space only: the early return changes no result. *)
Theorem X15_parse_log_file_is_generic_parse (content : str) :
  parse_log_file (Readable content)
  = match GenericParser.parse content with
    | Ok test_cases => Returned test_cases
    | Raise e => Raised (ParserRaised e)
    end.
Proof.
  unfold parse_log_file. destruct (truthy (strip content)) eqn:E; cbn [negb];
    [reflexivity|].
  assert (Hs : strip content = []) by (destruct (strip content); [reflexivity | discriminate]).
  destruct (no_markers_no_matches content)
    as (Hr & Hok & Hfl & Ht & Hres & Hpy).
  { intros ch Hin. apply space_is_no_marker. now apply (strip_nil content Hs). }
  unfold GenericParser.parse, GoogleTestParser.parse,
    GoogleTestParser.result_map, GoTestParser.parse,
    GoTestParser.result_map, PytestParser.parse.
  rewrite Hr, Hok, Hfl, Ht, Hres, Hpy. reflexivity.
Qed.

(** ** The error log of a Go record *)

Section FoldSet.
Variables (X V : Type) (key : X -> str) (val : X -> V).

Lemma fold_set_keeps (xs : list X) :
  forall d n v,
    Dict.get str_eqb d n = Some v ->
    exists v',
      Dict.get str_eqb
        (fold_left (fun d x => Dict.set str_eqb d (key x) (val x)) xs d) n
      = Some v'.
Proof.
  induction xs as [|x xs IH]; simpl; intros d n v H; [now exists v|].
  destruct (list_eq_dec ascii_dec (key x) n) as [<- | Hn].
  - apply (IH _ _ (val x)). apply (dict_get_set_same _ _ _ str_eqb_spec).
  - apply (IH _ _ v).
    now rewrite (dict_get_set_other _ _ _ str_eqb_spec _ _ _ _ Hn).
Qed.

Lemma fold_set_has (xs : list X) :
  forall d x,
    In x xs ->
    exists v,
      Dict.get str_eqb
        (fold_left (fun d x => Dict.set str_eqb d (key x) (val x)) xs d) (key x)
      = Some v.
Proof.
  induction xs as [|x0 xs IH]; simpl; intros d x Hin; [contradiction|].
  destruct Hin as [<- | Hin]; [|now apply IH].
  apply (fold_set_keeps xs _ _ (val x0)).
  apply (dict_get_set_same _ _ _ str_eqb_spec).
Qed.

Lemma fold_set_last (xs : list X) :
  forall d n v,
    Dict.get str_eqb
      (fold_left (fun d x => Dict.set str_eqb d (key x) (val x)) xs d) n
    = Some v ->
    (exists pre x post,
        xs = pre ++ x :: post /\ key x = n
        /\ (forall x', In x' post -> key x' <> n) /\ v = val x)
    \/ (Dict.get str_eqb d n = Some v /\ forall x', In x' xs -> key x' <> n).
Proof.
  induction xs as [|x xs IH]; simpl; intros d n v H.
  - right. split; [exact H | intros x' []].
  - destruct (IH _ _ _ H) as [(pre & x0 & post & -> & Hrest) | (Hd & Hnone)].
    + left. exists (x :: pre), x0, post. split; [reflexivity | exact Hrest].
    + destruct (list_eq_dec ascii_dec (key x) n) as [Hn | Hn].
      * left. exists [], x, xs. split; [reflexivity|].
        split; [exact Hn|]. split; [exact Hnone|].
        rewrite <- Hn in Hd.
        rewrite (dict_get_set_same _ _ _ str_eqb_spec) in Hd. congruence.
      * right.
        rewrite (dict_get_set_other _ _ _ str_eqb_spec _ _ _ _ Hn) in Hd.
        split; [exact Hd|]. intros x' [<- | Hx']; auto.
Qed.

End FoldSet.

Lemma fold_left_of_map (A B C : Type) (f : A -> B -> A) (g : C -> B)
  (l : list C) :
  forall a, fold_left f (map g l) a = fold_left (fun a x => f a (g x)) l a.
Proof. induction l as [|x l IH]; simpl; intro a; [reflexivity | apply IH]. Qed.

Lemma go_error_map_fold (content : str) :
  GoTestParser.error_map content
  = fold_left (fun d m =>
                 Dict.set str_eqb d (strip (Re.group content m 1))
                   (firstn 2048 (strip (Re.group content m 2))))
              (Re.finditer GoTestParser.error_pattern content) [].
Proof.
  unfold GoTestParser.error_map, GoTestParser.error_sections.
  apply fold_left_of_map.
Qed.

(** X16: a Go record carries an error log exactly when some FAIL section
    of the text has its name, whatever the status of the record; the log
    is the stripped text after the last FAIL line of that name, cut at
    2048 characters. *)
Theorem X16_go_error_log_by_name (content : str) (l : list test_case)
  (t : test_case) :
  GoTestParser.parse content = Ok l -> In t l ->
  (error_log t <> None <->
   exists m, In m (Re.finditer GoTestParser.error_pattern content)
             /\ strip (Re.group content m 1) = name t)
  /\ forall e,
       error_log t = Some e ->
       exists pre m post,
         Re.finditer GoTestParser.error_pattern content = pre ++ m :: post
         /\ strip (Re.group content m 1) = name t
         /\ (forall m', In m' post -> strip (Re.group content m' 1) <> name t)
         /\ e = firstn 2048 (strip (Re.group content m 2)).
Proof.
  intros Hp Ht.
  destruct (go_parse_In _ _ _ Hp Ht) as (rm & m0 & r & _ & _ & _ & _ & _ & _ & Hl).
  rewrite go_error_map_fold in Hl.
  assert (Hlast : forall e,
             error_log t = Some e ->
             exists pre m post,
               Re.finditer GoTestParser.error_pattern content = pre ++ m :: post
               /\ strip (Re.group content m 1) = name t
               /\ (forall m', In m' post ->
                              strip (Re.group content m' 1) <> name t)
               /\ e = firstn 2048 (strip (Re.group content m 2))).
  { intros e He. rewrite He in Hl. symmetry in Hl.
    destruct (fold_set_last _ _ _ _ _ _ _ _ Hl)
      as [(pre & m & post & Hms & Hn & Hnone & Hv) | (Hd & _)];
      [|discriminate Hd].
    now exists pre, m, post. }
  split; [|exact Hlast]. split.
  - intro Hne. destruct (error_log t) as [e|] eqn:He; [|congruence].
    destruct (Hlast e eq_refl) as (pre & m & post & Hms & Hn & _).
    exists m. split; [|exact Hn]. rewrite Hms. apply in_or_app. right. now left.
  - intros (m & Hm & Hn).
    destruct (fold_set_has _ _
                (fun m => strip (Re.group content m 1))
                (fun m => firstn 2048 (strip (Re.group content m 2)))
                _ [] m Hm) as [v Hv].
    cbv beta in Hv. rewrite Hn in Hv. rewrite Hl. intro Hnone.
    assert (Hx : Some v = None) by (rewrite <- Hv; exact Hnone).
    discriminate Hx.
Qed.

Lemma X16_witness :
  let log := lit "=== RUN   A
--- FAIL: A (0.25s)
    first try
--- FAIL: A (0.5s)
    second try
" in
  let t := {| name := lit "A"; status := failed; duration_ms := 500%Z;
              error_log := Some (lit "second try") |} in
  GoTestParser.parse log = Ok [t]
  /\ exists pre m post,
       Re.finditer GoTestParser.error_pattern log = pre ++ m :: post
       /\ strip (Re.group log m 1) = name t
       /\ (forall m', In m' post -> strip (Re.group log m' 1) <> name t)
       /\ lit "second try" = firstn 2048 (strip (Re.group log m 2)).
Proof.
  intros log t.
  assert (Hp : GoTestParser.parse log = Ok [t]) by (vm_compute; reflexivity).
  split; [exact Hp|].
  exact (proj2 (X16_go_error_log_by_name log [t] t Hp (or_introl eq_refl))
           (lit "second try") eq_refl).
Defined.

(** ** The status of the run and the count of failed records *)

Lemma overall_failed_filter (l : list test_case) :
  overall_status l = failed
  <-> 1 <= length (filter (fun tc => outcome_eqb (status tc) failed) l).
Proof.
  induction l as [|tc l IH]; cbn [overall_status filter].
  - split; [discriminate | simpl; lia].
  - destruct (status tc); cbn [outcome_eqb length]; [exact IH | | exact IH].
    split; [lia | reflexivity].
Qed.

(** X17: the two summaries [main] prints agree: the status of the whole
    run is failed exactly when the count kept for the status failed is 1
    or more. *)
Theorem X17_overall_status_matches_count (test_cases : list test_case) :
  overall_status test_cases = failed
  <-> 1 <= count_of (status_count test_cases) failed.
Proof.
  rewrite overall_failed_filter. unfold count_of, status_count.
  rewrite status_count_acc. cbv zeta.
  destruct (length (filter _ test_cases)) as [|n]; cbn [Nat.eqb Dict.get];
    [reflexivity|].
  split; lia.
Qed.

Lemma X17_witness :
  exists l,
    GoogleTestParser.parse Logs.interleaved = Ok l
    /\ overall_status l = failed
    /\ 1 <= count_of (status_count l) failed.
Proof.
  assert (H : exists l, GoogleTestParser.parse Logs.interleaved = Ok l
                        /\ overall_status l = failed)
    by (eexists; vm_compute; split; reflexivity).
  destruct H as (l & Hp & H). exists l.
  split; [exact Hp|]. split; [exact H|].
  exact (proj1 (X17_overall_status_matches_count l) H).
Defined.

(** ** An unambiguous completion is the one used *)

(** X18: when the gtest result map has an entry of the record's name after
    the start marker, and all such entries state the same status and
    milliseconds, the record has that status and those milliseconds. *)
Theorem X18_gtest_agreed_completion_is_used (content : str)
  (l : list test_case) (rm : GoogleTestParser.result_dict) (i : nat)
  (m : Re.mobj) (t : test_case) (pos : nat)
  (res : GoogleTestParser.result_entry) :
  GoogleTestParser.parse content = Ok l ->
  GoogleTestParser.result_map content = Ok rm ->
  nth_error (GoogleTestParser.run_matches content) i = Some m ->
  nth_error l i = Some t ->
  In (pos, res) rm ->
  Re.m_start m < pos ->
  GoogleTestParser.r_name res = name t ->
  (forall pos' res',
      In (pos', res') rm ->
      Re.m_start m < pos' ->
      GoogleTestParser.r_name res' = name t ->
      GoogleTestParser.r_status res' = GoogleTestParser.r_status res
      /\ GoogleTestParser.r_duration_ms res'
         = GoogleTestParser.r_duration_ms res) ->
  status t = GoogleTestParser.r_status res
  /\ duration_ms t = GoogleTestParser.r_duration_ms res.
Proof.
  intros Hp Hrm Hm Ht Hin Hlt Hname Hall.
  destruct (gtest_parse_nth _ _ _ _ Hp Hm) as (rm' & Hrm' & Enth).
  assert (rm' = rm) by congruence. subst rm'.
  rewrite Enth in Ht. apply some_eq in Ht. subst t. clear Enth.
  rewrite gtest_case_name in Hname, Hall.
  unfold GoogleTestParser.case_of.
  destruct (GoogleTestParser.find_result _ _ _) as [[q r]|] eqn:E;
    unfold GoogleTestParser.find_result in E.
  - apply find_some in E. destruct E as [Hq Hpr]. cbn [fst snd] in Hpr.
    apply andb_true_iff in Hpr. destruct Hpr as [Hl Hn].
    apply Nat.ltb_lt in Hl. apply str_eqb_true in Hn.
    exact (Hall q r Hq Hl Hn).
  - pose proof (find_none _ _ E (pos, res) Hin) as Hf. cbn [fst snd] in Hf.
    apply Nat.ltb_lt in Hlt. rewrite Hlt, Hname in Hf.
    assert (Hs : str_eqb (strip (Re.group content m 1))
                         (strip (Re.group content m 1)) = true)
      by (now apply str_eqb_spec).
    rewrite Hs in Hf. discriminate.
Qed.

Lemma X18_witness :
  let m := {| Re.m_start := 15; Re.m_end := 29; Re.m_caps := [(1, (28, 29))] |} in
  let t := {| name := lit "B"; status := passed; duration_ms := 4%Z;
              error_log := None |} in
  let res := {| GoogleTestParser.r_name := lit "B";
                GoogleTestParser.r_status := passed;
                GoogleTestParser.r_duration_ms := 4%Z;
                GoogleTestParser.r_end_pos := 51 |} in
  let rm := [(30, res);
             (52, {| GoogleTestParser.r_name := lit "A";
                     GoogleTestParser.r_status := failed;
                     GoogleTestParser.r_duration_ms := 9%Z;
                     GoogleTestParser.r_end_pos := 73 |})] in
  nth_error (GoogleTestParser.run_matches Logs.interleaved) 1 = Some m
  /\ fmap (fun l => nth_error l 1) (GoogleTestParser.parse Logs.interleaved)
     = Ok (Some t)
  /\ GoogleTestParser.result_map Logs.interleaved = Ok rm
  /\ status t = GoogleTestParser.r_status res
  /\ duration_ms t = GoogleTestParser.r_duration_ms res.
Proof.
  intros m t res rm.
  assert (Hm : nth_error (GoogleTestParser.run_matches Logs.interleaved) 1
               = Some m) by (vm_compute; reflexivity).
  assert (Hp : exists l, GoogleTestParser.parse Logs.interleaved = Ok l
                         /\ nth_error l 1 = Some t)
    by (eexists; vm_compute; split; reflexivity).
  destruct Hp as (l & Hp & Ht).
  assert (Hmap : GoogleTestParser.result_map Logs.interleaved = Ok rm)
    by (vm_compute; reflexivity).
  assert (Hin : In (30, res) rm) by now left.
  split; [exact Hm|]. split; [rewrite Hp; cbn [fmap]; now rewrite Ht|].
  split; [exact Hmap|].
  apply (X18_gtest_agreed_completion_is_used Logs.interleaved l rm 1 m t 30 res
           Hp Hmap Hm Ht Hin).
  - simpl. lia.
  - reflexivity.
  - intros pos' res' Hin' _ Hn.
    destruct Hin' as [[= <- <-] | [[= <- <-] | []]]; [now split|].
    vm_compute in Hn. discriminate Hn.
Defined.

(** ** The unit tests of the repository *)

(** The assertions of test_parse_and_upload.py hold: the ten tests of the
    gtest parser and the test of the dispatcher pass. *)
Theorem unit_tests_pass :
  (* test_simple_pass *)
  fmap (map summary) (GoogleTestParser.parse Tests.simple_pass)
  = Ok [(lit "TestName", passed, 4%Z)]
  (* test_simple_fail *)
  /\ fmap (map (fun t => (summary t,
                          Tests.log_has "test/syscalls/linux/test.cc:42" t)))
          (GoogleTestParser.parse Tests.simple_fail)
     = Ok [((lit "TestName", failed, 4%Z), true)]
  (* test_fail_without_failed_marker *)
  /\ fmap (map (fun t => (name t, status t,
                          Tests.log_has "test/syscalls/linux/test.cc:425" t)))
          (GoogleTestParser.parse Tests.fail_without_failed_marker)
     = Ok [(lit "TestName", failed, true); (lit "NextTest", failed, false)]
  (* test_multiple_tests *)
  /\ fmap (map (fun t => (name t, status t)))
          (GoogleTestParser.parse Tests.multiple_tests)
     = Ok [(lit "Test1", passed); (lit "Test2", passed); (lit "Test3", failed)]
  (* test_run_not_at_line_start *)
  /\ fmap (map (fun t => (name t, status t)))
          (GoogleTestParser.parse Tests.run_not_at_line_start)
     = Ok [(lit "TestName", passed)]
  (* test_failed_not_at_line_start *)
  /\ fmap (map (fun t => (name t, status t)))
          (GoogleTestParser.parse Tests.failed_not_at_line_start)
     = Ok [(lit "TestName", failed)]
  (* test_complex_test_name *)
  /\ fmap (map (fun t => (name t, status t)))
          (GoogleTestParser.parse Tests.complex_test_name)
     = Ok [(lit "Waiters/WaitAnyChildTest.Fork/0", passed)]
  (* test_error_log_extraction *)
  /\ fmap (map (fun t => (status t,
                          Tests.log_has "test/syscalls/linux/lseek.cc:208" t,
                          Tests.log_has "Expected: is equal to 4" t,
                          Tests.log_has "Actual: 8" t)))
          (GoogleTestParser.parse Tests.error_log_extraction)
     = Ok [(failed, true, true, true)]
  (* test_futx_example *)
  /\ fmap (map (fun t => (name t, status t,
                          Tests.log_has "test/syscalls/linux/futex.cc:425" t,
                          Tests.log_has "Expected: is equal to 2" t)))
          (GoogleTestParser.parse Tests.futx_example)
     = Ok [(lit "SharedPrivate/PrivateAndSharedFutexTest.WakeOpCondSuccess/0",
            failed, true, true)]
  (* test_real_world_example *)
  /\ fmap (map summary) (GoogleTestParser.parse Tests.real_world_example)
     = Ok [(lit "Waiters/WaitAnyChildTest.Fork/0", passed, 4%Z);
           (lit "Waiters/WaitAnyChildTest.Fork/1", passed, 4%Z)]
  (* TestGenericParser.test_google_test_format *)
  /\ fmap (map (fun t => (name t, status t)))
          (GenericParser.parse Tests.simple_pass)
     = Ok [(lit "TestName", passed)].
Proof.
  repeat match goal with
         | |- _ /\ _ => split
         end;
    vm_compute; reflexivity.
Qed.
